(* ===== verification/_CoqProject ===== *)
-Q . S2P
Prelude.v
Rounding.v
FrameSource.v
Encoder.v
Resolver.v
ResolverProofs.v
Pipeline.v
Sample.v
PipelineSpec.v
PipelineLoop.v
PipelineGen.v
PipelineRefine.v
PipelineCancel.v
PipelineRun.v
PipelineTree.v
PipelineConfig.v
PipelineCorrect.v
PipelineWindow.v
PipelinePts.v
PipelineFloat.v
Task.v
TaskGen.v
JobState.v
Logging.v
Paths.v
Exporter.v
Menu.v
MenuProofs.v
ExporterInv.v
Schedule.v
ExporterProofs.v
Jobs.v
System.v
JobsProofs.v
EndToEnd.v
Host.v
Session.v
