(* ===== verification/Prelude.v ===== *)
(** * A verification development for Pupil Player's video exporter

    ** The program

    [src/pupil_src/shared_modules/video_exporter.py] has two parts.

    - [export_processed_h264] (lines 38-110) is a generator.  It opens a
      source video, resolves a time window into a range of frame indices,
      reads the frames of the range, passes each through a transform, encodes
      it with a presentation timestamp relative to the first exported frame,
      flushes the encoder, closes the output, and yields (status, percent)
      events on the way.
    - class [VideoExporter] (lines 113-240) is the plugin that starts such
      generators as background tasks ([add_export_job]), cancels them
      ([cancel], [cleanup], [on_notify]), shows the last event of each
      ([recent_events], [gl_display]) and builds the menu through which the
      user sees the export and cancels it ([init_ui], [deinit_ui]).

    The generator runs in a process of its own; the plugin sees it only
    through the events a [Task_Proxy] hands over.  The classes and functions
    the file imports ([File_Source], PyAV, [player_methods],
    [background_helper], [csv_utils], [glob], [os], [pyglui]) and the host
    that calls the plugin are not in the repository's sources; they are
    modelled from the specification and from their documented behaviour, and
    kept apart, so that the definitions of [Pipeline], [Exporter], [Jobs]
    and the methods of [Menu] are translations of lines of the source.

    ** The files

    - [Prelude] (this file): exceptions as values ([exn], [result]), integer
      indexing of lists ([zlookup]), the conversion [int()] on rationals
      ([Qtrunc]), non-decreasing sequences and sequences with a minimal gap,
      the hint databases and the lemmas the components share.
    - [Rounding]: the arithmetic of the machine as a type class: the
      rounding [fl] with the law of the standard model ([Rounding]), the
      class of the monotone roundings ([RoundingMono]), and two instances,
      the arithmetic without rounding and one that rounds everything up.
    - [FrameSource]: [video_capture.File_Source] as a record with a cursor;
      [get_frame] gives [None] for [EndofVideoError].
    - [Encoder]: the contract of a PyAV stream as the type class [Encoder]
      (an encoder gives its packets in the order of the frames, and a flush
      gives nothing only when nothing is pending), the instance
      [delay_encoder] for every delay, and the output container.
    - [Resolver]: [player_methods.exact_window] and [find_closest].
    - [ResolverProofs]: the resolved indices are closest to the boundaries
      of the window, with the tie-break of the specification, and the range
      covers the window.
    - [Pipeline]: the generator.  [Locals] holds its local variables and
      what it printed, [GenState] has one constructor per [yield], [resume]
      is one [next()],
      [loop_iter] one iteration of the frame loop, [run_loop] and
      [flush_loop] the two [while True] loops, [finish] lines 101-109, and
      [export_processed_h264] the run of the generator to its end.
      [frame_pts_rnd] is line 87 in the arithmetic of the machine, a
      parameter of every definition of the pipeline; [frame_pts] is the
      exact value the specification defines.
    - [Sample]: a recording, a window and an encoder that holds back two
      frames, on which the theorems are applied.
    - [PipelineSpec]: the specification of a job without loops
      ([spec_packets], [spec_events]) and its properties.
    - [PipelineLoop]: one iteration by cases ([loop_view]), the rule for
      invariants of the frame loop ([run_loop_rule]), the flush loop.
    - [PipelineGen]: the rule for invariants of a run ([drain_rule]);
      termination, absence of exceptions, range of the percentages.
    - [PipelineRefine]: the refinement proof, by the invariant [loop_inv].
    - [PipelineCancel]: what a generator that is not resumed holds, and the
      rule [drain_final] for invariants of the state a run ends in.
    - [PipelineRun]: runs from any state of the generator: what it will
      still yield ([remaining]), what it returns ([gen_result]), and that
      neither depends on the fuel.
    - [PipelineTree]: the generator a second time, as an interaction tree
      ([export_tree]): the [yield]s are its visible events, the two
      [while True] loops are [ITree.iter], and there is no fuel; [collect]
      is the consumer that exhausts it, [tree_at] the tree of the generator
      suspended in a state of the state machine.
    - [PipelineConfig]: the settings of the stream and of the frame buffer
      as an equivalence [same_config] that every operation respects.
    - [PipelineCorrect]: the theorems on a job: refinement, frame count,
      first timestamp, order of the timestamps and of the percentages,
      number of events, last event, settings, resources, determinism.
    - [PipelineWindow]: the range is well formed and covers the window, and
      the output holds every frame of the window.
    - [PipelinePts]: how well the presentation timestamps stand for the
      time in every arithmetic of the standard model: error of at most one
      tick, strict order of frames three ticks apart, frames inside half a
      tick.
    - [PipelineFloat]: the two float computations of the generator in
      IEEE 754 arithmetic ([frame_pts_float], [progress_float]), with the
      exact value of a float, compared with the exact values by
      evaluation; the distance of [frame_pts_rnd] from [frame_pts].
    - [Task]: [background_helper.Task_Proxy] as the events its generator
      will yield and the events in its pipe.
    - [TaskGen]: the task with the generator inside ([GenTask]), one
      [next()] per background step; [Task] is an abstraction of it
      ([task_of]); the generator of a cancelled task is never resumed.
    - [JobState]: the states the specification gives a job ([JobState]),
      the state of a job read off its task ([job_state]) and the states a
      job goes through ([job_trace]).
    - [Logging]: the module's logger and the records written to it.
    - [Paths]: [os.path.join], [os.path.splitext], [glob], [os.makedirs],
      [str.replace], [csv_utils.read_key_value_file].
    - [Exporter]: the attributes of [VideoExporter] as the record [State],
      with a store of task objects ([heap]) because a task is shared between
      the plugin and its process, and the log the plugin writes ([log]); one
      function per method; the plugin and the processes as the transition
      system [step].
    - [ExporterInv]: the loops of [cancel] and [recent_events], the
      invariants of the reachable states with their rule [reachable_rule],
      what a second poll finds ([quiet]), and the equivalence of the loop of
      [recent_events] with a reference definition.
    - [Schedule]: interleavings of the background processes as lists of
      handles ([run_schedule]); the steps of different processes commute, so
      the state after a schedule depends only on how many steps each process
      took ([steps_of], [run_schedule_perm]).
    - [ExporterProofs]: the theorems on the methods.
    - [Menu], [MenuProofs]: [init_ui], [deinit_ui] and [gl_display] over a
      menu of widgets; the input of the user on a widget ([user_action]).
    - [Jobs]: [add_export_job] and [get_recording_start_date] over a record
      of the file system; [World] is what is outside the plugin, [world_le]
      what the plugin changes of it (it makes directories).
    - [System]: the plugin with tasks that run the pipeline.
    - [JobsProofs]: [add_export_job] on each path; notifications keep the
      plugin inside the transition system and leave the recording as it
      was.
    - [EndToEnd]: a job from the notification to the completion message
      and the content of the output file.
    - [Host]: the abstract methods of the class as the classes
      [CustomizeMenu] and [ExportData] with their contract [SubclassOk]; the
      calls of the host as a list of events ([HostEvent], [handle], [run])
      on the plugin and the world, and the refinement of the transition
      system by every run of the host.
    - [Session]: the runs that follow the protocol of the application
      ([session]), for an exporter that starts its jobs through
      [add_export_job] and whose [customize_menu] keeps the contract
      [KeepsMenu].

    ** What the theorems show

    - Refinement ([export_refines_spec]): for every recording, window,
      transform, encoder and arithmetic, the events of a run and the
      packets of its output are those of [PipelineSpec].  From it: the output holds
      [export_to_index - export_from_index + 1] frames, the first has
      [pts] 0, no frame of the window is missing, the presentation
      timestamps and the percentages of a job whose source opens never
      decrease, the last percentage is 100, an empty range gives an empty
      output and a normal completion, and natural completion drains the
      encoder, closes the container and releases the source.
    - Two models of the generator ([tree_next_agrees],
      [export_tree_agrees], [export_tree_correct]): the interaction tree,
      which has the loops of the source and no fuel, and the state machine
      take the same steps from every suspension point; the tree ends for
      every input, yields the events of the state machine and returns its
      local variables; so the tree satisfies the specification.
    - Safety and termination ([export_runs_to_completion],
      [progress_no_zero_division]): no [next()] raises, the division of
      lines 94-97 is never by zero, and the generator is exhausted within
      [drain_fuel] calls.
    - Presentation timestamps ([export_first_pts_zero],
      [export_pts_monotone], [export_pts_accurate],
      [export_pts_strictly_increasing], [export_pts_same_tick],
      [frame_pts_rnd_close]), in every arithmetic that rounds with a
      relative error of at most the unit roundoff: the first timestamp is
      0; a timestamp is the time since the first exported frame in ticks
      of 1/65535 second, up to one tick either way, and at most one tick
      from the exact truncation of the specification; frames at least three
      ticks apart get increasing timestamps; frames at most half a tick
      after the first get the timestamp 0; with a monotone rounding the
      timestamps never decrease.
    - Determinism ([export_deterministic]): events and output depend on the
      arguments, the source file and the arithmetic only, not on the
      number of CPUs, the other files or the latency of the encoder.
    - Tasks ([gen_task_refines_task], [canceled_job_never_cleans_up]): the
      task of [Exporter] answers every sequence of steps, fetches and
      cancellations as the task that runs the generator does; the generator
      of a cancelled task stays where it was suspended.
    - The life of a job ([job_reaches_final_state]): under every
      interleaving of background steps and fetches, a job that is not
      cancelled is completed or failed after [drain_fuel] background
      steps.
    - The plugin: [cancel] cancels every registered task and empties the
      registry ([cancel_cancels_registered]); in every reachable state the registry holds live tasks
      only; [recent_events] is equivalent to its reference definition for
      any number of tasks; a poll that directly follows a poll changes
      nothing ([recent_events_idempotent]); a job whose process took as
      many steps as the job has events shows its terminal event, however
      the steps were interleaved with those of other processes
      ([job_completion_shown]); what is shown is a status of the pipeline
      with a percentage between 0 and 100; the log announces the output
      directories and [output] is the one announced last
      ([log_announces_output]).
    - The components together ([notify_exports_window]): a notification on
      a recording with a start date and a readable source, in any state of
      the plugin, leads to the completion message and to an output file
      with the frames of the resolved range.
    - The menu and the host: the user can change the plugin through the
      menu of [init_ui] only by the button bound to [cancel]
      ([init_ui_user_actions]); every run of the host (notifications,
      polls, displays, input of the user, background steps, clean-up) stays
      inside the transition system ([host_run_reachable]), so the invariants
      of the reachable states hold of the plugin whatever the host does, and
      the directory shown as the last export exists; in a session that
      follows the protocol, with a [customize_menu] that keeps the
      attributes, the write protection, the menu and the icon, no call
      raises, the directories of the requests are made and the plugin shows
      the last of them ([session_exports]).
    - Where the code and its specification part: the generator of a
      cancelled task keeps the container open and the source unreleased
      ([canceled_job_never_cleans_up]); a tick of the time base is longer
      than a microsecond, and frames 5 microseconds apart share a
      timestamp ([export_pts_same_tick], [fast_frames_share_pts]); in
      binary64 a frame can get the tick after the one it lies in
      ([frame_pts_float_above], [frame_pts_float_early]); the
      message of line 228 is never shown ([status_never_canceled]); the
      percentages of a failed job go down
      ([export_fails_on_missing_source], [failure_events_not_monotone]); a
      recording without source video makes [add_export_job] raise
      ([add_export_job_no_source]); a job can be cancelled before it ran
      ([job_cancelled_before_start]); the source is the first accepted file
      of the directory listing, not the first in lexical order
      ([source_is_first_listed]); the docstring of the class names a
      directory "iMotions" and a file "scene.mp4" where the code takes both
      names from the arguments of [add_export_job].

    ** Numbers, bounds and fuel

    Frame indices, [pts] and counters are Python integers: [Z], without
    overflow.  A float is the rational ([Q]) it stands for.  The float
    operations of line 87, which decide the content of the output, are the
    exact operations followed by the rounding [fl] of a [Rounding]: the
    subtraction, the conversion of [time_base] to a float and the division
    are rounded, and [int()] is [Qtrunc], which rounds towards zero.  The
    law of [Rounding] is the standard model: [fl q] is [q] with a relative
    error of at most [unit_roundoff] (2 ^ -53 in binary64, as long as
    nothing overflows or underflows).  Every definition and theorem of the
    pipeline has the arithmetic as a parameter; the theorems that need more
    say so: [export_pts_monotone] needs a monotone rounding, and the
    bounds of [PipelinePts] need a recording that spans fewer ticks than a
    quarter of the inverse of the unit roundoff ([fits_precision]; in
    binary64 2 ^ 51 ticks, more than a thousand years).  That binary64 is an
    instance of [Rounding] is not proved: no library of the floats with
    that theorem is at hand.  The witnesses are computed in the arithmetic
    without rounding and in one that rounds every operation up by a
    billionth.

    The percentages are exact rationals: lines 94-98 are float operations
    too, but no decision of the program depends on a percentage, and the
    theorems on them are stated with the order of [Q] or on normalised
    constants.  [PipelineFloat] evaluates both computations in binary64 on
    recordings of 30 frames per second: the percentages are within
    [10 ^ -12] of the exact ones and the last is exactly 100; the
    presentation timestamps agree with the exact truncation on the first 16
    seconds, and a float timestamp can be one tick above it
    ([frame_pts_float_above]).

    The two [while True] loops take fuel.  [loop_fuel] is the number of
    frames left in the source plus one, since every iteration that goes on
    has read a frame ([loop_iter_continue]); [flush_fuel] is the number of
    pending packets plus one ([flush_loop_spec]); [drain_fuel] is the number
    of frames of the source plus four, one [next()] per event and one to
    see the generator stop ([drain_fuel_enough]).  No theorem assumes that
    fuel suffices: the theorems state that the run is complete, and the run
    does not depend on the fuel once there is enough
    ([drain_fuel_irrelevant], [run_loop_fuel]).  The interaction tree of
    [PipelineTree] has no fuel: that it ends is part of
    [export_tree_agrees].  [job_reaches_final_state] counts background
    steps: [drain_fuel] of them, in any order with the fetches, exhaust
    the generator.

    ** What is not modelled

    Pixels are an abstract type [Image] and the codec is any instance of
    [Encoder]: an encoder takes a copy of the frame buffer at [encode],
    gives at most one packet per call and never raises, and [av.open],
    [add_stream] and [seek_to_frame] are total, so the only exception of
    the pipeline is [ZeroDivisionError].  The abstract methods
    [export_data] and [customize_menu] have no body in the source: they
    are parameters of [on_notify] and [init_ui], and what a subclass must
    keep for the theorems on the host is [Host.SubclassOk] and, for a
    session, [Session.KeepsMenu]; the drawing of the widgets is not
    modelled, only what they read and write.  [init_ui] returns
    [AttributeError] when [customize_menu] removed the menu, which is what
    [self.menu.append] does on [None], and builds the slider with the
    defaults of [pyglui] before lines 167-168 set it read-only.
    [poll_tasks] skips a handle without a task object, which no reachable
    state has.  A cancelled task is never resumed: [generator.close()],
    [GeneratorExit] and the end of the process are not modelled.
    [os.makedirs] does not fail.  The line the generator prints is kept as
    the tuple that was printed, not as text.  Overflow, underflow, infinities
    and NaN of the floats are outside [Rounding].  The file system changes
    only by the directories
    [add_export_job] creates: the output file of a job is the container the
    generator holds, not a file of [World], and nothing but the plugin
    writes.  What is left of the source file is imports, comments and the
    version number.  The scheduling of the background processes is the
    interleaving of [step], of [run_schedule] and of the events of [run];
    time is not modelled. *)

From Stdlib Require Export ZArith QArith Qround Qabs Lia Lqa.
From stdpp Require Export base tactics option list numbers list_numbers strings.

(** ** Scope and notations of the development *)

Declare Scope vx_scope.
Delimit Scope vx_scope with vx.
#[global] Open Scope vx_scope.

(** ** Python exceptions as values

    The source signals failure by raising; a model function that can raise
    returns a [result].  Only the exceptions the modelled code can raise are
    listed. *)

Inductive exn : Type :=
| ZeroDivisionError
| IndexError
| KeyError
| TypeError
| FileNotFoundError
| AttributeError.

Inductive result (A : Type) : Type :=
| Ok (a : A)
| Raise (e : exn).

Arguments Ok {A} a.
Arguments Raise {A} e.

Definition rbind {A B : Type} (m : result A) (k : A -> result B) : result B :=
  match m with
  | Ok a => k a
  | Raise e => Raise e
  end.

Notation "x <~ m ;; k" := (rbind m (fun x => k))
  (at level 100, m at next level, right associativity) : vx_scope.

Definition is_ok {A : Type} (m : result A) : bool :=
  match m with Ok _ => true | Raise _ => false end.

#[export] Instance exn_eq_dec : EqDecision exn.
Proof. solve_decision. Defined.

(** ** Integer-indexed list lookup

    Python indexes sequences with integers; the model keeps indices in [Z] and
    reads a list through [zlookup], which has no element at a negative
    index (the modelled code never relies on Python's wrap-around of negative
    indices). *)

Definition zlookup {A : Type} (l : list A) (i : Z) : option A :=
  if bool_decide (0 <= i)%Z then l !! Z.to_nat i else None.

Notation "l !!z i" := (zlookup l i) (at level 20) : vx_scope.

(** ** Truncation of a rational to an integer

    [Qtrunc q] is Python's [int(q)]: rounding toward zero. *)

Definition Qtrunc (q : Q) : Z := Z.quot (Qnum q) (Z.pos (Qden q)).

(** ** Sequences that never decrease *)

Definition nondecreasing (l : list Q) : Prop :=
  forall i j x y, (i <= j)%nat -> l !! i = Some x -> l !! j = Some y -> (x <= y)%Q.

(** ** Tactics *)

(** [case_test]: replace the boolean tests of the goal by the facts they
    decide. *)
Ltac case_test :=
  repeat match goal with
  | |- context [bool_decide ?P] => destruct (bool_decide_reflect P)
  | |- context [Z.leb ?a ?b] => destruct (Z.leb_spec a b)
  | |- context [Z.ltb ?a ?b] => destruct (Z.ltb_spec a b)
  | |- context [Z.eqb ?a ?b] => destruct (Z.eqb_spec a b)
  | H : context [bool_decide ?P] |- _ => destruct (bool_decide_reflect P)
  | H : context [Z.leb ?a ?b] |- _ => destruct (Z.leb_spec a b)
  | H : context [Z.ltb ?a ?b] |- _ => destruct (Z.ltb_spec a b)
  | H : context [Z.eqb ?a ?b] |- _ => destruct (Z.eqb_spec a b)
  end.

(** [ok_inv]: split a hypothesis [rbind m k = Ok b] into its two steps. *)
Ltac ok_inv :=
  repeat match goal with
  | H : rbind ?m _ = Ok _ |- _ =>
      let a := fresh "a" in let Ha := fresh "Ha" in
      destruct m as [a|] eqn:Ha; simpl in H; [|discriminate H]
  | H : Ok _ = Ok _ |- _ => injection H as H; subst
  | H : Raise _ = Ok _ |- _ => discriminate H
  end.

Create HintDb vx discriminated.
Create Rewrite HintDb vx_rw.

(** ** Lemmas on [result] *)

Lemma rbind_ok {A B} (m : result A) (k : A -> result B) b :
  rbind m k = Ok b <-> exists a, m = Ok a /\ k a = Ok b.
Proof.
  destruct m as [a|e]; simpl.
  - split; [eauto | intros (a'&H1&H2); congruence].
  - split; [discriminate | intros (a'&H1&H2); discriminate].
Qed.

Lemma rbind_raise {A B} (m : result A) (k : A -> result B) e :
  rbind m k = Raise e <-> m = Raise e \/ exists a, m = Ok a /\ k a = Raise e.
Proof.
  destruct m as [a|e']; simpl.
  - split; [intros H; right; eauto | intros [H|(a'&H1&H2)]; congruence].
  - split; [intros [= ->]; by left | intros [H|(a'&H1&H2)]; congruence].
Qed.

Lemma is_ok_true {A} (m : result A) : is_ok m = true <-> exists a, m = Ok a.
Proof.
  destruct m as [a|e]; simpl.
  - split; eauto.
  - split; [discriminate | intros [a H]; discriminate].
Qed.

(** ** Lemmas on [zlookup] *)

Section zlookup.
Context {A : Type}.
Implicit Types (l : list A) (i : Z) (x : A).

Lemma zlookup_of_nat l (n : nat) : l !!z Z.of_nat n = l !! n.
Proof.
  unfold zlookup. rewrite bool_decide_eq_true_2 by lia. by rewrite Nat2Z.id.
Qed.

Lemma zlookup_neg l i : (i < 0)%Z -> l !!z i = None.
Proof. intros. unfold zlookup. by rewrite bool_decide_eq_false_2 by lia. Qed.

Lemma zlookup_Some l i x :
  l !!z i = Some x <-> (0 <= i)%Z /\ l !! Z.to_nat i = Some x.
Proof. unfold zlookup. case_bool_decide; split; try tauto; done. Qed.

Lemma zlookup_lt_Some l i x :
  l !!z i = Some x -> (0 <= i < Z.of_nat (length l))%Z.
Proof.
  rewrite zlookup_Some. intros [? H%lookup_lt_Some]. lia.
Qed.

Lemma zlookup_lt_is_Some l i :
  (0 <= i < Z.of_nat (length l))%Z -> is_Some (l !!z i).
Proof.
  intros. unfold zlookup. rewrite bool_decide_eq_true_2 by lia.
  apply lookup_lt_is_Some. lia.
Qed.

Lemma zlookup_ge_None l i : (Z.of_nat (length l) <= i)%Z -> l !!z i = None.
Proof.
  intros. unfold zlookup. case_bool_decide; [|done].
  apply lookup_ge_None. lia.
Qed.

End zlookup.

(** ** Lemmas on [Qtrunc] *)

Lemma Qtrunc_nonneg_floor q : (0 <= q)%Q -> Qtrunc q = Qfloor q.
Proof.
  destruct q as [n d]. unfold Qle, Qtrunc, Qfloor. simpl. intros.
  apply Z.quot_div_nonneg; lia.
Qed.

Lemma Qtrunc_opp q : Qtrunc (- q) = (- Qtrunc q)%Z.
Proof. destruct q as [n d]. unfold Qtrunc. simpl. by apply Z.quot_opp_l. Qed.

Lemma Qtrunc_zero q : (q == 0)%Q -> Qtrunc q = 0%Z.
Proof.
  destruct q as [n d]. unfold Qeq, Qtrunc. simpl. intros.
  replace n with 0%Z by lia. done.
Qed.

Lemma Qtrunc_nonneg q : (0 <= q)%Q -> (0 <= Qtrunc q)%Z.
Proof.
  destruct q as [n d]. unfold Qle, Qtrunc. simpl. intros.
  apply Z.quot_pos; lia.
Qed.

Lemma Qtrunc_mono_nonneg p q : (0 <= p)%Q -> (p <= q)%Q -> (Qtrunc p <= Qtrunc q)%Z.
Proof.
  intros Hp Hpq. rewrite !Qtrunc_nonneg_floor by lra. by apply Qfloor_resp_le.
Qed.

(** Truncation of a number that is not negative rounds down by less than
    one. *)
Lemma Qtrunc_bounds q :
  (0 <= q)%Q -> (inject_Z (Qtrunc q) <= q < inject_Z (Qtrunc q) + 1)%Q.
Proof.
  intros Hq. rewrite Qtrunc_nonneg_floor by done. split; [apply Qfloor_le|].
  pose proof (Qlt_floor q) as Hlt. by rewrite inject_Z_plus in Hlt.
Qed.

(** Two numbers at least one apart have different truncations. *)
Lemma Qtrunc_lt p q : (0 <= p)%Q -> (p + 1 <= q)%Q -> (Qtrunc p < Qtrunc q)%Z.
Proof.
  intros Hp Hpq. destruct (Qtrunc_bounds p Hp) as [Hp0 _].
  destruct (Qtrunc_bounds q) as [_ Hq1]; [lra|]. rewrite Zlt_Qlt. lra.
Qed.

(** A number between 0 and 1 truncates to 0. *)
Lemma Qtrunc_small q : (0 <= q < 1)%Q -> Qtrunc q = 0%Z.
Proof.
  intros [H0 H1]. destruct (Qtrunc_bounds q H0) as [Hl Hu].
  pose proof (Qtrunc_nonneg q H0) as Hn.
  assert (Qtrunc q < 1)%Z; [|lia]. rewrite Zlt_Qlt. change (inject_Z 1) with 1%Q. lra.
Qed.

Lemma Qtrunc_inject_Z z : Qtrunc (inject_Z z) = z.
Proof. unfold Qtrunc. simpl. apply Z.quot_1_r. Qed.

#[export] Instance Qtrunc_proper : Proper (Qeq ==> eq) Qtrunc.
Proof.
  intros p q Hpq. destruct (Qlt_le_dec p 0) as [Hneg|Hpos].
  - assert (Hp : Qtrunc (- p) = Qtrunc (- q)).
    { rewrite !Qtrunc_nonneg_floor by lra. apply Qfloor_comp. lra. }
    rewrite !Qtrunc_opp in Hp. lia.
  - rewrite !Qtrunc_nonneg_floor by lra. by apply Qfloor_comp.
Qed.

(** ** Lists *)

Lemma length_omap_total {A B} (f : A -> option B) (l : list A) :
  Forall (fun x => is_Some (f x)) l -> length (omap f l) = length l.
Proof.
  induction 1 as [|x l' [y Hy] _ IH]; [done|].
  cbn. rewrite Hy. cbn. by f_equal.
Qed.

(** [omap] of a function that is defined on every element keeps the
    positions. *)
Lemma omap_total_lookup {A B} (f : A -> option B) (l : list A) (n : nat) (y : B) :
  Forall (fun x => is_Some (f x)) l -> omap f l !! n = Some y ->
  exists x, l !! n = Some x /\ f x = Some y.
Proof.
  intros Hl. revert n. induction Hl as [|x l' [z Hz] _ IH]; intros n; [done|].
  cbn. rewrite Hz. cbn. destruct n as [|n]; simpl; [|by apply IH].
  intros [= <-]. eauto.
Qed.

Lemma omap_total_lookup_2 {A B} (f : A -> option B) (l : list A) (n : nat) x y :
  Forall (fun x => is_Some (f x)) l -> l !! n = Some x -> f x = Some y ->
  omap f l !! n = Some y.
Proof.
  intros Hl. revert n. induction Hl as [|x' l' [z Hz] _ IH]; intros n; [done|].
  cbn. rewrite Hz. cbn. destruct n as [|n]; simpl; [|by apply IH].
  intros [= ->] Hy. congruence.
Qed.

(** ** Integer ranges *)

Lemma seqZ_snoc m n : (0 <= n)%Z -> seqZ m (n + 1) = seqZ m n ++ [(m + n)%Z].
Proof.
  intros Hn. rewrite seqZ_app by lia. f_equal.
Qed.

Lemma to_nat_div_add a d :
  (0 < d)%Z -> (0 <= a)%Z -> Z.to_nat ((a + d) / d) = S (Z.to_nat (a / d)).
Proof.
  intros Hd Ha. replace (a + d)%Z with (a + 1 * d)%Z by lia.
  rewrite Z.div_add by lia. pose proof (Z.div_pos a d). lia.
Qed.

Lemma to_nat_div_small a d : (0 < d)%Z -> (a < d)%Z -> Z.to_nat (a / d) = 0%nat.
Proof.
  intros Hd Ha. destruct (decide (0 <= a)%Z).
  - by rewrite Z.div_small by lia.
  - pose proof (Z.div_lt_upper_bound a d 0). lia.
Qed.

(** ** Integers among the rationals *)

Lemma inject_Z_pos z : (0 < z)%Z -> (0 < inject_Z z)%Q.
Proof. intros. change 0%Q with (inject_Z 0). by rewrite <- Zlt_Qlt. Qed.

Lemma inject_Z_nonneg z : (0 <= z)%Z -> (0 <= inject_Z z)%Q.
Proof. intros. change 0%Q with (inject_Z 0). by rewrite <- Zle_Qle. Qed.

Lemma Qdiv_unit_interval (a b : Z) :
  (0 < a <= b)%Z -> (0 < inject_Z a / inject_Z b <= 1)%Q.
Proof.
  intros Hab. assert (0 < inject_Z b)%Q as Hb by (apply inject_Z_pos; lia). split.
  - apply Qlt_shift_div_l; [done|]. rewrite Qmult_0_l. apply inject_Z_pos. lia.
  - apply Qle_shift_div_r; [done|]. rewrite Qmult_1_l, <- Zle_Qle. lia.
Qed.

Lemma Qdiv_le_mono (a a' b : Z) :
  (0 < b)%Z -> (a <= a')%Z -> (inject_Z a / inject_Z b <= inject_Z a' / inject_Z b)%Q.
Proof.
  intros Hb Ha. apply Qmult_le_compat_r.
  - by rewrite <- Zle_Qle.
  - apply Qlt_le_weak, Qinv_lt_0_compat, inject_Z_pos, Hb.
Qed.

(** ** Lemmas on [nondecreasing] *)

Lemma nondecreasing_nil : nondecreasing [].
Proof. intros i j x y _ H. by rewrite lookup_nil in H. Qed.

Lemma nondecreasing_cons x l :
  nondecreasing (x :: l) <->
  Forall (fun y => (x <= y)%Q) l /\ nondecreasing l.
Proof.
  split.
  - intros H. split.
    + apply Forall_lookup. intros i y Hy. by apply (H 0%nat (S i) x y); [lia|..].
    + intros i j a b Hij Ha Hb. by apply (H (S i) (S j) a b); [lia|..].
  - intros [Hx Hl] [|i] [|j] a b Hij Ha Hb; simplify_eq/=.
    + lra.
    + eapply Forall_lookup in Hx; eauto.
    + lia.
    + eapply (Hl i j); eauto. lia.
Qed.

Lemma nondecreasing_app l1 l2 :
  nondecreasing l1 -> nondecreasing l2 ->
  (forall x y, x ∈ l1 -> y ∈ l2 -> (x <= y)%Q) ->
  nondecreasing (l1 ++ l2).
Proof.
  induction l1 as [|a l1 IH]; simpl; [done|].
  rewrite !nondecreasing_cons. intros [Ha Hl1] Hl2 Hx. split.
  - apply Forall_app. split; [done|].
    apply Forall_forall. intros y Hy. apply Hx; [left|done].
  - apply IH; [done..|]. intros x y Hx1 Hy. apply Hx; [by right|done].
Qed.

Lemma nondecreasing_filter (P : Q -> Prop) `{!forall x, Decision (P x)} l :
  nondecreasing l -> nondecreasing (filter P l).
Proof.
  induction l as [|x l IH]; [done|].
  intros [Hx Hl%IH]%nondecreasing_cons. rewrite filter_cons.
  destruct (decide (P x)); [|done]. apply nondecreasing_cons. split; [|done].
  apply Forall_forall. intros y [_ Hy]%list_elem_of_filter.
  by eapply Forall_forall in Hx.
Qed.

(** The head of a sequence that never decreases is at most its last
    element. *)
Lemma nondecreasing_head_last x l :
  nondecreasing (x :: l) -> (x <= default x (last l))%Q.
Proof.
  intros [Hx _]%nondecreasing_cons. destruct (last l) as [y|] eqn:Hy; simpl; [|lra].
  apply last_Some in Hy as [l' ->]. by apply Forall_app in Hx as [_ [? _]%Forall_cons].
Qed.

(** The absolute value by cases. *)
Lemma Qabs_cases x :
  (0 <= x /\ Qabs x == x)%Q \/ (x <= 0 /\ Qabs x == - x)%Q.
Proof.
  destruct (Qlt_le_dec x 0).
  - right. split; [lra|]. apply Qabs_neg. lra.
  - left. split; [done|]. by apply Qabs_pos.
Qed.

(** ** Sequences with a minimal gap *)

(** Consecutive elements are at least [d] apart. *)
Definition spaced (d : Q) (l : list Q) : Prop :=
  forall i x y, l !! i = Some x -> l !! S i = Some y -> (x + d <= y)%Q.

Lemma spaced_lookup d l i j x y :
  (0 <= d)%Q -> spaced d l -> (i < j)%nat ->
  l !! i = Some x -> l !! j = Some y -> (x + d <= y)%Q.
Proof.
  intros Hd Hs Hij Hx. revert y. induction Hij as [|m Hm IH]; intros y Hy.
  - by eapply Hs.
  - destruct (lookup_lt_is_Some_2 l m) as [z Hz].
    { apply lookup_lt_Some in Hy. lia. }
    pose proof (IH z Hz). pose proof (Hs m z y Hz Hy). lra.
Qed.

Lemma spaced_nondecreasing d l : (0 <= d)%Q -> spaced d l -> nondecreasing l.
Proof.
  intros Hd Hs i j x y Hij Hx Hy. destruct (decide (i = j)) as [->|Hne].
  - rewrite Hx in Hy. injection Hy as ->. lra.
  - pose proof (spaced_lookup d l i j x y Hd Hs ltac:(lia) Hx Hy). lra.
Qed.

Fixpoint spacedb (d : Q) (l : list Q) : bool :=
  match l with
  | x :: (y :: _) as l' => Qle_bool (x + d) y && spacedb d l'
  | _ => true
  end.

Lemma spacedb_sound d l : spacedb d l = true -> spaced d l.
Proof.
  induction l as [|x [|y l] IH]; intros Hb i a b Ha Hb'.
  - done.
  - by destruct i.
  - simpl in Hb. apply andb_prop in Hb as [Hxy Hl]. apply Qle_bool_iff in Hxy.
    destruct i as [|i]; simpl in *; [by simplify_eq|]. by eapply (IH Hl i).
Qed.

(** A decision procedure for [nondecreasing]: compare the neighbours. *)
Fixpoint nondecreasingb (l : list Q) : bool :=
  match l with
  | x :: (y :: _) as l' => Qle_bool x y && nondecreasingb l'
  | _ => true
  end.

Lemma nondecreasingb_sound l : nondecreasingb l = true -> nondecreasing l.
Proof.
  induction l as [|x [|y l] IH].
  - intros _. apply nondecreasing_nil.
  - intros _. apply nondecreasing_cons. split; [constructor|apply nondecreasing_nil].
  - intros [Hxy Hl%IH]%andb_prop. apply Qle_bool_iff in Hxy.
    apply nondecreasing_cons. split; [|done].
    apply nondecreasing_cons in Hl as [Hy _]. constructor; [done|].
    eapply Forall_impl; [done|]. simpl. intros z Hz. lra.
Qed.

(** ** The hint databases

    [vx] holds the facts that close side conditions ([auto with vx]);
    [vx_rw] holds the equations that simplify lengths and look-ups
    ([autorewrite with vx_rw]).  The components add their own. *)

#[export] Hint Resolve nondecreasing_nil inject_Z_pos inject_Z_nonneg : vx.
#[export] Hint Rewrite @zlookup_of_nat @length_alter @length_insert @length_app
  @length_fmap : vx_rw.

(** Two updates of one position are one update. *)
Lemma list_alter_comm {A} (f g : A -> A) (i j : nat) (l : list A) :
  i <> j -> alter f i (alter g j l) = alter g j (alter f i l).
Proof.
  intros Hij. apply list_eq. intros k.
  destruct (decide (k = i)) as [->|Hi]; [|destruct (decide (k = j)) as [->|Hj]].
  - by rewrite list_lookup_alter_eq, !(list_lookup_alter_ne _ _ j i),
      list_lookup_alter_eq by done.
  - by rewrite list_lookup_alter_eq, !(list_lookup_alter_ne _ _ i j),
      list_lookup_alter_eq by done.
  - by rewrite !list_lookup_alter_ne by done.
Qed.

Lemma list_alter_twice {A} (f g : A -> A) (i : nat) (l : list A) :
  alter f i (alter g i l) = alter (fun x => f (g x)) i l.
Proof.
  revert i. induction l as [|x l IH]; intros [|i]; simpl; try done.
  f_equal. apply IH.
Qed.

(** Two numbers less than one apart have truncations at most one apart. *)
Lemma Qtrunc_close p q :
  (0 <= p)%Q -> (0 <= q)%Q -> (p - 1 < q < p + 1)%Q ->
  (Qtrunc p - 1 <= Qtrunc q <= Qtrunc p + 1)%Z.
Proof.
  intros Hp Hq [Hl Hu]. destruct (Qtrunc_bounds p Hp), (Qtrunc_bounds q Hq).
  assert (Qtrunc p < Qtrunc q + 2 /\ Qtrunc q < Qtrunc p + 2)%Z; [|lia].
  rewrite !Zlt_Qlt, !inject_Z_plus. change (inject_Z 2) with 2%Q. lra.
Qed.
