(* ===== verification/Rounding.v ===== *)
(** * The arithmetic of the machine

    The timestamps of a recording are binary64 floats, and line 87 of
    [video_exporter.py] computes a presentation timestamp with a float
    subtraction, a float division and [int()].  The development does not fix
    the arithmetic: a float is the rational it stands for, and the
    operations of the machine are the exact operations followed by a
    rounding [fl].  [Rounding] is the standard model of such an arithmetic:
    every rounding gives its argument with a relative error of at most
    [unit_roundoff] (2 ^ -53 in binary64, as long as nothing overflows or
    underflows).  [RoundingMono] adds that the rounding is monotone, as
    every rounding mode of IEEE 754 is.  The pipeline and its theorems are
    stated for every instance; the arithmetic without rounding
    ([exact_rounding]) is one, an arithmetic that rounds everything up
    ([upward_rounding]) another.  That binary64 is an instance is not
    proved. *)

From S2P Require Import Prelude.

Local Open Scope Q_scope.

Class Rounding : Type := {
  unit_roundoff : Q;
  fl : Q -> Q;
  unit_roundoff_small : (0 <= unit_roundoff <= 1 # 5)%Q;
  fl_close q :
    (0 <= q)%Q -> ((1 - unit_roundoff) * q <= fl q <= (1 + unit_roundoff) * q)%Q;
}.

Class RoundingMono `{Rounding} : Prop :=
  fl_mono p q : (0 <= p)%Q -> (p <= q)%Q -> (fl p <= fl q)%Q.

(** The arithmetic without rounding, and one that rounds everything up by a
    billionth. *)
Lemma exact_rounding_close q : (0 <= q)%Q -> ((1 - 0) * q <= q <= (1 + 0) * q)%Q.
Proof. intros Hq. lra. Qed.

Lemma upward_rounding_close q :
  (0 <= q)%Q ->
  ((1 - (1 # 1000000000)) * q <= (1 + (1 # 1000000000)) * q
   <= (1 + (1 # 1000000000)) * q)%Q.
Proof. intros Hq. lra. Qed.

Definition exact_rounding : Rounding :=
  {| unit_roundoff := 0; fl q := q;
     unit_roundoff_small := ltac:(done); fl_close := exact_rounding_close |}.

Definition upward_rounding : Rounding :=
  {| unit_roundoff := 1 # 1000000000; fl q := ((1 + (1 # 1000000000)) * q)%Q;
     unit_roundoff_small := ltac:(done); fl_close := upward_rounding_close |}.

Lemma exact_rounding_mono : @RoundingMono exact_rounding.
Proof. by intros p q _ Hpq. Qed.

Lemma upward_rounding_mono : @RoundingMono upward_rounding.
Proof. intros p q _ Hpq. simpl. lra. Qed.

Section rounding.
Context {rnd : Rounding}.
Implicit Types (q : Q).

Lemma fl_nonneg q : 0 <= q -> 0 <= fl q.
Proof.
  intros Hq. pose proof unit_roundoff_small. pose proof (fl_close q Hq). nra.
Qed.

Lemma fl_pos q : 0 < q -> 0 < fl q.
Proof.
  intros Hq. pose proof unit_roundoff_small.
  pose proof (fl_close q ltac:(lra)). nra.
Qed.

(** Zero is rounded to zero. *)
Lemma fl_zero q : q == 0 -> fl q == 0.
Proof.
  intros Hq. pose proof unit_roundoff_small.
  pose proof (fl_close q ltac:(lra)). nra.
Qed.

End rounding.
