(* ===== verification/FrameSource.v ===== *)
(** * The frame source adapter ([video_capture.File_Source])

    The exporter drives a [File_Source]: it opens a video file, seeks to a
    frame index and reads frames one after the other until the source signals
    the end of the video.  The class lives outside the repository's sources
    and is modelled from its contract: a cursor over the file's frames, the
    index of the frame returned last, and an end-of-video signal when the
    cursor is outside the file.  [EndofVideoError] is the [None] of
    [get_frame]. *)

From stdpp Require Import gmap.
From S2P Require Import Prelude.

Local Open Scope Z_scope.

Section frame_source.
Context {Image : Type}.

(** A decoded frame: [index], [timestamp] and the image. *)
Record Frame : Type := mkFrame {
  index : Z;
  timestamp : Q;
  img : Image;
}.

(** A video file on disk: whether it can be opened, its frame size and its
    frames, each with its timestamp. *)
Record VideoFile : Type := mkVideoFile {
  vf_readable : bool;
  vf_frame_size : Z * Z;
  vf_frames : list (Q * Image);
}.

(** The adapter: [target_frame_idx] is the decode cursor,
    [current_frame_idx] the index of the frame returned last. *)
Record File_Source : Type := mkFileSource {
  initialised : bool;
  frame_size : Z * Z;
  frames : list (Q * Image);
  target_frame_idx : Z;
  current_frame_idx : Z;
  released : bool;
}.

(** [capture.timestamps]: the source timestamp sequence. *)
Definition timestamps (c : File_Source) : list Q := fst <$> frames c.

(** [File_Source(g_pool, source_path)]: a missing or unreadable file gives an
    adapter whose [initialised] flag is false.  The adapter reads nothing of
    [g_pool]. *)
Definition File_Source_init {G : Type} (g_pool : G) (files : gmap string VideoFile)
    (source_path : string) : File_Source :=
  match files !! source_path with
  | Some f =>
      if vf_readable f
      then mkFileSource true (vf_frame_size f) (vf_frames f) 0 0 false
      else mkFileSource false (0, 0) [] 0 0 false
  | None => mkFileSource false (0, 0) [] 0 0 false
  end.

(** [capture.seek_to_frame(seek_pos)]: reposition the cursor. *)
Definition seek_to_frame (c : File_Source) (seek_pos : Z) : File_Source :=
  mkFileSource (initialised c) (frame_size c) (frames c)
    seek_pos (current_frame_idx c) (released c).

(** [capture.get_frame()]: the frame under the cursor, the cursor advanced;
    [None] is [EndofVideoError], which leaves the adapter as it was. *)
Definition get_frame (c : File_Source) : option (Frame * File_Source) :=
  match frames c !!z target_frame_idx c with
  | Some (ts, im) =>
      Some (mkFrame (target_frame_idx c) ts im,
            mkFileSource (initialised c) (frame_size c) (frames c)
              (target_frame_idx c + 1) (target_frame_idx c) (released c))
  | None => None
  end.

(** [capture.cleanup()]: release the decode context. *)
Definition capture_cleanup (c : File_Source) : File_Source :=
  mkFileSource (initialised c) (frame_size c) (frames c)
    (target_frame_idx c) (current_frame_idx c) true.

(** Frames left between the cursor and the end of the file: the measure of
    every loop that reads the source. *)
Definition frames_left (c : File_Source) : nat :=
  Z.to_nat (Z.of_nat (length (frames c)) - target_frame_idx c).

(** ** The adapter's contract *)

Lemma get_frame_Some c fr c' :
  get_frame c = Some (fr, c') ->
  index fr = target_frame_idx c /\
  frames c !!z target_frame_idx c = Some (timestamp fr, img fr) /\
  frames c' = frames c /\
  target_frame_idx c' = target_frame_idx c + 1 /\
  current_frame_idx c' = index fr /\
  initialised c' = initialised c /\ frame_size c' = frame_size c /\
  released c' = released c.
Proof.
  unfold get_frame. destruct (frames c !!z target_frame_idx c) as [[ts im]|] eqn:E;
    [|done].
  intros [= <- <-]. by split_and!.
Qed.

Lemma get_frame_None c :
  get_frame c = None <->
  target_frame_idx c < 0 \/ Z.of_nat (length (frames c)) <= target_frame_idx c.
Proof.
  unfold get_frame. split.
  - destruct (frames c !!z target_frame_idx c) as [[ts im]|] eqn:E; [done|].
    intros _. destruct (decide (target_frame_idx c < 0)); [by left|right].
    destruct (decide (Z.of_nat (length (frames c)) <= target_frame_idx c)); [done|].
    destruct (zlookup_lt_is_Some (frames c) (target_frame_idx c)) as [x Hx]; [lia|].
    congruence.
  - intros [H|H]; [rewrite zlookup_neg|rewrite zlookup_ge_None]; done.
Qed.

Lemma get_frame_in_range c fr c' :
  get_frame c = Some (fr, c') -> 0 <= index fr < Z.of_nat (length (frames c)).
Proof.
  intros (Hi & Hl & _)%get_frame_Some. rewrite Hi. by eapply zlookup_lt_Some.
Qed.

Lemma get_frame_frames_left c fr c' :
  get_frame c = Some (fr, c') -> (frames_left c' < frames_left c)%nat.
Proof.
  intros H. pose proof (get_frame_in_range _ _ _ H) as Hr.
  apply get_frame_Some in H as (Hi & _ & Hf & Ht & _).
  unfold frames_left. rewrite Hf, Ht. lia.
Qed.

Lemma get_frame_timestamp c fr c' :
  get_frame c = Some (fr, c') -> timestamps c !!z index fr = Some (timestamp fr).
Proof.
  intros (Hi & Hl & _)%get_frame_Some. rewrite Hi.
  apply zlookup_Some in Hl as [? Hl]. apply zlookup_Some. split; [done|].
  unfold timestamps. by rewrite list_lookup_fmap, Hl.
Qed.

Lemma seek_get_frame c i ts im :
  frames c !!z i = Some (ts, im) ->
  exists c', get_frame (seek_to_frame c i) = Some (mkFrame i ts im, c') /\
             target_frame_idx c' = i + 1 /\ frames c' = frames c.
Proof. intros H. unfold get_frame. simpl. rewrite H. eauto. Qed.

Lemma File_Source_init_missing {G} (g_pool : G) files p :
  files !! p = None -> initialised (File_Source_init g_pool files p) = false.
Proof. intros H. unfold File_Source_init. by rewrite H. Qed.

Lemma File_Source_init_readable {G} (g_pool : G) files p f :
  files !! p = Some f -> vf_readable f = true ->
  File_Source_init g_pool files p
  = mkFileSource true (vf_frame_size f) (vf_frames f) 0 0 false.
Proof. intros H1 H2. unfold File_Source_init. by rewrite H1, H2. Qed.

End frame_source.

Arguments Frame : clear implicits.
Arguments VideoFile : clear implicits.
Arguments File_Source : clear implicits.
