(* ===== verification/Encoder.v ===== *)
(** * The encoder, the output stream and the output container (PyAV)

    [export_processed_h264] writes through PyAV: a reusable [VideoFrame]
    buffer, a video stream whose [encode] takes a frame and gives back a packet
    or nothing, and a container that muxes packets and is closed at the end.
    PyAV is a library the sources only call, so this file states its contract:

    - an [Encoder] is any state type with [enc_encode], [enc_flush] and an
      abstract view [enc_pending] of the frames taken in and not yet given
      back, such that packets come out in the order the frames went in, none
      lost and none invented, and a flush gives nothing only when nothing is
      pending;
    - [delay_encoder d], an encoder that holds back [d] frames, implements
      the contract for every [d] (with [d = 0] every frame is answered at
      once);
    - [encode] takes a snapshot of the frame buffer it is given. *)

From S2P Require Import Prelude.

Local Open Scope Z_scope.

(** [video_stream]: the stream's settings and its codec context. *)
Record Stream (E : Type) : Type := mkStream {
  codec_name : string;
  rate : Q;
  bit_rate : option Q;
  bit_rate_tolerance : option Q;
  thread_count : option Z;
  width : option Z;
  height : option Z;
  codec : E;
}.
Arguments mkStream {E}.
Arguments codec_name {E}.
Arguments rate {E}.
Arguments bit_rate {E}.
Arguments bit_rate_tolerance {E}.
Arguments thread_count {E}.
Arguments width {E}.
Arguments height {E}.
Arguments codec {E}.

Section encoder.
Context {Image : Type}.

(** [av.VideoFrame]: the buffer the pipeline reuses for every frame.  A fresh
    buffer has no picture and no [pts]. *)
Record VideoFrame : Type := mkVideoFrame {
  vfr_width : Z;
  vfr_height : Z;
  vfr_format : string;
  vfr_time_base : option Q;
  planes : option Image;
  pts : option Z;
}.

(** An encoded packet: the picture and the [pts] of the frame it encodes. *)
Record Packet : Type := mkPacket {
  pkt_data : option Image;
  pkt_pts : option Z;
}.

Definition packet_of (f : VideoFrame) : Packet := mkPacket (planes f) (pts f).

(** The codec context behind [video_stream.encode]. *)
Class Encoder (E : Type) : Type := {
  enc_init : E;
  enc_encode : E -> VideoFrame -> E * option Packet;
  enc_flush : E -> E * option Packet;
  enc_pending : E -> list Packet;
  enc_init_pending : enc_pending enc_init = [];
  enc_encode_spec e f :
    option_list (enc_encode e f).2 ++ enc_pending (enc_encode e f).1
    = enc_pending e ++ [packet_of f];
  enc_flush_spec e :
    option_list (enc_flush e).2 ++ enc_pending (enc_flush e).1 = enc_pending e;
  enc_flush_None e : (enc_flush e).2 = None -> enc_pending e = [];
}.

(** An encoder that holds back [de_delay] frames. *)
Record DelayEnc : Type := mkDelayEnc {
  de_delay : nat;
  de_buf : list Packet;
}.

Definition delay_encode (e : DelayEnc) (f : VideoFrame) : DelayEnc * option Packet :=
  match de_buf e ++ [packet_of f] with
  | p :: rest =>
      if bool_decide (de_delay e < length (p :: rest))%nat
      then (mkDelayEnc (de_delay e) rest, Some p)
      else (mkDelayEnc (de_delay e) (p :: rest), None)
  | [] => (e, None)
  end.

Definition delay_flush (e : DelayEnc) : DelayEnc * option Packet :=
  match de_buf e with
  | p :: rest => (mkDelayEnc (de_delay e) rest, Some p)
  | [] => (e, None)
  end.

(** [target_container]: the output file, what was muxed into it and whether
    it was closed. *)
Record Container : Type := mkContainer {
  cont_file : string;
  muxed : list Packet;
  closed : bool;
}.

(** [av.open(file, "w")] *)
Definition av_open (file : string) : Container := mkContainer file [] false.

(** [container.add_stream(codec_name, rate)] *)
Definition add_stream `{Encoder E} (codec_name : string) (rate : Q) : Stream E :=
  mkStream codec_name rate None None None None None enc_init.

(** [video_stream.encode(frame)] *)
Definition stream_encode `{Encoder E} (s : Stream E) (f : VideoFrame)
  : Stream E * option Packet :=
  let r := enc_encode (codec s) f in
  (mkStream (codec_name s) (rate s) (bit_rate s) (bit_rate_tolerance s)
     (thread_count s) (width s) (height s) r.1, r.2).

(** [video_stream.encode()] with no frame: ask for a pending packet. *)
Definition stream_flush `{Encoder E} (s : Stream E) : Stream E * option Packet :=
  let r := enc_flush (codec s) in
  (mkStream (codec_name s) (rate s) (bit_rate s) (bit_rate_tolerance s)
     (thread_count s) (width s) (height s) r.1, r.2).

(** [target_container.mux(packet)] *)
Definition container_mux (c : Container) (p : Packet) : Container :=
  mkContainer (cont_file c) (muxed c ++ [p]) (closed c).

(** [target_container.close()] *)
Definition container_close (c : Container) : Container :=
  mkContainer (cont_file c) (muxed c) true.

(** What the output holds once the pending frames are flushed too: the
    abstract content of a stream and its container. *)
Definition delivered `{Encoder E} (c : Container) (s : Stream E) : list Packet :=
  muxed c ++ enc_pending (codec s).

(** ** [DelayEnc] implements the contract *)

Lemma delay_encode_spec e f :
  option_list (delay_encode e f).2 ++ de_buf (delay_encode e f).1
  = de_buf e ++ [packet_of f].
Proof.
  destruct e as [d buf]. unfold delay_encode. simpl.
  destruct (buf ++ [packet_of f]) as [|p rest] eqn:E.
  - by destruct buf.
  - by case_bool_decide.
Qed.

Lemma delay_flush_spec e :
  option_list (delay_flush e).2 ++ de_buf (delay_flush e).1 = de_buf e.
Proof. destruct e as [d [|p buf]]; by unfold delay_flush. Qed.

Lemma delay_flush_None e : (delay_flush e).2 = None -> de_buf e = [].
Proof. destruct e as [d [|p buf]]; by unfold delay_flush. Qed.

Definition delay_encoder (delay : nat) : Encoder DelayEnc := {|
  enc_init := mkDelayEnc delay [];
  enc_encode := delay_encode;
  enc_flush := delay_flush;
  enc_pending := de_buf;
  enc_init_pending := eq_refl;
  enc_encode_spec := delay_encode_spec;
  enc_flush_spec := delay_flush_spec;
  enc_flush_None := delay_flush_None;
|}.

(** ** Consequences of the contract *)

Section laws.
Context `{Encoder E}.
Implicit Types (s : Stream E) (c : Container) (f : VideoFrame).

Lemma enc_flush_Some e p :
  (enc_flush e).2 = Some p -> enc_pending e = p :: enc_pending (enc_flush e).1.
Proof. intros Hp. by rewrite <- (enc_flush_spec e), Hp. Qed.

Lemma enc_flush_None_pending e :
  (enc_flush e).2 = None -> enc_pending (enc_flush e).1 = [].
Proof.
  intros Hp. pose proof (enc_flush_spec e) as Hs.
  rewrite Hp, (enc_flush_None e Hp) in Hs. done.
Qed.

Lemma enc_flush_length e p :
  (enc_flush e).2 = Some p ->
  length (enc_pending e) = S (length (enc_pending (enc_flush e).1)).
Proof. intros Hp. by rewrite (enc_flush_Some e p Hp). Qed.

(** Encoding a frame and muxing what comes back appends the frame's packet to
    the delivered content, whatever the encoder holds back. *)
Lemma delivered_encode c s f :
  delivered (from_option (container_mux c) c (stream_encode s f).2) (stream_encode s f).1
  = delivered c s ++ [packet_of f].
Proof.
  unfold delivered, stream_encode. simpl.
  rewrite <- app_assoc, <- (enc_encode_spec (codec s) f).
  destruct (enc_encode (codec s) f).2; simpl; [|done].
  by rewrite <- app_assoc.
Qed.

(** Flushing and muxing what comes back leaves the delivered content as it
    is. *)
Lemma delivered_flush c s :
  delivered (from_option (container_mux c) c (stream_flush s).2) (stream_flush s).1
  = delivered c s.
Proof.
  unfold delivered, stream_flush. simpl.
  rewrite <- (enc_flush_spec (codec s)).
  destruct (enc_flush (codec s)).2; simpl; [|done].
  by rewrite <- app_assoc.
Qed.

End laws.

End encoder.

Arguments VideoFrame : clear implicits.
Arguments Packet : clear implicits.
Arguments Container : clear implicits.
Arguments DelayEnc : clear implicits.
Arguments Encoder : clear implicits.
