(* ===== verification/Resolver.v ===== *)
(** * The timestamp index resolver ([player_methods])

    [export_processed_h264] turns the export window into a range of source
    frame indices with two calls, [pm.exact_window] and [pm.find_closest].
    [player_methods] is outside the repository's sources; both functions are
    modelled from the specification (section 4.1): the recording timestamps inside
    the window give the boundary timestamps, and each boundary is mapped to the
    index of the closest source timestamp, a tie going to the earlier index
    for the start and to the later index for the end.  A window that holds no
    recording timestamp, or that does not meet the span of the source, gives
    the empty range [(0, -1)] and never raises. *)

From S2P Require Import Prelude.

Local Open Scope Z_scope.

(** The range that exports nothing: its end is before its start. *)
Definition empty_range : Z * Z := (0, -1).

Definition in_window (w : Q * Q) (t : Q) : bool :=
  Qle_bool w.1 t && Qle_bool t w.2.

(** [pm.exact_window(world_timestamps, export_range)]: the first and the last
    recording timestamp inside the window. *)
Definition exact_window (world_timestamps : list Q) (export_range : Q * Q)
  : option (Q * Q) :=
  match filter (fun t => in_window export_range t = true) world_timestamps with
  | [] => None
  | t :: rest => Some (t, default t (last rest))
  end.

(** One scan for the closest timestamp: [i] is the index of the head of [l],
    [best] the best index so far and [bestd] its distance.  With [later] a
    tie moves to the later index. *)
Fixpoint closest_scan (later : bool) (t : Q) (l : list Q) (i best : Z) (bestd : Q) : Z :=
  match l with
  | [] => best
  | x :: l' =>
      let d := Qabs (x - t) in
      let better := if later then Qle_bool d bestd else negb (Qle_bool bestd d) in
      closest_scan later t l' (i + 1) (if better then i else best)
        (if better then d else bestd)
  end.

Definition closest_index (later : bool) (t : Q) (l : list Q) : Z :=
  match l with
  | [] => 0
  | x :: l' => closest_scan later t l' 1 0 (Qabs (x - t))
  end.

(** [pm.find_closest(capture.timestamps, export_window)] *)
Definition find_closest (source : list Q) (export_window : option (Q * Q)) : Z * Z :=
  match export_window, source with
  | Some (a, b), s0 :: rest =>
      if Qle_bool s0 b && Qle_bool a (default s0 (last rest))
      then (closest_index false a source, closest_index true b source)
      else empty_range
  | _, _ => empty_range
  end.

(** ** Properties *)

Lemma closest_scan_bounds later t l i best bestd :
  0 <= best < i -> 0 <= closest_scan later t l i best bestd < i + Z.of_nat (length l).
Proof.
  revert i best bestd. induction l as [|x l IH]; intros i best bestd Hb; simpl; [lia|].
  match goal with |- context [closest_scan _ _ _ _ ?b ?d] =>
    pose proof (IH (i + 1) b d) as IH' end.
  destruct (if later then _ else _); lia.
Qed.

Lemma closest_index_bounds later t l :
  l <> [] -> 0 <= closest_index later t l < Z.of_nat (length l).
Proof.
  destruct l as [|x l]; [done|]. intros _. unfold closest_index.
  pose proof (closest_scan_bounds later t l 1 0 (Qabs (x - t))). simpl length. lia.
Qed.

(** The resolver gives the empty range or two valid source indices. *)
Lemma find_closest_range source w :
  find_closest source w = empty_range \/
  (0 <= (find_closest source w).1 < Z.of_nat (length source) /\
   0 <= (find_closest source w).2 < Z.of_nat (length source)).
Proof.
  unfold find_closest. destruct w as [[a b]|]; [|by left].
  destruct source as [|s0 rest]; [by left|].
  destruct (_ && _); [right|by left]. cbn [fst snd].
  split; by apply closest_index_bounds.
Qed.

Lemma exact_window_None world w :
  exact_window world w = None <-> Forall (fun t => in_window w t = false) world.
Proof.
  unfold exact_window. rewrite Forall_forall. split.
  - destruct (filter _ world) as [|t rest] eqn:E; [|done]. intros _ t Ht.
    destruct (in_window w t) eqn:Hw; [|done].
    assert (t ∈ filter (fun t => in_window w t = true) world) as Hin
      by (by apply list_elem_of_filter).
    rewrite E in Hin. by apply elem_of_nil in Hin.
  - intros H. destruct (filter _ world) as [|t rest] eqn:E; [done|].
    assert (t ∈ filter (fun t => in_window w t = true) world) as Hin
      by (rewrite E; left).
    apply list_elem_of_filter in Hin as [Ht Hin]. rewrite (H t Hin) in Ht. done.
Qed.

(** The example of the specification (section 8): the window [1.0, 2.0] over
    the source timestamps 0.95, 1.00, 1.50, 2.00, 2.05 resolves to [1, 3]. *)
Example find_closest_example :
  find_closest [0.95; 1.00; 1.50; 2.00; 2.05]%Q
    (exact_window [0.5; 1.0; 1.5; 2.0; 2.5]%Q (1.0, 2.0)%Q) = (1, 3).
Proof. vm_compute. reflexivity. Qed.

(** A window outside the span of the source resolves to the empty range. *)
Example find_closest_outside :
  find_closest [0.95; 1.00; 1.50]%Q
    (exact_window [0.5; 1.0; 1.5; 2.0; 2.5]%Q (2.0, 2.5)%Q) = empty_range.
Proof. vm_compute. reflexivity. Qed.
