(* ===== verification/ResolverProofs.v ===== *)
(** * Correctness of the timestamp index resolver

    [closest_index] returns an index whose timestamp is at minimal distance
    from the target, the earliest such index for the start of a window and
    the latest for its end ([closest]).  It follows that [find_closest]
    never leaves out a source frame whose timestamp lies inside the window,
    when the timestamps of the source never decrease. *)

From S2P Require Import Prelude Resolver.

Local Open Scope Z_scope.

(** The distance of a timestamp from the target. *)
Definition dist (t x : Q) : Q := Qabs (x - t).

(** [r] is the index of a timestamp of [l] closest to [t]; among the indices
    at that distance it is the latest when [later] holds and the earliest
    otherwise. *)
Definition closest (later : bool) (t : Q) (l : list Q) (r : Z) : Prop :=
  exists xr, l !!z r = Some xr /\
    forall j x, l !!z j = Some x ->
      (dist t xr <= dist t x)%Q /\
      ((if later then r < j else j < r) -> (dist t xr < dist t x)%Q).

Lemma zlookup_snoc {A} (l : list A) (x y : A) (j : Z) :
  (l ++ [x]) !!z j = Some y ->
  l !!z j = Some y \/ (j = Z.of_nat (length l) /\ y = x).
Proof.
  intros [Hj Hl]%zlookup_Some. apply lookup_app_Some in Hl as [Hl|[Hlen Hl]].
  - left. by apply zlookup_Some.
  - right. apply list_lookup_singleton_Some in Hl as [Hz ->]. split; [lia|done].
Qed.

Lemma zlookup_snoc_l {A} (l : list A) (x y : A) (j : Z) :
  l !!z j = Some y -> (l ++ [x]) !!z j = Some y.
Proof.
  intros [Hj Hl]%zlookup_Some. apply zlookup_Some. split; [done|].
  by apply lookup_app_l_Some.
Qed.

Lemma zlookup_snoc_r {A} (l : list A) (x : A) :
  (l ++ [x]) !!z Z.of_nat (length l) = Some x.
Proof.
  apply zlookup_Some. split; [lia|]. rewrite Nat2Z.id.
  by rewrite lookup_app_r, Nat.sub_diag.
Qed.

(** The head of the scanned part is better than the best so far. *)
Definition better (later : bool) (d bestd : Q) : bool :=
  if later then Qle_bool d bestd else negb (Qle_bool bestd d).

Lemma better_true later d bestd :
  better later d bestd = true ->
  (d <= bestd)%Q /\ (later = false -> (d < bestd)%Q).
Proof.
  unfold better. destruct later.
  - intros H%Qle_bool_iff. by split.
  - intros H%negb_true_iff. assert (~ (bestd <= d)%Q) as Hn.
    { rewrite <- Qle_bool_iff. by rewrite H. }
    split; [|intros _]; lra.
Qed.

Lemma better_false later d bestd :
  better later d bestd = false ->
  (bestd <= d)%Q /\ (later = true -> (bestd < d)%Q).
Proof.
  unfold better. destruct later.
  - intros H. assert (~ (d <= bestd)%Q) as Hn.
    { rewrite <- Qle_bool_iff. by rewrite H. }
    split; [|intros _]; lra.
  - intros H%negb_false_iff%Qle_bool_iff. by split.
Qed.

(** The invariant of the scan: the best index so far is [closest] in the part
    already scanned. *)
Lemma closest_snoc_better later t pre x best :
  closest later t pre best ->
  better later (dist t x) (default 0%Q (dist t <$> pre !!z best)) = true ->
  closest later t (pre ++ [x]) (Z.of_nat (length pre)).
Proof.
  intros (xb & Hb & Hmin) [Hle Hlt]%better_true. rewrite Hb in Hle, Hlt. simpl in *.
  exists x. split; [apply zlookup_snoc_r|].
  intros j y [Hy|[-> ->]]%zlookup_snoc.
  - destruct (Hmin j y Hy) as [Hjy _]. apply zlookup_lt_Some in Hy.
    split; [lra|]. destruct later; [lia|]. intros _. specialize (Hlt eq_refl). lra.
  - split; [lra|]. destruct later; lia.
Qed.

Lemma closest_snoc_worse later t pre x best :
  closest later t pre best ->
  better later (dist t x) (default 0%Q (dist t <$> pre !!z best)) = false ->
  closest later t (pre ++ [x]) best.
Proof.
  intros (xb & Hb & Hmin) [Hle Hlt]%better_false. rewrite Hb in Hle, Hlt. simpl in *.
  exists xb. split; [by apply zlookup_snoc_l|].
  intros j y [Hy|[-> ->]]%zlookup_snoc; [by apply Hmin|].
  apply zlookup_lt_Some in Hb. split; [done|].
  destruct later; [intros _; by apply Hlt|lia].
Qed.

Lemma closest_scan_cons later t x l i best bestd :
  closest_scan later t (x :: l) i best bestd
  = closest_scan later t l (i + 1)
      (if better later (dist t x) bestd then i else best)
      (if better later (dist t x) bestd then dist t x else bestd).
Proof. done. Qed.

Lemma closest_scan_closest later t l : forall pre best xb,
  pre !!z best = Some xb -> closest later t pre best ->
  closest later t (pre ++ l)
    (closest_scan later t l (Z.of_nat (length pre)) best (dist t xb)).
Proof.
  induction l as [|x l IH]; intros pre best xb Hb Hc.
  { simpl. by rewrite app_nil_r. }
  rewrite closest_scan_cons, cons_middle, app_assoc.
  replace (Z.of_nat (length pre) + 1) with (Z.of_nat (length (pre ++ [x])))
    by (rewrite length_app; simpl; lia).
  destruct (better later (dist t x) (dist t xb)) eqn:Hbt.
  - apply (IH (pre ++ [x]) (Z.of_nat (length pre)) x); [apply zlookup_snoc_r|].
    apply (closest_snoc_better _ _ _ _ best); [done|]. by rewrite Hb.
  - apply (IH (pre ++ [x]) best xb); [by apply zlookup_snoc_l|].
    apply closest_snoc_worse; [done|]. by rewrite Hb.
Qed.

(** [closest_index] is correct on every source that has a frame. *)
Lemma closest_index_closest later t l :
  l <> [] -> closest later t l (closest_index later t l).
Proof.
  destruct l as [|x l]; [done|]. intros _. unfold closest_index.
  apply (closest_scan_closest later t l [x] 0 x); [done|].
  exists x. split; [done|]. intros j y Hy.
  apply zlookup_Some in Hy as [Hj Hy]. apply list_lookup_singleton_Some in Hy as [Hz ->].
  split; [lra|]. destruct later; lia.
Qed.

(** What [find_closest] returns. *)
Lemma find_closest_cases source w :
  find_closest source w = empty_range \/
  exists a b, w = Some (a, b) /\ source <> [] /\
    find_closest source w = (closest_index false a source, closest_index true b source).
Proof.
  unfold find_closest. destruct w as [[a b]|]; [|by left].
  destruct source as [|s0 rest]; [by left|].
  destruct (_ && _); [|by left]. right. by exists a, b.
Qed.

(** In a source whose timestamps never decrease, no index before the
    resolved start has a timestamp at or after the start of the window, and
    no index after the resolved end has a timestamp at or before its end. *)
Lemma closest_start_covers t l j x :
  nondecreasing l -> l <> [] -> l !!z j = Some x -> (t <= x)%Q ->
  closest_index false t l <= j.
Proof.
  intros Hs Hl Hj Hx. destruct (closest_index_closest false t l Hl) as (xr & Hr & Hmin).
  destruct (decide (closest_index false t l <= j)) as [|Hlt]; [done|].
  destruct (Hmin j x Hj) as [_ Hstrict]. specialize (Hstrict ltac:(lia)).
  apply zlookup_Some in Hr as [? Hr]. apply zlookup_Some in Hj as [? Hj].
  assert (x <= xr)%Q as Hxr by (eapply (Hs (Z.to_nat j)); [|done..]; lia).
  unfold dist in Hstrict. rewrite !Qabs_pos in Hstrict by lra. lra.
Qed.

Lemma closest_end_covers t l j x :
  nondecreasing l -> l <> [] -> l !!z j = Some x -> (x <= t)%Q ->
  j <= closest_index true t l.
Proof.
  intros Hs Hl Hj Hx. destruct (closest_index_closest true t l Hl) as (xr & Hr & Hmin).
  destruct (decide (j <= closest_index true t l)) as [|Hlt]; [done|].
  destruct (Hmin j x Hj) as [_ Hstrict]. specialize (Hstrict ltac:(lia)).
  apply zlookup_Some in Hr as [? Hr]. apply zlookup_Some in Hj as [? Hj].
  assert (xr <= x)%Q as Hxr by (eapply (Hs _ (Z.to_nat j)); [|done..]; lia).
  unfold dist in Hstrict. rewrite !Qabs_neg in Hstrict by lra. lra.
Qed.

(** The resolved range holds every frame of the window. *)
Lemma find_closest_covers source a b j x :
  nondecreasing source -> find_closest source (Some (a, b)) <> empty_range ->
  source !!z j = Some x -> (a <= x <= b)%Q ->
  (find_closest source (Some (a, b))).1 <= j <= (find_closest source (Some (a, b))).2.
Proof.
  intros Hs Hne Hj [Ha Hb].
  destruct (find_closest_cases source (Some (a, b)))
    as [He|(a' & b' & [= <- <-] & Hl & ->)]; [done|].
  split; [by eapply closest_start_covers|by eapply closest_end_covers].
Qed.

(** ** The range is ordered *)

(** The boundary timestamps of a window over a recording whose timestamps
    never decrease are in order. *)
Lemma exact_window_ordered world w a b :
  nondecreasing world -> exact_window world w = Some (a, b) -> (a <= b)%Q.
Proof.
  intros Hw%(nondecreasing_filter (fun t => in_window w t = true)).
  unfold exact_window. destruct (filter _ world) as [|t rest]; [done|].
  intros [= <- <-]. by apply nondecreasing_head_last.
Qed.

(** Moving the target to the right never moves the closest timestamp to the
    left: the two strict preferences contradict each other. *)
Lemma dist_crossing a b u v :
  (a <= b)%Q -> (u <= v)%Q -> (dist a v < dist a u)%Q -> (dist b u < dist b v)%Q ->
  False.
Proof.
  unfold dist. intros Hab Huv H1 H2.
  destruct (Qabs_cases (v - a)) as [[? E1]|[? E1]],
    (Qabs_cases (u - a)) as [[? E2]|[? E2]],
    (Qabs_cases (u - b)) as [[? E3]|[? E3]],
    (Qabs_cases (v - b)) as [[? E4]|[? E4]];
    rewrite E1, E2 in H1; rewrite E3, E4 in H2; lra.
Qed.

Lemma closest_index_ordered l a b :
  nondecreasing l -> l <> [] -> (a <= b)%Q ->
  closest_index false a l <= closest_index true b l.
Proof.
  intros Hs Hl Hab.
  destruct (closest_index_closest false a l Hl) as (v & Hv & Hminv).
  destruct (closest_index_closest true b l Hl) as (u & Hu & Hminu).
  destruct (decide (closest_index false a l <= closest_index true b l)) as [|Hlt];
    [done|exfalso].
  destruct (Hminv _ u Hu) as [_ H1]. destruct (Hminu _ v Hv) as [_ H2].
  apply zlookup_Some in Hu as [? Hu]. apply zlookup_Some in Hv as [? Hv].
  apply (dist_crossing a b u v); [done| |apply H1; lia|apply H2; lia].
  eapply Hs; [|exact Hu|exact Hv]. lia.
Qed.

(** The resolved range is empty or an ordered pair of indices of the
    source. *)
Lemma find_closest_ordered source a b :
  nondecreasing source -> (a <= b)%Q ->
  find_closest source (Some (a, b)) = empty_range \/
  0 <= (find_closest source (Some (a, b))).1 <= (find_closest source (Some (a, b))).2
  /\ (find_closest source (Some (a, b))).2 < Z.of_nat (length source).
Proof.
  intros Hs Hab.
  destruct (find_closest_cases source (Some (a, b)))
    as [He|(a' & b' & [= <- <-] & Hl & Hf)]; [by left|right].
  rewrite Hf. cbn [fst snd].
  pose proof (closest_index_bounds false a source Hl).
  pose proof (closest_index_bounds true b source Hl).
  pose proof (closest_index_ordered source a b Hs Hl Hab). lia.
Qed.
