(* ===== verification/Pipeline.v ===== *)
(** * The re-encode pipeline: [export_processed_h264]

    The generator of [video_exporter.py] (lines 38-110) as a state machine.
    [GenState] has one constructor per suspension point (the four [yield]s),
    one for the generator that was not started, one for the generator that
    returned (with the local variables it had, so that the output can be
    read) and one for the generator that died of an exception; [resume] is
    one [next()] call: it runs the code between
    two suspension points and gives the event that was yielded.  The frame loop
    is [loop_iter] (one iteration) under [run_loop]; the flush loop is
    [flush_loop].  Both take fuel, and [loop_fuel] and [flush_fuel] compute
    fuel that is always enough (theorems of [PipelineLoop] and [PipelineGen]).

    Timestamps are the rationals the floats of the program stand for, and
    the float operations of line 87 are exact operations followed by the
    rounding of the machine ([Rounding]); the pipeline is defined for every
    such arithmetic. *)

From stdpp Require Import gmap.
From S2P Require Import Prelude Rounding FrameSource Encoder Resolver.

Local Open Scope Z_scope.

(** [class Empty] (lines 34-35): an object without attributes, given to
    [File_Source] in the place of the host's [g_pool]. *)
Record Empty : Type := Empty_new {}.

(** A progress event: the status message and the percentage. *)
Definition Event : Type := string * Q.

(** ** Constants and arithmetic of the pipeline *)

(** [update_rate = 10] *)
Definition update_rate : Z := 10.

(** [time_base = Fraction(1, 65535)] *)
Definition time_base : Q := 1 # 65535.

(** [1 / time_base], the rate of the output stream *)
Definition stream_rate : Q := (1 / time_base)%Q.

(** [max(1, mp.cpu_count() - 1)] *)
Definition encoder_threads (cpu_count : Z) : Z := Z.max 1 (cpu_count - 1).

(** The presentation timestamp the specification asks for (section 4.3,
    step 5): the time since the first frame in units of the time base,
    truncated.  It is what line 87 gives in exact arithmetic. *)
Definition frame_pts (timestamp start_time : Q) : Z :=
  Qtrunc ((timestamp - start_time) / time_base)%Q.

(** Line 87: [int((frame.timestamp - start_time) / time_base)] in the
    arithmetic of the machine.  The subtraction and the division are float
    operations and [time_base], a [Fraction], is converted to a float
    before the division: each of the three is rounded. *)
Definition frame_pts_rnd {rnd : Rounding} (timestamp start_time : Q) : Z :=
  Qtrunc (fl (fl (timestamp - start_time) / fl time_base)).

(** The progress fraction of lines 94-97; dividing two integers raises
    [ZeroDivisionError] when the divisor is zero. *)
Definition progress (current_frame_idx export_from_index export_to_index : Z)
  : result Q :=
  if export_to_index - export_from_index =? 0 then Raise ZeroDivisionError
  else Ok ((inject_Z (current_frame_idx - export_from_index)
            / inject_Z (export_to_index - export_from_index)) * 0.9 + 0.1)%Q.

(** ** The events the generator yields *)

Definition ev_converting : Event := ("Converting video"%string, 0.1%Q).
Definition ev_failed : Event := ("Converting scene video failed"%string, 0%Q).
Definition ev_progress (p : Q) : Event := ("Converting video"%string, (p * 100)%Q).
Definition ev_completed : Event := ("Converting video completed"%string, (1 * 100)%Q).

Section pipeline.
Context {Image : Type} `{Encoder Image E} {rnd : Rounding}.

(** The generator's arguments. *)
Record Args : Type := mkArgs {
  world_timestamps : list Q;
  unprocessed_video_loc : string;
  target_video_loc : string;
  export_range : Q * Q;
  process_frame : File_Source Image -> Frame Image -> Image;
}.

(** What the generator reads from its environment: the video files and the
    number of CPUs. *)
Record Env : Type := mkEnv {
  env_files : gmap string (VideoFile Image);
  env_cpu_count : Z;
}.

(** The generator's local variables once the set-up is done, and the lines
    it has written to the standard output (each line as the tuple that was
    printed). *)
Record Locals : Type := mkLocals {
  capture : File_Source Image;
  export_from_index : Z;
  export_to_index : Z;
  start_time : option Q;
  target_container : Container Image;
  video_stream : Stream E;
  av_frame : VideoFrame Image;
  next_update_idx : Z;
  stdout : list ((Q * Q) * Z * Z);
}.

(** The generator between two [next()] calls. *)
Inductive GenState : Type :=
| GStart
| GConverting
| GFailed (c : File_Source Image)
| GProgress (l : Locals)
| GCompleted (l : Locals)
| GReturned (l : option Locals)
| GDead (e : exn) (l : Locals).

(** What one [next()] call gives. *)
Inductive Outcome : Type :=
| Yielded (ev : Event) (g : GenState)
| Stopped (g : GenState)
| Raised (e : exn) (g : GenState)
| OutOfFuel.

(** What one iteration of the frame loop does. *)
Inductive LoopStep : Type :=
| LBreak (l : Locals)
| LContinue (l : Locals)
| LYield (ev : Event) (l : Locals)
| LRaise (e : exn) (l : Locals)
| LFuel.

Context (env : Env) (args : Args).

(** Line 46: [capture = File_Source(Empty(), unprocessed_video_loc)] *)
Definition open_capture : File_Source Image :=
  File_Source_init Empty_new (env_files env) (unprocessed_video_loc args).

(** Lines 61-66: the output stream and its settings. *)
Definition configure_stream (c : File_Source Image) : Stream E :=
  let s : Stream E := add_stream "mpeg4" stream_rate in
  mkStream (codec_name s) (rate s) (Some 150e6%Q) (Some (150e6 / 20)%Q)
    (Some (encoder_threads (env_cpu_count env)))
    (Some (frame_size c).1) (Some (frame_size c).2) (codec s).

(** Lines 68-69: the reusable frame buffer. *)
Definition new_av_frame (c : File_Source Image) : VideoFrame Image :=
  mkVideoFrame (frame_size c).1 (frame_size c).2 "bgr24" (Some time_base) None None.

(** Lines 51-54: the range of source frame indices to export. *)
Definition resolve_range (c : File_Source Image) : Z * Z :=
  let export_window := exact_window (world_timestamps args) (export_range args) in
  find_closest (timestamps c) export_window.

(** Lines 51-72: everything between the check of [capture.initialised] and
    the frame loop; line 55 prints the window and the resolved range. *)
Definition setup (c : File_Source Image) : Locals :=
  let r := resolve_range c in
  mkLocals (seek_to_frame c r.1) r.1 r.2 None
    (av_open (target_video_loc args)) (configure_stream c) (new_av_frame c)
    (r.1 + update_rate) [(export_range args, r.1, r.2)].

(** Lines 82-87: fix the time origin at the first frame, transform the frame
    and write picture and [pts] into the frame buffer. *)
Definition store_frame (l : Locals) (c : File_Source Image) (frame : Frame Image)
  : Locals :=
  let start := default (timestamp frame) (start_time l) in
  let undistorted_img := process_frame args c frame in
  let av := av_frame l in
  mkLocals c (export_from_index l) (export_to_index l) (Some start)
    (target_container l) (video_stream l)
    (mkVideoFrame (vfr_width av) (vfr_height av) (vfr_format av) (vfr_time_base av)
       (Some undistorted_img) (Some (frame_pts_rnd (timestamp frame) start)))
    (next_update_idx l) (stdout l).

(** Lines 89-91: encode the frame buffer and mux the packet, if one came. *)
Definition encode_and_mux (l : Locals) : Locals :=
  let r := stream_encode (video_stream l) (av_frame l) in
  mkLocals (capture l) (export_from_index l) (export_to_index l) (start_time l)
    (from_option (container_mux (target_container l)) (target_container l) r.2)
    r.1 (av_frame l) (next_update_idx l) (stdout l).

(** Lines 93-98: yield a progress event when the update index is reached. *)
Definition report_progress (l : Locals) : LoopStep :=
  if bool_decide (next_update_idx l <= current_frame_idx (capture l)) then
    match progress (current_frame_idx (capture l))
            (export_from_index l) (export_to_index l) with
    | Ok p => LYield (ev_progress p) l
    | Raise e => LRaise e l
    end
  else LContinue l.

(** The local variables after [capture.get_frame()] moved the source. *)
Definition set_capture (l : Locals) (c : File_Source Image) : Locals :=
  mkLocals c (export_from_index l) (export_to_index l) (start_time l)
    (target_container l) (video_stream l) (av_frame l) (next_update_idx l)
    (stdout l).

(** Lines 74-98: one iteration of the frame loop. *)
Definition loop_iter (l : Locals) : LoopStep :=
  match get_frame (capture l) with
  | None => LBreak l
  | Some (frame, c) =>
      if bool_decide (export_to_index l < index frame)
      then LBreak (set_capture l c)
      else report_progress (encode_and_mux (store_frame l c frame))
  end.

(** Lines 73-99: the frame loop, up to the next [yield] or its end. *)
Fixpoint run_loop (fuel : nat) (l : Locals) : LoopStep :=
  match fuel with
  | O => LFuel
  | S n =>
      match loop_iter l with
      | LContinue l' => run_loop n l'
      | r => r
      end
  end.

Definition loop_fuel (l : Locals) : nat := S (frames_left (capture l)).

(** Line 99, run when the generator is resumed after a progress event. *)
Definition bump_update_idx (l : Locals) : Locals :=
  mkLocals (capture l) (export_from_index l) (export_to_index l) (start_time l)
    (target_container l) (video_stream l) (av_frame l)
    (next_update_idx l + update_rate) (stdout l).

(** Lines 101-106: ask the encoder for packets until it has none. *)
Fixpoint flush_loop (fuel : nat) (s : Stream E) (c : Container Image)
  : Stream E * Container Image :=
  match fuel with
  | O => (s, c)
  | S n =>
      let r := stream_flush s in
      match r.2 with
      | Some p => flush_loop n r.1 (container_mux c p)
      | None => (r.1, c)
      end
  end.

Definition flush_fuel (s : Stream E) : nat := S (length (enc_pending (codec s))).

(** Lines 101-109: flush, close the container, release the source. *)
Definition finish (l : Locals) : Locals :=
  let r := flush_loop (flush_fuel (video_stream l)) (video_stream l) (target_container l) in
  mkLocals (capture_cleanup (capture l)) (export_from_index l) (export_to_index l)
    (start_time l) (container_close r.2) r.1 (av_frame l) (next_update_idx l)
    (stdout l).

(** The frame loop from [l] to the next suspension point. *)
Definition continue_loop (l : Locals) : Outcome :=
  match run_loop (loop_fuel l) l with
  | LBreak l' => Yielded ev_completed (GCompleted (finish l'))
  | LYield ev l' => Yielded ev (GProgress l')
  | LRaise e l' => Raised e (GDead e l')
  | LContinue _ | LFuel => OutOfFuel
  end.

(** One [next()] on the generator. *)
Definition resume (g : GenState) : Outcome :=
  match g with
  | GStart => Yielded ev_converting GConverting
  | GConverting =>
      let c := open_capture in
      if initialised c then continue_loop (setup c)
      else Yielded ev_failed (GFailed c)
  | GFailed _ => Stopped (GReturned None)
  | GProgress l => continue_loop (bump_update_idx l)
  | GCompleted l => Stopped (GReturned (Some l))
  | GReturned l => Stopped (GReturned l)
  | GDead e l => Stopped (GDead e l)
  end.

(** The outcome of running a generator to its end. *)
Record Run : Type := mkRun {
  run_events : list Event;
  run_final : GenState;
  run_error : option exn;
  run_complete : bool;
}.

(** [n] calls of [next()], collecting the events: what a consumer that
    exhausts the generator sees. *)
Fixpoint drain (n : nat) (g : GenState) : Run :=
  match n with
  | O => mkRun [] g None false
  | S n =>
      match resume g with
      | Yielded ev g' =>
          let r := drain n g' in
          mkRun (ev :: run_events r) (run_final r) (run_error r) (run_complete r)
      | Stopped g' => mkRun [] g' None true
      | Raised e g' => mkRun [] g' (Some e) true
      | OutOfFuel => mkRun [] g None false
      end
  end.

(** Calls of [next()] that exhaust the generator: one per progress event, at
    most one event per frame of the source, and the three fixed events. *)
Definition drain_fuel : nat := length (frames open_capture) + 4.

(** [export_processed_h264(...)] run to its end. *)
Definition export_processed_h264 : Run := drain drain_fuel GStart.

End pipeline.

Arguments Args : clear implicits.
Arguments Env : clear implicits.
Arguments Locals : clear implicits.
Arguments GenState : clear implicits.
Arguments Outcome : clear implicits.
Arguments LoopStep : clear implicits.
Arguments Run : clear implicits.
