(* ===== verification/Sample.v ===== *)
(** * Sample recordings

    Concrete videos, environments and arguments on which the theorems of the
    development are applied.  Images are numbers; the transform adds 100 to
    the picture; the encoder holds back two frames. *)

From stdpp Require Import gmap.
From S2P Require Import Prelude FrameSource Encoder Resolver Pipeline.

Local Open Scope Z_scope.

(** The timestamp of sample frame [i]: one frame every tenth of a second,
    the recording starting at second 5. *)
Definition sample_ts (i : nat) : Q := (inject_Z (Z.of_nat i) / 10 + 5)%Q.

(** A readable video of [n] frames; frame [i] shows the picture [i]. *)
Definition sample_video (n : nat) : VideoFile nat :=
  mkVideoFile true (640, 480) ((fun i => (sample_ts i, i)) <$> seq 0 n).

Definition sample_env (n : nat) : Env nat :=
  mkEnv {[ "world.mp4"%string := sample_video n ]} 4.

Definition sample_transform (c : File_Source nat) (f : Frame nat) : nat :=
  (img f + 100)%nat.

(** A window [a, b] over a recording of 40 samples. *)
Definition sample_args (a b : Q) : Args nat :=
  mkArgs (sample_ts <$> seq 0 40) "world.mp4" "scene.mp4" (a, b) sample_transform.

(** The job the theorems are applied to: a source of 30 frames and the
    window [5.2, 7.6] seconds, which resolves to the frames 2 to 26. *)
Definition demo_env : Env nat := sample_env 30.
Definition demo_args : Args nat := sample_args 5.2 7.6.

(** Arguments that name a video that does not exist. *)
Definition missing_args : Args nat :=
  mkArgs (sample_ts <$> seq 0 40) "eye0.mp4" "scene.mp4" (5, 6)%Q sample_transform.

#[export] Instance sample_encoder : Encoder nat (DelayEnc nat) := delay_encoder 2.
