(* ===== verification/PipelineSpec.v ===== *)
(** * What the pipeline promises: a specification without loops or state

    The abstract specification of [export_processed_h264] for a source that
    opens: which frames are exported ([export_indices]), which packet each
    gives ([spec_packet]), the content of the output ([spec_packets]), at
    which frames progress is reported ([update_indices]) and the events in
    the order they are yielded ([spec_events]).  [PipelineRefine] proves that
    the generator of [Pipeline] implements it; the theorems of this file are
    properties of the specification alone. *)

From S2P Require Import Prelude Rounding FrameSource Encoder Resolver Pipeline.

Local Open Scope Z_scope.

(** The progress fraction as a number, where the division is defined. *)
Definition progress_value (cur from to : Z) : Q :=
  (inject_Z (cur - from) / inject_Z (to - from) * 0.9 + 0.1)%Q.

Lemma progress_value_bounds cur from to :
  from < cur <= to -> (0.1 < progress_value cur from to <= 1)%Q.
Proof.
  intros Hc. unfold progress_value.
  destruct (Qdiv_unit_interval (cur - from) (to - from)) as [H0 H1]; [lia|].
  split; lra.
Qed.

Lemma progress_value_mono cur cur' from to :
  from < to -> cur <= cur' ->
  (progress_value cur from to <= progress_value cur' from to)%Q.
Proof.
  intros Ht Hc. unfold progress_value.
  pose proof (Qdiv_le_mono (cur - from) (cur' - from) (to - from)
    ltac:(lia) ltac:(lia)). lra.
Qed.

(** ** Presentation timestamps *)

Lemma time_base_pos : (0 < time_base)%Q.
Proof. done. Qed.

Lemma ticks_per_second q : (q / time_base == q * 65535)%Q.
Proof. unfold time_base. field. Qed.

Section pts.
Context {rnd : Rounding}.
Implicit Types (e t start : Q).

Lemma fl_time_base_pos : (0 < fl time_base)%Q.
Proof. apply fl_pos, time_base_pos. Qed.

(** Three roundings move a quotient by at most four relative errors. *)
Lemma fl_quotient_close e :
  (0 <= e)%Q ->
  ((1 - 4 * unit_roundoff) * (e / time_base)
   <= fl (fl e / fl time_base)
   <= (1 + 4 * unit_roundoff) * (e / time_base))%Q.
Proof.
  intros He. pose proof unit_roundoff_small as Hu.
  pose proof (fl_close e He) as Hx.
  pose proof (fl_close time_base ltac:(done)) as Ht.
  assert (0 < fl time_base)%Q as Htpos by (unfold time_base in *; nra).
  assert (0 <= fl e / fl time_base)%Q as Hy
    by (apply Qle_shift_div_l; [done|nra]).
  pose proof (fl_close _ Hy) as Hq.
  assert (fl e / fl time_base * fl time_base == fl e)%Q as Hdiv
    by (field; lra).
  assert (e / time_base == 65535 * e)%Q as -> by (unfold time_base; field).
  unfold time_base in *. set (y := (fl e / fl (1 # 65535))%Q) in *.
  set (t := fl (1 # 65535)) in *. set (x := fl e) in *.
  set (u := unit_roundoff) in *. split; nra.
Qed.

Lemma fl_quotient_nonneg e : (0 <= e)%Q -> (0 <= fl (fl e / fl time_base))%Q.
Proof.
  intros He. apply fl_nonneg, Qle_shift_div_l; [apply fl_time_base_pos|].
  pose proof (fl_nonneg e He). lra.
Qed.

(** The first frame gets the timestamp 0 whatever the rounding. *)
Lemma frame_pts_rnd_origin t : frame_pts_rnd t t = 0.
Proof.
  unfold frame_pts_rnd. apply Qtrunc_zero, fl_zero.
  rewrite (fl_zero (t - t)) by ring. unfold Qdiv. ring.
Qed.

Lemma frame_pts_rnd_nonneg start t :
  (start <= t)%Q -> 0 <= frame_pts_rnd t start.
Proof. intros Hs. apply Qtrunc_nonneg, fl_quotient_nonneg. lra. Qed.

(** A monotone rounding keeps the order of the frames. *)
Lemma frame_pts_rnd_mono `{!RoundingMono} start t t' :
  (start <= t)%Q -> (t <= t')%Q ->
  0 <= frame_pts_rnd t start <= frame_pts_rnd t' start.
Proof.
  intros Hs Ht. split; [by apply frame_pts_rnd_nonneg|]. unfold frame_pts_rnd.
  apply Qtrunc_mono_nonneg; [apply fl_quotient_nonneg; lra|].
  pose proof fl_time_base_pos as Hb.
  pose proof (fl_nonneg (t - start) ltac:(lra)) as H0.
  pose proof (fl_mono (t - start) (t' - start) ltac:(lra) ltac:(lra)) as Hm.
  apply fl_mono; [apply Qle_shift_div_l; [done|lra]|].
  apply Qmult_le_compat_r; [done|]. by apply Qlt_le_weak, Qinv_lt_0_compat.
Qed.

(** The rounded timestamp is at most one tick from the exact one, for a
    frame whose distance from the first, in ticks, is below a quarter of
    the inverse of the unit roundoff. *)
Lemma frame_pts_rnd_near start t :
  (start <= t)%Q ->
  (4 * unit_roundoff * ((t - start) / time_base) < 1)%Q ->
  frame_pts t start - 1 <= frame_pts_rnd t start <= frame_pts t start + 1.
Proof.
  intros Hts Hsmall. pose proof unit_roundoff_small as Hu.
  assert (0 <= t - start)%Q as He by lra.
  pose proof (fl_quotient_close _ He) as Hq.
  assert (0 <= (t - start) / time_base)%Q as HE
    by (apply Qle_shift_div_l; [done|lra]).
  unfold frame_pts, frame_pts_rnd. apply Qtrunc_close; [done|nra|nra].
Qed.

(** Frames at least three ticks apart get different timestamps. *)
Lemma frame_pts_rnd_strict start t t' :
  (start <= t)%Q -> (t + 3 * time_base <= t')%Q ->
  (4 * unit_roundoff * ((t' - start) / time_base) < 1)%Q ->
  frame_pts_rnd t start < frame_pts_rnd t' start.
Proof.
  intros Hs Ht Hsmall. pose proof unit_roundoff_small as Hu.
  pose proof (fl_quotient_close (t - start) ltac:(lra)) as Hq.
  pose proof (fl_quotient_close (t' - start) ltac:(unfold time_base in *; lra)) as Hq'.
  rewrite ticks_per_second in *. unfold frame_pts_rnd.
  apply Qtrunc_lt; [apply fl_quotient_nonneg; lra|].
  unfold time_base in *. set (u := unit_roundoff) in *.
  set (x := fl (fl (t - start) / fl (1 # 65535))) in *.
  set (x' := fl (fl (t' - start) / fl (1 # 65535))) in *. nra.
Qed.

(** A frame at most half a tick after the origin gets the timestamp 0. *)
Lemma frame_pts_rnd_first_tick start t :
  (start <= t <= start + time_base / 2)%Q -> frame_pts_rnd t start = 0.
Proof.
  intros Ht. pose proof unit_roundoff_small as Hu.
  pose proof (fl_quotient_close (t - start) ltac:(lra)) as Hq.
  rewrite ticks_per_second in Hq. unfold frame_pts_rnd.
  apply Qtrunc_small. split; [apply fl_quotient_nonneg; lra|].
  unfold time_base in *. set (u := unit_roundoff) in *.
  set (x := fl (fl (t - start) / fl (1 # 65535))) in *.
  assert (time_base_half : (1 # 65535) / 2 == 1 # 131070) by reflexivity.
  rewrite time_base_half in Ht. nra.
Qed.

End pts.

Section spec.
Context {Image : Type} {rnd : Rounding}.
Context (transform : File_Source Image -> Frame Image -> Image).
Implicit Types (c : File_Source Image) (i k from to : Z).

(** The last frame index that is exported: the end of the range, or the last
    frame of the source when the range goes past it. *)
Definition last_index c to : Z := Z.min to (Z.of_nat (length (frames c)) - 1).

(** The frame with index [i], as [get_frame] returns it. *)
Definition frame_at c i : option (Frame Image) :=
  (fun p => mkFrame i p.1 p.2) <$> frames c !!z i.

(** The adapter right after it returned the frame with index [i]: what the
    transform is called with. *)
Definition capture_at c i : File_Source Image :=
  mkFileSource (initialised c) (frame_size c) (frames c) (i + 1) i (released c).

(** The indices of the exported frames, in order. *)
Definition export_indices c from to : list Z :=
  if bool_decide (0 <= from) then seqZ from (last_index c to - from + 1) else [].

(** The packet of frame [i] when the time origin is [start]. *)
Definition spec_packet c (start : Q) i : option (Packet Image) :=
  (fun fr => mkPacket (Some (transform (capture_at c i) fr))
                      (Some (frame_pts_rnd (timestamp fr) start)))
  <$> frame_at c i.

(** The packets of the frames [from, k), the time origin being the timestamp
    of frame [from]. *)
Definition packets_upto c from k : list (Packet Image) :=
  match frame_at c from with
  | Some f0 => omap (spec_packet c (timestamp f0)) (seqZ from (k - from))
  | None => []
  end.

(** The content of the output. *)
Definition spec_packets c from to : list (Packet Image) :=
  packets_upto c from (last_index c to + 1).

(** [n] update indices after [m], [update_rate] apart. *)
Definition updates_after (n : nat) (m : Z) : list Z :=
  (fun j => m + update_rate * j) <$> seqZ 1 (Z.of_nat n).

(** The frames after which a progress event is yielded. *)
Definition update_indices c from to : list Z :=
  if bool_decide (0 <= from)
  then updates_after (Z.to_nat ((last_index c to - from) / update_rate)) from
  else [].

Definition progress_event from to i : Event :=
  ev_progress (progress_value i from to).

(** The events of a job whose source opens. *)
Definition spec_events c from to : list Event :=
  ev_converting :: (progress_event from to <$> update_indices c from to)
  ++ [ev_completed].

(** ** Frames and indices *)

Lemma frame_at_Some c i fr :
  frame_at c i = Some fr <->
  index fr = i /\ frames c !!z i = Some (timestamp fr, img fr).
Proof.
  unfold frame_at. destruct (frames c !!z i) as [[ts im]|]; simpl; split.
  - intros [= <-]. done.
  - intros [Hi [= -> ->]]. destruct fr; simpl in *. by subst.
  - done.
  - by intros [_ ?].
Qed.

Lemma frame_at_is_Some c i :
  0 <= i < Z.of_nat (length (frames c)) -> is_Some (frame_at c i).
Proof.
  intros Hi. destruct (zlookup_lt_is_Some (frames c) i Hi) as [p Hp].
  unfold frame_at. rewrite Hp. by eexists.
Qed.

Lemma frame_at_None c i :
  i < 0 \/ Z.of_nat (length (frames c)) <= i -> frame_at c i = None.
Proof.
  intros Hi. unfold frame_at.
  destruct Hi; [rewrite zlookup_neg|rewrite zlookup_ge_None]; done.
Qed.

Lemma frame_at_index c i fr : frame_at c i = Some fr -> index fr = i.
Proof. by intros [? _]%frame_at_Some. Qed.

Lemma spec_packet_is_Some c start i :
  0 <= i < Z.of_nat (length (frames c)) -> is_Some (spec_packet c start i).
Proof.
  intros [fr Hfr]%frame_at_is_Some. unfold spec_packet. rewrite Hfr. by eexists.
Qed.

(** [get_frame] returns [frame_at] and leaves the adapter at [capture_at]. *)
Lemma get_frame_frame_at c fr c' :
  get_frame c = Some (fr, c') ->
  frame_at c (target_frame_idx c) = Some fr /\
  c' = capture_at c (target_frame_idx c).
Proof.
  unfold get_frame, frame_at, capture_at.
  destruct (frames c !!z target_frame_idx c) as [[ts im]|]; [|done].
  by intros [= <- <-].
Qed.

Lemma get_frame_at c i fr :
  target_frame_idx c = i -> frame_at c i = Some fr ->
  get_frame c = Some (fr, capture_at c i).
Proof.
  intros <- [Hi Hl]%frame_at_Some. unfold get_frame, capture_at. rewrite Hl.
  destruct fr; simpl in *. by subst.
Qed.

Lemma last_index_lt_length c to : last_index c to < Z.of_nat (length (frames c)).
Proof. unfold last_index. lia. Qed.

Lemma last_index_le c to : last_index c to <= to.
Proof. unfold last_index. lia. Qed.

(** ** The packets *)

Lemma packets_upto_start c from k : k <= from -> packets_upto c from k = [].
Proof.
  intros Hk. unfold packets_upto. destruct (frame_at c from); [|done].
  by rewrite seqZ_nil by lia.
Qed.

Lemma packets_upto_no_origin c from k :
  frame_at c from = None -> packets_upto c from k = [].
Proof. intros Hf. unfold packets_upto. by rewrite Hf. Qed.

Lemma packets_upto_snoc c from k f0 p :
  from <= k -> frame_at c from = Some f0 ->
  spec_packet c (timestamp f0) k = Some p ->
  packets_upto c from (k + 1) = packets_upto c from k ++ [p].
Proof.
  intros Hk Hf0 Hp. unfold packets_upto. rewrite Hf0.
  replace (k + 1 - from) with (k - from + 1) by lia.
  rewrite seqZ_snoc by lia. rewrite omap_app. simpl.
  replace (from + (k - from)) with k by lia. by rewrite Hp.
Qed.

Lemma packets_upto_length c from k :
  0 <= from <= k -> k <= Z.of_nat (length (frames c)) ->
  length (packets_upto c from k) = Z.to_nat (k - from).
Proof.
  intros Hf Hk. destruct (decide (from = k)) as [->|Hne].
  { rewrite packets_upto_start by lia. simpl. lia. }
  unfold packets_upto.
  destruct (frame_at_is_Some c from) as [f0 ->]; [lia|].
  rewrite <- (length_seqZ from (k - from)). apply length_omap_total.
  apply Forall_forall. intros i Hi%elem_of_seqZ. apply spec_packet_is_Some. lia.
Qed.

(** The number of packets: one per frame from the range start to the last
    exported frame. *)
Lemma spec_packets_length c from to :
  0 <= from ->
  length (spec_packets c from to) = Z.to_nat (last_index c to - from + 1).
Proof.
  intros Hf. unfold spec_packets. pose proof (last_index_lt_length c to).
  destruct (decide (from <= last_index c to + 1)).
  - rewrite packets_upto_length by lia. f_equal. lia.
  - rewrite packets_upto_start by lia. simpl. lia.
Qed.

(** The first packet is the transformed first frame, at time 0. *)
Lemma spec_packets_head c from to :
  0 <= from <= last_index c to ->
  exists f0 ps,
    frame_at c from = Some f0 /\
    spec_packets c from to
    = mkPacket (Some (transform (capture_at c from) f0)) (Some 0) :: ps.
Proof.
  intros Hf. pose proof (last_index_lt_length c to).
  destruct (frame_at_is_Some c from) as [f0 Hf0]; [lia|].
  unfold spec_packets, packets_upto. rewrite Hf0, seqZ_cons by lia. cbn.
  unfold spec_packet. rewrite Hf0. cbn. rewrite frame_pts_rnd_origin. by eauto.
Qed.

(** Every packet carries a picture and a presentation timestamp. *)
Lemma spec_packets_filled c from to :
  Forall (fun p => is_Some (pkt_data p) /\ is_Some (pkt_pts p))
    (spec_packets c from to).
Proof.
  unfold spec_packets, packets_upto. destruct (frame_at c from) as [f0|]; [|done].
  apply Forall_forall. intros p (i & _ & Hp)%list_elem_of_omap.
  unfold spec_packet in Hp. destruct (frame_at c i); simplify_eq/=. by split; eexists.
Qed.

Lemma spec_packets_empty c : spec_packets c 0 (-1) = [].
Proof.
  unfold spec_packets, packets_upto, last_index.
  replace (Z.min (-1) _ + 1 - 0) with 0 by lia. by destruct (frame_at c 0).
Qed.

(** The packet at position [n] of the output is the packet of frame
    [from + n], timed from the frame [from]. *)
Lemma spec_packets_lookup c from to (n : nat) p :
  spec_packets c from to !! n = Some p ->
  exists f0 fr,
    frame_at c from = Some f0 /\ frame_at c (from + Z.of_nat n) = Some fr /\
    p = mkPacket (Some (transform (capture_at c (from + Z.of_nat n)) fr))
          (Some (frame_pts_rnd (timestamp fr) (timestamp f0))).
Proof.
  unfold spec_packets, packets_upto.
  destruct (frame_at c from) as [f0|] eqn:Hf0; [|done].
  apply frame_at_Some in Hf0 as Hfrom. destruct Hfrom as [_ Hfrom%zlookup_lt_Some].
  intros Hp. apply omap_total_lookup in Hp as (i & Hi & Hp).
  - apply lookup_seqZ in Hi as [-> Hn]. unfold spec_packet in Hp.
    destruct (frame_at c (from + Z.of_nat n)) as [fr|] eqn:Hfr; [|done].
    simplify_eq/=. eauto.
  - apply Forall_forall. intros i Hi%elem_of_seqZ. apply spec_packet_is_Some.
    pose proof (last_index_lt_length c to). lia.
Qed.

(** Conversely, every frame of the range is in the output, at the position
    of its index in the range. *)
Lemma spec_packets_frame c from to j f0 fr :
  from <= j <= to -> frame_at c from = Some f0 -> frame_at c j = Some fr ->
  spec_packets c from to !! Z.to_nat (j - from)
  = Some (mkPacket (Some (transform (capture_at c j) fr))
            (Some (frame_pts_rnd (timestamp fr) (timestamp f0)))).
Proof.
  intros Hj Hf0 Hfr. unfold spec_packets, packets_upto. rewrite Hf0.
  apply frame_at_Some in Hf0 as [_ Hfrom%zlookup_lt_Some].
  apply frame_at_Some in Hfr as Hjl. destruct Hjl as [_ Hjl%zlookup_lt_Some].
  apply (omap_total_lookup_2 _ _ _ j).
  - apply Forall_forall. intros i Hi%elem_of_seqZ. apply spec_packet_is_Some.
    pose proof (last_index_lt_length c to). lia.
  - apply lookup_seqZ. unfold last_index. split; lia.
  - unfold spec_packet. by rewrite Hfr.
Qed.

(** The timestamp of a frame is the entry of [timestamps] at its index. *)
Lemma frame_at_timestamp c i fr :
  frame_at c i = Some fr -> timestamps c !! Z.to_nat i = Some (timestamp fr).
Proof.
  intros [_ [_ Hl]%zlookup_Some]%frame_at_Some.
  unfold timestamps. by rewrite list_lookup_fmap, Hl.
Qed.

(** With timestamps that never decrease the presentation timestamps never
    decrease, and none is negative. *)
Lemma spec_packets_pts_mono `{!RoundingMono} c from to (i j : nat) p q :
  nondecreasing (timestamps c) -> (i <= j)%nat ->
  spec_packets c from to !! i = Some p -> spec_packets c from to !! j = Some q ->
  exists a b, pkt_pts p = Some a /\ pkt_pts q = Some b /\ 0 <= a <= b.
Proof.
  intros Hts Hij (f0 & fi & Hf0 & Hfi & ->)%spec_packets_lookup
    (f0' & fj & Hf0' & Hfj & ->)%spec_packets_lookup.
  rewrite Hf0 in Hf0'. injection Hf0' as <-.
  apply frame_at_Some in Hf0 as Hfrom. destruct Hfrom as [_ Hfrom%zlookup_lt_Some].
  apply frame_at_timestamp in Hf0, Hfi, Hfj.
  eexists _, _. do 2 (split; [done|]). apply frame_pts_rnd_mono.
  - eapply Hts; [|exact Hf0|exact Hfi]; lia.
  - eapply Hts; [|exact Hfi|exact Hfj]; lia.
Qed.

(** ** The update indices *)

Lemma updates_after_S n m :
  updates_after (S n) m = (m + update_rate) :: updates_after n (m + update_rate).
Proof.
  unfold updates_after. rewrite seqZ_cons by lia.
  replace (Z.pred (Z.of_nat (S n))) with (Z.of_nat n) by lia.
  rewrite fmap_cons. f_equal.
  rewrite <- (fmap_add_seqZ 1 1), <- list_fmap_compose.
  apply list_fmap_ext. intros _ j _. simpl. lia.
Qed.

Lemma updates_after_0 m : updates_after 0 m = [].
Proof. done. Qed.

End spec.

(** ** The events *)

Section events.
Context {Image : Type}.
Implicit Types (c : File_Source Image) (from to : Z).

Lemma elem_of_updates_after i n m :
  i ∈ updates_after n m <->
  exists j, 1 <= j <= Z.of_nat n /\ i = m + update_rate * j.
Proof.
  unfold updates_after. rewrite list_elem_of_fmap. split.
  - intros (j & -> & Hj%elem_of_seqZ). exists j. split; [lia|done].
  - intros (j & Hj & ->). exists j. split; [done|]. apply elem_of_seqZ. lia.
Qed.

Lemma update_indices_range c from to i :
  i ∈ update_indices c from to -> from < i <= last_index c to.
Proof.
  unfold update_indices. case_bool_decide; [|by intros ?%elem_of_nil].
  intros (j & Hj & ->)%elem_of_updates_after. unfold update_rate in *.
  destruct (decide (last_index c to - from < 10)) as [Hneg|Hpos].
  - rewrite to_nat_div_small in Hj by lia. lia.
  - pose proof (Z.mul_div_le (last_index c to - from) 10).
    pose proof (Z.div_pos (last_index c to - from) 10). lia.
Qed.

(** The percentage of a progress event. *)
Definition percent_at from to i : Q := (progress_event from to i).2.

Lemma percent_at_bounds from to i :
  from < i <= to -> (10 < percent_at from to i <= 100)%Q.
Proof.
  intros Hi. pose proof (progress_value_bounds i from to Hi).
  unfold percent_at. simpl. lra.
Qed.

Lemma percent_at_mono from to i i' :
  from < to -> i <= i' -> (percent_at from to i <= percent_at from to i')%Q.
Proof.
  intros Ht Hi. pose proof (progress_value_mono i i' from to Ht Hi).
  unfold percent_at. simpl. lra.
Qed.

Lemma percents_nondecreasing from to n : forall m,
  from < to -> nondecreasing (percent_at from to <$> updates_after n m).
Proof.
  induction n as [|n IH]; intros m Ht; [auto with vx|].
  rewrite updates_after_S, fmap_cons. apply nondecreasing_cons. split; [|by apply IH].
  apply Forall_fmap, Forall_forall. intros i (j & Hj & ->)%elem_of_updates_after.
  simpl. apply percent_at_mono; [done|]. unfold update_rate. lia.
Qed.

Lemma spec_events_percents c from to :
  snd <$> spec_events c from to
  = 0.1%Q :: (percent_at from to <$> update_indices c from to) ++ [(1 * 100)%Q].
Proof.
  unfold spec_events. rewrite fmap_cons, fmap_app. simpl. f_equal. f_equal.
  by rewrite <- list_fmap_compose.
Qed.

(** The percentages of a job whose source opens never decrease. *)
Lemma spec_events_nondecreasing c from to :
  nondecreasing (snd <$> spec_events c from to).
Proof.
  rewrite spec_events_percents.
  assert (forall x, x ∈ percent_at from to <$> update_indices c from to ->
            (10 < x <= 100)%Q) as Hin.
  { intros x (i & -> & Hi%update_indices_range)%list_elem_of_fmap.
    apply percent_at_bounds. pose proof (last_index_le c to). lia. }
  apply nondecreasing_cons. split.
  - apply Forall_app. split.
    + apply Forall_forall. intros x Hx%Hin. lra.
    + repeat constructor. done.
  - apply nondecreasing_app.
    + unfold update_indices. case_bool_decide; [|auto with vx].
      destruct (decide (from < to)); [by apply percents_nondecreasing|].
      rewrite to_nat_div_small; [auto with vx|done|].
      pose proof (last_index_le c to). unfold update_rate. lia.
    + apply nondecreasing_cons. split; [constructor|auto with vx].
    + intros x y Hx%Hin ->%list_elem_of_singleton. simpl. lra.
Qed.

Lemma spec_events_last c from to :
  last (spec_events c from to) = Some ev_completed.
Proof. unfold spec_events. by rewrite last_cons, last_snoc. Qed.

Lemma spec_events_head c from to :
  head (spec_events c from to) = Some ev_converting.
Proof. done. Qed.

(** At most one progress event per [update_rate] frames of the source. *)
Lemma update_indices_length c from to :
  Z.of_nat (length (update_indices c from to))
  <= Z.of_nat (length (frames c)) / update_rate.
Proof.
  unfold update_indices, updates_after, update_rate.
  pose proof (last_index_lt_length c to).
  assert (0 <= Z.of_nat (length (frames c)) / 10) by (apply Z.div_pos; lia).
  case_bool_decide; [|simpl; lia].
  rewrite length_fmap, length_seqZ, Nat2Z.id.
  destruct (decide (last_index c to - from < 0)) as [Hneg|Hpos].
  - rewrite Z2Nat.nonpos; [lia|]. apply Z.lt_succ_r. simpl.
    apply Z.div_lt_upper_bound; lia.
  - rewrite Z2Nat.id by (apply Z.div_pos; lia). apply Z.div_le_mono; lia.
Qed.

Lemma spec_events_length c from to :
  length (spec_events c from to) = S (S (length (update_indices c from to))).
Proof. unfold spec_events. simpl. rewrite length_app, length_fmap. simpl. lia. Qed.

(** The job over the empty range exports nothing and reports no progress. *)
Lemma spec_events_empty c : spec_events c 0 (-1) = [ev_converting; ev_completed].
Proof.
  unfold spec_events, update_indices, last_index. simpl bool_decide.
  cbn [bool_decide]. replace (Z.min (-1) _) with (-1) by lia. done.
Qed.

End events.

(** ** The specification of a whole job *)

Section job.
Context {Image : Type} {rnd : Rounding}.
Context (env : Env Image) (args : Args Image).

(** The range of frame indices the job resolves its window to. *)
Definition job_range : Z * Z := resolve_range args (open_capture env args).

(** The events of the job, in order. *)
Definition expected_events : list Event :=
  if initialised (open_capture env args)
  then spec_events (open_capture env args) job_range.1 job_range.2
  else [ev_converting; ev_failed].

(** The packets in the output file; a job whose source does not open writes
    no output. *)
Definition expected_output : option (list (Packet Image)) :=
  if initialised (open_capture env args)
  then Some (spec_packets (process_frame args) (open_capture env args)
               job_range.1 job_range.2)
  else None.

End job.

(** The packets in the output of a run, when the generator returned after
    the frame loop. *)
Definition run_output {Image E} (r : Run Image E) : option (list (Packet Image)) :=
  match run_final r with
  | GReturned (Some l) => Some (muxed (target_container l))
  | _ => None
  end.
