(* ===== verification/PipelineLoop.v ===== *)
(** * The frame loop of the pipeline: views, invariants and termination

    Lemmas on [loop_iter], [run_loop] and [flush_loop] of [Pipeline]: an
    inductive view of one iteration (the source ended, the frame is past the
    range, the frame was processed), the rule that carries an invariant
    through [run_loop], and what follows from it: the loop always ends within
    [loop_fuel], the progress computation never divides by zero, and every
    progress event is between 10 and 100 percent. *)

From stdpp Require Import gmap.
From S2P Require Import Prelude Rounding FrameSource Encoder Resolver Pipeline PipelineSpec.

Local Open Scope Z_scope.

Section loop.
Context {Image : Type} `{Encoder Image E} {rnd : Rounding}.
Context (env : Env Image) (args : Args Image).
Implicit Types (l : Locals Image E) (c : File_Source Image) (fr : Frame Image)
  (r : LoopStep Image E).

(** The local variables after the frame [fr] went through lines 82-91. *)
Definition processed l c fr : Locals Image E :=
  encode_and_mux (store_frame args l c fr).

(** The packet the pipeline produces for a frame, given the time origin. *)
Definition export_packet (start : Q) c fr : Packet Image :=
  mkPacket (Some (process_frame args c fr)) (Some (frame_pts_rnd (timestamp fr) start)).

(** The update index stays at least [update_rate] after the range start. *)
Definition next_ok l : Prop :=
  export_from_index l + update_rate <= next_update_idx l.

(** What [report_progress] does, by the test of line 93. *)
Inductive report_view l : LoopStep Image E -> Prop :=
| report_continue :
    current_frame_idx (capture l) < next_update_idx l ->
    report_view l (LContinue l)
| report_yield p :
    next_update_idx l <= current_frame_idx (capture l) ->
    progress (current_frame_idx (capture l)) (export_from_index l)
      (export_to_index l) = Ok p ->
    report_view l (LYield (ev_progress p) l)
| report_raise e :
    next_update_idx l <= current_frame_idx (capture l) ->
    progress (current_frame_idx (capture l)) (export_from_index l)
      (export_to_index l) = Raise e ->
    report_view l (LRaise e l).

(** What one iteration does, by the tests of lines 74-80. *)
Inductive loop_view l : LoopStep Image E -> Prop :=
| loop_end_of_video :
    get_frame (capture l) = None -> loop_view l (LBreak l)
| loop_past_range fr c :
    get_frame (capture l) = Some (fr, c) ->
    export_to_index l < index fr ->
    loop_view l (LBreak (set_capture l c))
| loop_frame fr c r :
    get_frame (capture l) = Some (fr, c) ->
    index fr <= export_to_index l ->
    report_view (processed l c fr) r ->
    loop_view l r.

Lemma report_progress_view l : report_view l (report_progress l).
Proof.
  unfold report_progress. case_bool_decide as Hn.
  - destruct (progress _ _ _) eqn:Hp; by econstructor.
  - constructor. lia.
Qed.

Lemma loop_iter_view l : loop_view l (loop_iter args l).
Proof.
  unfold loop_iter. destruct (get_frame (capture l)) as [[fr c]|] eqn:Hg.
  - case_bool_decide.
    + by eapply loop_past_range.
    + eapply loop_frame; [done|lia|apply report_progress_view].
  - by constructor.
Qed.

(** ** Arithmetic of the progress fraction *)

Lemma progress_ok cur from to :
  to - from <> 0 -> progress cur from to = Ok (progress_value cur from to).
Proof. intros. unfold progress. by case_test. Qed.

Lemma progress_raise cur from to e :
  progress cur from to = Raise e -> to = from /\ e = ZeroDivisionError.
Proof. unfold progress. case_test; intros [= <-]; split; [lia|done]. Qed.

(** ** One iteration *)

Lemma report_view_locals l r :
  report_view l r ->
  match r with
  | LContinue l' | LYield _ l' | LRaise _ l' => l' = l
  | _ => False
  end.
Proof. by destruct 1. Qed.

Lemma processed_delivered l c fr :
  delivered (target_container (processed l c fr)) (video_stream (processed l c fr))
  = delivered (target_container l) (video_stream l)
    ++ [export_packet (default (timestamp fr) (start_time l)) c fr].
Proof.
  unfold processed, encode_and_mux. cbn [target_container video_stream].
  by rewrite delivered_encode.
Qed.

(** An iteration that goes on has read a frame: the source has fewer frames
    left. *)
Lemma loop_iter_continue l l' :
  loop_iter args l = LContinue l' ->
  (frames_left (capture l') < frames_left (capture l))%nat /\
  next_update_idx l' = next_update_idx l /\
  export_from_index l' = export_from_index l /\
  export_to_index l' = export_to_index l.
Proof.
  intros Hl. destruct (loop_iter_view l) as [| |fr c r Hg Hi Hr]; try done.
  apply report_view_locals in Hr. rewrite Hl in Hr. subst l'. simpl.
  split; [by eapply get_frame_frames_left|done].
Qed.

(** The rule of the frame loop: an invariant [P] of the iterations that go on
    gives [R] of the way the loop ends, and with fuel above the number of
    frames left the loop does end. *)
Lemma run_loop_rule (P : Locals Image E -> Prop) (R : LoopStep Image E -> Prop) :
  (forall l l', P l -> loop_iter args l = LContinue l' -> P l') ->
  (forall l, P l ->
     match loop_iter args l with LContinue _ => True | r => R r end) ->
  forall fuel l, P l -> (frames_left (capture l) < fuel)%nat ->
    R (run_loop args fuel l).
Proof.
  intros Hpres Hend. induction fuel as [|fuel IH]; intros l HP Hf; [lia|].
  simpl. specialize (Hend l HP). specialize (Hpres l).
  destruct (loop_iter args l) as [| l' | | |] eqn:Hl; try done.
  apply IH; [by apply Hpres|]. apply loop_iter_continue in Hl. lia.
Qed.

(** What an iteration gives under [next_ok]: no exception, and a progress
    event only for a frame inside the range, at or after the update index. *)
Definition step_ok l r : Prop :=
  match r with
  | LBreak l' => True
  | LContinue l' => next_ok l'
  | LYield ev l' =>
      next_ok l' /\
      next_update_idx l' <= current_frame_idx (capture l') <= export_to_index l' /\
      ev = ev_progress (progress_value (current_frame_idx (capture l'))
                          (export_from_index l') (export_to_index l')) /\
      (frames_left (capture l') < frames_left (capture l))%nat /\
      (frames_left (capture l') < length (frames (capture l)))%nat
  | LRaise _ _ | LFuel => False
  end.

Lemma loop_iter_step_ok l : next_ok l -> step_ok l (loop_iter args l).
Proof.
  intros Hn. destruct (loop_iter_view l) as [| |fr c r Hg Hi Hr]; [done..|].
  pose proof (get_frame_Some _ _ _ Hg) as (Hidx & _ & Hfr & Ht & Hcur & _).
  pose proof (get_frame_in_range _ _ _ Hg) as Hrange.
  pose proof (get_frame_frames_left _ _ _ Hg) as Hleft.
  unfold next_ok, update_rate in Hn.
  destruct Hr as [Hlt|p Hle Hp|e Hle Hp]; simpl in *.
  - done.
  - rewrite progress_ok in Hp by lia. injection Hp as <-.
    split_and!; try done; try lia. unfold frames_left. rewrite Hfr, Ht. lia.
  - apply progress_raise in Hp. lia.
Qed.

(** ** The frame loop as a whole *)

(** How the loop may end when it starts from [l0] under [next_ok]. *)
Definition loop_end_ok l0 r : Prop :=
  match r with
  | LBreak l' => frames (capture l') = frames (capture l0)
  | LYield ev l' =>
      next_ok l' /\
      frames (capture l') = frames (capture l0) /\
      next_update_idx l' <= current_frame_idx (capture l') <= export_to_index l' /\
      ev = ev_progress (progress_value (current_frame_idx (capture l'))
                          (export_from_index l') (export_to_index l')) /\
      (frames_left (capture l') < frames_left (capture l0))%nat /\
      (frames_left (capture l') < length (frames (capture l0)))%nat
  | LContinue _ | LRaise _ _ | LFuel => False
  end.

Lemma loop_iter_frames l :
  match loop_iter args l with
  | LBreak l' | LContinue l' | LYield _ l' | LRaise _ l' =>
      frames (capture l') = frames (capture l)
  | LFuel => True
  end.
Proof.
  destruct (loop_iter_view l) as [|fr c Hg Hi|fr c r Hg Hi Hr]; [done|..].
  - by apply get_frame_Some in Hg as (_ & _ & Hf & _).
  - apply get_frame_Some in Hg as (_ & _ & Hf & _).
    by destruct Hr.
Qed.

Lemma run_loop_end_ok l0 fuel :
  next_ok l0 -> (frames_left (capture l0) < fuel)%nat ->
  loop_end_ok l0 (run_loop args fuel l0).
Proof.
  intros Hn Hf.
  apply (run_loop_rule
    (fun l => next_ok l /\ frames (capture l) = frames (capture l0) /\
              (frames_left (capture l) <= frames_left (capture l0))%nat)
    (loop_end_ok l0)); [| |done|done].
  - intros l l' (Hn' & Hfr & Hle) Hl.
    pose proof (loop_iter_step_ok l Hn') as Hs. pose proof (loop_iter_frames l) as Hf'.
    apply loop_iter_continue in Hl as Hc. rewrite Hl in Hs, Hf'. simpl in *.
    split_and!; [done|congruence|lia].
  - intros l (Hn' & Hfr & Hle).
    pose proof (loop_iter_step_ok l Hn') as Hs. pose proof (loop_iter_frames l) as Hf'.
    destruct (loop_iter args l) as [l'|l'|ev l'|e l'|]; simpl in *;
      [congruence|done| |done..].
    destruct Hs as (? & ? & ? & ? & ?). rewrite <- Hfr.
    split_and!; first [done|congruence|lia].
Qed.

(** ** The flush loop *)

Lemma flush_loop_spec fuel (s : Stream E) (c : Container Image) :
  (length (enc_pending (codec s)) < fuel)%nat ->
  let r := flush_loop fuel s c in
  muxed r.2 = delivered c s /\ enc_pending (codec r.1) = [] /\
  closed r.2 = closed c /\ cont_file r.2 = cont_file c.
Proof.
  revert s c. induction fuel as [|fuel IH]; intros s c Hf; [lia|]. simpl.
  pose proof (delivered_flush c s) as Hd. unfold stream_flush in *. simpl in *.
  destruct (enc_flush (codec s)).2 as [p|] eqn:Hp; simpl in *.
  - pose proof (enc_flush_length _ _ Hp) as Hlen.
    match goal with |- context [flush_loop fuel ?s' ?c'] =>
      destruct (IH s' c') as (Hm & He & Hc & Hfile) end; [simpl; lia|].
    rewrite Hm, Hd. done.
  - rewrite (enc_flush_None_pending _ Hp). unfold delivered.
    by rewrite (enc_flush_None _ Hp), app_nil_r.
Qed.

End loop.
