(* ===== verification/PipelineGen.v ===== *)
(** * The generator as a whole: safety and termination

    Lemmas and theorems on [resume], [drain] and [export_processed_h264] of
    [Pipeline]: an invariant of the suspended generator ([gen_ok]) and a
    measure that every [next()] decreases ([gen_measure]) give, through
    [drain_rule], that the generator always runs to its end within
    [drain_fuel] calls, never raises, and yields only percentages between 0
    and 100. *)

From stdpp Require Import gmap.
From S2P Require Import Prelude Rounding FrameSource Encoder Resolver Pipeline Sample.
From S2P Require Import PipelineSpec PipelineLoop.

Local Open Scope Z_scope.

Section gen.
Context {Image : Type} `{Encoder Image E} {rnd : Rounding}.
Context (env : Env Image) (args : Args Image).
Implicit Types (l : Locals Image E) (c : File_Source Image) (g : GenState Image E)
  (ev : Event).

(** What holds of the local variables whenever the generator is suspended in
    the frame loop. *)
Definition gen_ok g : Prop :=
  match g with
  | GProgress l =>
      next_ok l /\ frames (capture l) = frames (open_capture env args)
  | _ => True
  end.

(** A bound on the [next()] calls the generator still answers with an
    event. *)
Definition gen_measure g : nat :=
  match g with
  | GStart => length (frames (open_capture env args)) + 3
  | GConverting => length (frames (open_capture env args)) + 2
  | GProgress l => frames_left (capture l) + 2
  | GFailed _ | GCompleted _ => 1
  | GReturned _ | GDead _ _ => 0
  end.

(** The percentage of an event is a percentage. *)
Definition percent_ok ev : Prop := (0 <= ev.2 <= 100)%Q.

(** What [continue_loop] gives from local variables [l]. *)
Definition continue_ok l (o : Outcome Image E) : Prop :=
  match o with
  | Yielded ev (GProgress l') =>
      next_ok l' /\ frames (capture l') = frames (capture l) /\
      (frames_left (capture l') < frames_left (capture l))%nat /\
      (frames_left (capture l') < length (frames (capture l)))%nat /\
      (10 < ev.2 <= 100)%Q
  | Yielded ev (GCompleted l') => ev = ev_completed
  | _ => False
  end.

Lemma ev_progress_percent cur from to :
  from < cur <= to ->
  (10 < (ev_progress (progress_value cur from to)).2 <= 100)%Q.
Proof. intros Hc%progress_value_bounds. simpl. lra. Qed.

Lemma continue_loop_ok l : next_ok l -> continue_ok l (continue_loop args l).
Proof.
  intros Hn. unfold continue_loop.
  assert (loop_end_ok l (run_loop args (loop_fuel l) l)) as Hr
    by (apply run_loop_end_ok; [done|unfold loop_fuel; lia]).
  destruct (run_loop args (loop_fuel l) l) as [l'|l'|ev l'|e l'|]; simpl in *;
    try done.
  destruct Hr as (Hn' & Hf & Hc & -> & Hl1 & Hl2).
  do 4 (split; [done|]). apply ev_progress_percent.
  unfold next_ok, update_rate in Hn'. lia.
Qed.

Lemma next_ok_bump l : next_ok l -> next_ok (bump_update_idx l).
Proof. unfold next_ok. simpl. unfold update_rate. lia. Qed.

Lemma next_ok_setup c : next_ok (setup env args c).
Proof. unfold next_ok. simpl. lia. Qed.

(** One [next()] on a generator that satisfies [gen_ok]. *)
Definition resume_ok g (o : Outcome Image E) : Prop :=
  match o with
  | Yielded ev g' =>
      gen_ok g' /\ (gen_measure g' < gen_measure g)%nat /\ percent_ok ev
  | Stopped _ => True
  | Raised _ _ | OutOfFuel => False
  end.

Lemma resume_resume_ok g : gen_ok g -> resume_ok g (resume env args g).
Proof.
  destruct g as [| |c|l|l|l|e l]; simpl; try done.
  - intros _. split_and!; [done|lia|unfold percent_ok; simpl; lra].
  - intros _. destruct (initialised (open_capture env args)) eqn:Hi; simpl.
    + pose proof (continue_loop_ok _ (next_ok_setup (open_capture env args))) as Hc.
      destruct (continue_loop args _) as [ev [| | |l'|l'| |]| | |]; simpl in *; try done.
      * destruct Hc as (? & ? & ? & ? & ?). unfold percent_ok.
        split_and!; try done; try lia; lra.
      * subst ev. split_and!; [done|lia|unfold percent_ok; simpl; lra].
    + split_and!; [done|lia|unfold percent_ok; simpl; lra].
  - intros [Hn Hf].
    pose proof (continue_loop_ok _ (next_ok_bump l Hn)) as Hc.
    destruct (continue_loop args _) as [ev [| | |l'|l'| |]| | |]; simpl in *; try done.
    + destruct Hc as (? & ? & ? & ? & ?). unfold percent_ok.
      split_and!; try done; try lia; try lra. congruence.
    + subst ev. split_and!; [done|lia|unfold percent_ok; simpl; lra].
Qed.

(** The rule of [drain]: an invariant [I] that every [next()] keeps while it
    decreases the measure [m] and yields events in [R] gives a run that is
    complete, without error, with all its events in [R]. *)
Lemma drain_rule (I : GenState Image E -> Prop) (m : GenState Image E -> nat)
    (R : Event -> Prop) :
  (forall g, I g ->
     match resume env args g with
     | Yielded ev g' => I g' /\ (m g' < m g)%nat /\ R ev
     | Stopped _ => True
     | Raised _ _ | OutOfFuel => False
     end) ->
  forall n g, I g -> (m g < n)%nat ->
    run_complete (drain env args n g) = true /\
    run_error (drain env args n g) = None /\
    Forall R (run_events (drain env args n g)).
Proof.
  intros Hstep. induction n as [|n IH]; intros g Hg Hm; [lia|]. simpl.
  specialize (Hstep g Hg).
  destruct (resume env args g) as [ev g'| | |]; simpl; try done.
  destruct Hstep as (Hg' & Hm' & Hev).
  destruct (IH g' Hg') as (? & ? & ?); [lia|]. by split_and!; [..|constructor].
Qed.

Lemma drain_yielded n g ev g' evs gf :
  resume env args g = Yielded ev g' ->
  drain env args n g' = mkRun evs gf None true ->
  drain env args (S n) g = mkRun (ev :: evs) gf None true.
Proof. intros Hr Hd. simpl. by rewrite Hr, Hd. Qed.

Lemma drain_stopped n g g' :
  resume env args g = Stopped g' ->
  drain env args (S n) g = mkRun [] g' None true.
Proof. intros Hr. simpl. by rewrite Hr. Qed.

Lemma gen_ok_start : gen_ok GStart.
Proof. done. Qed.

Lemma drain_fuel_enough : (gen_measure GStart < drain_fuel env args)%nat.
Proof. unfold drain_fuel. simpl. lia. Qed.

(** A whole run: it is complete, without error, and all its events carry a
    percentage. *)
Lemma export_run_safe :
  run_complete (export_processed_h264 env args) = true /\
  run_error (export_processed_h264 env args) = None /\
  Forall percent_ok (run_events (export_processed_h264 env args)).
Proof.
  apply (drain_rule gen_ok gen_measure percent_ok resume_resume_ok);
    [apply gen_ok_start|apply drain_fuel_enough].
Qed.

(** C2. Termination and absence of errors: whatever the recording, the
    window, the transform and the encoder, exhausting the generator
    [export_processed_h264] takes at most [drain_fuel] calls of [next()],
    the generator returns, and no exception escapes it (in particular the
    progress computation of lines 94-97 never divides by zero and the frame
    loop never runs out of frames to read). *)
Theorem export_runs_to_completion :
  run_complete (export_processed_h264 env args) = true /\
  run_error (export_processed_h264 env args) = None.
Proof. destruct export_run_safe as (? & ? & _). done. Qed.

(** C25. Every event the generator yields carries a percentage between 0 and
    100. *)
Theorem export_percent_in_range :
  Forall percent_ok (run_events (export_processed_h264 env args)).
Proof. apply export_run_safe. Qed.

(** A [next()] on a generator that is suspended in a state the pipeline
    can reach never raises and never loops forever: it yields an event or
    stops. *)
Theorem resume_never_raises g :
  gen_ok g ->
  (exists ev g', resume env args g = Yielded ev g') \/
  (exists g', resume env args g = Stopped g').
Proof.
  intros Hg%resume_resume_ok.
  destruct (resume env args g) as [ev g'|g'|e g'|]; simpl in Hg; try done; eauto.
Qed.

(** C11. The progress computation inside one iteration of the frame loop
    never raises [ZeroDivisionError] as long as the update index is at least
    [update_rate] past the start of the range: an event is computed only for
    a frame at or after the update index and inside the range, so the range
    has at least [update_rate] frames. *)
Theorem progress_no_zero_division (l : Locals Image E) e l' :
  next_ok l -> loop_iter args l <> LRaise e l'.
Proof.
  intros Hn%(loop_iter_step_ok args) Hl. by rewrite Hl in Hn.
Qed.

Lemma missing_source_run :
  initialised (open_capture env args) = false ->
  export_processed_h264 env args
  = mkRun [ev_converting; ev_failed] (GReturned None) None true.
Proof.
  intros Hi. unfold export_processed_h264, drain_fuel.
  rewrite Nat.add_comm. simpl. by rewrite Hi.
Qed.

(** C35. When the source video cannot be opened the generator yields exactly
    two events, the liveness event at 0.1 and the failure event at 0, and
    returns without touching the output. *)
Theorem export_fails_on_missing_source :
  initialised (open_capture env args) = false ->
  export_processed_h264 env args
  = mkRun [ev_converting; ev_failed] (GReturned None) None true.
Proof. apply missing_source_run. Qed.

(** On that failure path the percentages go down, from 0.1 to 0: the
    sequence of events of a failed job is not non-decreasing. *)
Theorem failure_events_not_monotone :
  initialised (open_capture env args) = false ->
  ~ nondecreasing ((snd <$> run_events (export_processed_h264 env args))).
Proof.
  intros Hi. rewrite (missing_source_run Hi).
  intros Hm. specialize (Hm 0%nat 1%nat 0.1%Q 0%Q). simpl in Hm.
  assert (0.1 <= 0)%Q as Hle by (apply Hm; [lia|done..]). lra.
Qed.

End gen.

(** The witnesses and the examples are computed in the arithmetic without
    rounding. *)
#[local] Existing Instance exact_rounding.

(** ** The theorems on sample recordings *)

Lemma resume_never_raises_witness :
  (exists ev g', resume demo_env demo_args GConverting = Yielded ev g') \/
  (exists g', resume demo_env demo_args GConverting = Stopped g').
Proof. apply (resume_never_raises demo_env demo_args GConverting). exact I. Defined.

(** The sample job after ten iterations of its frame loop: the eleventh
    reaches the update index and computes a progress event. *)
Definition demo_tenth :=
  Nat.iter 10 (fun l => match loop_iter demo_args l with LContinue l' => l' | _ => l end)
    (setup demo_env demo_args (open_capture demo_env demo_args)).

Lemma progress_no_zero_division_witness :
  (exists l', loop_iter demo_args demo_tenth
              = LYield ("Converting video"%string, 114000 # 2400) l') /\
  loop_iter demo_args demo_tenth <> LRaise ZeroDivisionError demo_tenth.
Proof.
  split; [eexists; by vm_compute|].
  apply progress_no_zero_division. by vm_compute.
Defined.

Lemma export_fails_on_missing_source_witness :
  export_processed_h264 demo_env missing_args
  = mkRun [ev_converting; ev_failed] (GReturned None) None true.
Proof. apply export_fails_on_missing_source. vm_compute. reflexivity. Defined.

Lemma failure_events_not_monotone_witness :
  ~ nondecreasing (snd <$> run_events (export_processed_h264 demo_env missing_args)).
Proof. apply failure_events_not_monotone. vm_compute. reflexivity. Defined.
