(* ===== verification/PipelineRefine.v ===== *)
(** * The pipeline implements its specification

    The refinement proof: the invariant [loop_inv] relates the local
    variables of the generator, with the source cursor at [k], to the
    specification of [PipelineSpec] (what was delivered so far is
    [packets_upto k]); [loop_iter_frame] and [loop_iter_stop] are the two
    cases of one iteration, [run_loop_segment] follows the frame loop from one
    suspension point to the next, and [drain_loop] follows the generator
    from a progress event to its end. *)

From stdpp Require Import gmap.
From S2P Require Import Prelude Rounding FrameSource Encoder Resolver Pipeline.
From S2P Require Import PipelineSpec PipelineLoop PipelineGen.

Local Open Scope Z_scope.

Section refine.
Context {Image : Type} `{Encoder Image E} {rnd : Rounding}.
Context (env : Env Image) (args : Args Image).
Context (c0 : File_Source Image) (from to : Z).
Implicit Types (l : Locals Image E) (c : File_Source Image) (fr : Frame Image)
  (k : Z).

(** Two states of the adapter on the same file. *)
Definition same_file c : Prop :=
  initialised c = initialised c0 /\ frame_size c = frame_size c0 /\
  frames c = frames c0 /\ released c = released c0.

(** The local variables when the cursor is at [k]. *)
Record loop_inv k l : Prop := mk_loop_inv {
  inv_file : same_file (capture l);
  inv_cursor : target_frame_idx (capture l) = k;
  inv_from : export_from_index l = from;
  inv_to : export_to_index l = to;
  inv_start :
    start_time l
    = if bool_decide (from < k) then timestamp <$> frame_at c0 from else None;
  inv_delivered :
    delivered (target_container l) (video_stream l)
    = packets_upto (process_frame args) c0 from k;
  inv_open : closed (target_container l) = false;
  inv_name : cont_file (target_container l) = target_video_loc args;
}.

(** The local variables when the frame loop has ended. *)
Record loop_done l : Prop := mk_loop_done {
  done_file : same_file (capture l);
  done_delivered :
    delivered (target_container l) (video_stream l)
    = spec_packets (process_frame args) c0 from to;
  done_open : closed (target_container l) = false;
  done_name : cont_file (target_container l) = target_video_loc args;
}.

Lemma same_file_frame_at c i : same_file c -> frame_at c i = frame_at c0 i.
Proof. intros (_ & _ & Hf & _). unfold frame_at. by rewrite Hf. Qed.

Lemma same_file_capture_at c i : same_file c -> capture_at c i = capture_at c0 i.
Proof. intros (Hi & Hs & Hf & Hr). unfold capture_at. by rewrite Hi, Hs, Hf, Hr. Qed.

Lemma same_file_capture_at_same c i : same_file c -> same_file (capture_at c i).
Proof. by intros (Hi & Hs & Hf & Hr). Qed.

Lemma container_mux_option_closed (tc : Container Image) o :
  closed (from_option (container_mux tc) tc o) = closed tc /\
  cont_file (from_option (container_mux tc) tc o) = cont_file tc.
Proof. by destruct o. Qed.

(** ** [report_progress], by the test of line 93 *)

Lemma report_progress_yield l :
  next_update_idx l <= current_frame_idx (capture l) ->
  export_to_index l - export_from_index l <> 0 ->
  report_progress l
  = LYield (progress_event (export_from_index l) (export_to_index l)
              (current_frame_idx (capture l))) l.
Proof.
  intros Hn Hd. unfold report_progress.
  rewrite bool_decide_eq_true_2 by done. by rewrite progress_ok.
Qed.

Lemma report_progress_continue l :
  current_frame_idx (capture l) < next_update_idx l ->
  report_progress l = LContinue l.
Proof. intros Hn. unfold report_progress. by rewrite bool_decide_eq_false_2 by lia. Qed.

(** ** One iteration under the invariant *)

(** The time origin after frame [k] went through line 83. *)
Lemma start_time_step k l fr f0 :
  loop_inv k l -> from <= k -> frame_at c0 from = Some f0 -> frame_at c0 k = Some fr ->
  default (timestamp fr) (start_time l) = timestamp f0.
Proof.
  intros Hinv Hk Hf0 Hfr. rewrite (inv_start _ _ Hinv). case_bool_decide.
  - by rewrite Hf0.
  - assert (k = from) as -> by lia. simpl. congruence.
Qed.

(** A frame inside the range is processed: the cursor moves on by one and
    the frame's packet is delivered. *)
Lemma loop_iter_frame k l :
  loop_inv k l -> 0 <= from <= k -> k <= last_index c0 to ->
  exists fr c,
    loop_iter args l = report_progress (processed args l c fr) /\
    loop_inv (k + 1) (processed args l c fr) /\
    current_frame_idx (capture (processed args l c fr)) = k /\
    next_update_idx (processed args l c fr) = next_update_idx l.
Proof.
  intros Hinv Hk Hlast. pose proof (last_index_lt_length c0 to) as Hlen.
  pose proof (last_index_le c0 to) as Hto. pose proof (inv_file _ _ Hinv) as Hfile.
  destruct (frame_at_is_Some c0 k) as [fr Hfr]; [lia|].
  destruct (frame_at_is_Some c0 from) as [f0 Hf0]; [lia|].
  assert (get_frame (capture l) = Some (fr, capture_at c0 k)) as Hget.
  { rewrite <- (same_file_capture_at _ k Hfile).
    apply get_frame_at; [apply Hinv|by rewrite same_file_frame_at]. }
  exists fr, (capture_at c0 k). split; [|split; [|done]].
  { unfold loop_iter. rewrite Hget, bool_decide_eq_false_2; [done|].
    rewrite (frame_at_index _ _ _ Hfr), (inv_to _ _ Hinv). lia. }
  pose proof (start_time_step k l fr f0 Hinv ltac:(lia) Hf0 Hfr) as Hstart.
  split; try apply Hinv.
  - done.
  - done.
  - simpl. rewrite bool_decide_eq_true_2 by lia. rewrite Hf0. simpl.
    by rewrite Hstart.
  - rewrite processed_delivered, (inv_delivered _ _ Hinv), Hstart.
    symmetry. apply (packets_upto_snoc _ _ _ _ f0); [lia|done|].
    unfold spec_packet. by rewrite Hfr.
  - simpl. rewrite (proj1 (container_mux_option_closed _ _)). apply Hinv.
  - simpl. rewrite (proj2 (container_mux_option_closed _ _)). apply Hinv.
Qed.

Lemma set_capture_same l : set_capture l (capture l) = l.
Proof. by destruct l. Qed.

(** A cursor outside the source or past the range ends the loop; nothing is
    delivered. *)
Lemma loop_iter_stop k l :
  loop_inv k l -> k < 0 \/ last_index c0 to < k ->
  exists c, loop_iter args l = LBreak (set_capture l c) /\ same_file c.
Proof.
  intros Hinv Hk. pose proof (inv_file _ _ Hinv) as Hfile. unfold loop_iter.
  destruct (get_frame (capture l)) as [[fr c]|] eqn:Hg.
  - pose proof (get_frame_in_range _ _ _ Hg) as Hr.
    apply get_frame_Some in Hg as (Hi & _ & Hf & _ & _ & Hin & Hs & Hrel).
    destruct Hfile as (Hi0 & Hs0 & Hf0 & Hr0).
    rewrite (inv_cursor _ _ Hinv) in Hi. rewrite Hf0 in Hr.
    exists c. rewrite bool_decide_eq_true_2.
    + split; [done|]. unfold same_file. by rewrite Hin, Hs, Hf, Hrel.
    + rewrite (inv_to _ _ Hinv). unfold last_index in Hk. lia.
  - exists (capture l). by rewrite set_capture_same.
Qed.

Lemma loop_inv_done k l c :
  loop_inv k l -> same_file c ->
  k = last_index c0 to + 1 \/ (k = from /\ last_index c0 to < from) \/
  (k = from /\ from < 0) ->
  loop_done (set_capture l c).
Proof.
  intros Hinv Hc Hk. split; simpl; try apply Hinv; [done|].
  rewrite (inv_delivered _ _ Hinv). unfold spec_packets.
  destruct Hk as [->|[[-> Hl]|[-> Hl]]]; [done|..].
  - by rewrite !packets_upto_start by lia.
  - by rewrite !packets_upto_no_origin by (apply frame_at_None; lia).
Qed.

(** ** The frame loop between two suspension points

    From a cursor [k] at or before the update index: when the update index
    is inside the exported frames the loop runs to it and yields its
    progress event; otherwise it runs to the end of the exported frames and
    breaks. *)
Lemma run_loop_segment fuel : forall k l,
  loop_inv k l -> next_ok l -> 0 <= from <= k -> k <= next_update_idx l ->
  k <= last_index c0 to + 1 \/ k = from ->
  (Z.to_nat (Z.min (next_update_idx l) (last_index c0 to) + 1 - k) < fuel)%nat ->
  if bool_decide (next_update_idx l <= last_index c0 to)
  then exists l',
    run_loop args fuel l = LYield (progress_event from to (next_update_idx l)) l' /\
    loop_inv (next_update_idx l + 1) l' /\ next_update_idx l' = next_update_idx l
  else exists l', run_loop args fuel l = LBreak l' /\ loop_done l'.
Proof.
  induction fuel as [|fuel IH]; intros k l Hinv Hn Hk Hnext Hlast Hf; [lia|].
  pose proof (last_index_le c0 to) as Hto. simpl.
  destruct (decide (k <= last_index c0 to)) as [Hin|Hout].
  - destruct (loop_iter_frame k l Hinv Hk Hin) as (fr & c & -> & Hinv' & Hcur & Hnx).
    pose proof (inv_from _ _ Hinv') as Hfrom. pose proof (inv_to _ _ Hinv') as Hto'.
    pose proof (inv_from _ _ Hinv) as Hfrom0. unfold next_ok, update_rate in Hn.
    destruct (decide (next_update_idx l <= k)) as [Hle|Hgt].
    + assert (next_update_idx l = k) as Hnk by lia.
      rewrite report_progress_yield by lia. rewrite Hfrom, Hto', Hcur.
      rewrite bool_decide_eq_true_2 by lia. rewrite Hnk.
      by exists (processed args l c fr).
    + rewrite report_progress_continue by lia.
      rewrite <- Hnx. apply (IH (k + 1)); first [done|unfold next_ok, update_rate; lia].
  - rewrite bool_decide_eq_false_2 by lia.
    destruct (loop_iter_stop k l Hinv) as (c & -> & Hc); [lia|].
    eexists. split; [done|]. apply (loop_inv_done k); [done..|]. lia.
Qed.

(** ** From the frame loop to the generator *)

(** What the output is once the generator has finished. *)
Record export_done (lf : Locals Image E) : Prop := mk_export_done {
  out_muxed :
    muxed (target_container lf) = spec_packets (process_frame args) c0 from to;
  out_closed : closed (target_container lf) = true;
  out_name : cont_file (target_container lf) = target_video_loc args;
  out_flushed : enc_pending (codec (video_stream lf)) = [];
  out_released : released (capture lf) = true;
}.

Lemma finish_done l : loop_done l -> export_done (finish l).
Proof.
  intros Hd.
  destruct (flush_loop_spec (flush_fuel (video_stream l)) (video_stream l)
              (target_container l)) as (Hm & Hp & Hc & Hn); [unfold flush_fuel; lia|].
  unfold finish. split; cbn [target_container video_stream capture];
    unfold container_close, capture_cleanup; cbn [muxed closed cont_file released].
  - rewrite Hm. apply Hd.
  - done.
  - rewrite Hn. apply Hd.
  - done.
  - done.
Qed.

Lemma loop_inv_bump k l : loop_inv k l -> loop_inv k (bump_update_idx l).
Proof. intros Hinv. split; simpl; apply Hinv. Qed.

Lemma continue_loop_segment k l :
  loop_inv k l -> next_ok l -> 0 <= from <= k -> k <= next_update_idx l ->
  k <= last_index c0 to + 1 \/ k = from ->
  if bool_decide (next_update_idx l <= last_index c0 to)
  then exists l',
    continue_loop args l
    = Yielded (progress_event from to (next_update_idx l)) (GProgress l') /\
    loop_inv (next_update_idx l + 1) l' /\ next_update_idx l' = next_update_idx l
  else exists lf,
    continue_loop args l = Yielded ev_completed (GCompleted lf) /\ export_done lf.
Proof.
  intros Hinv Hn Hk Hnext Hlast. unfold continue_loop.
  pose proof (last_index_lt_length c0 to) as Hlen.
  pose proof (run_loop_segment (loop_fuel l) k l Hinv Hn Hk Hnext Hlast) as Hs.
  destruct (inv_file _ _ Hinv) as (_ & _ & Hf & _).
  assert (Z.to_nat (Z.min (next_update_idx l) (last_index c0 to) + 1 - k)
          < loop_fuel l)%nat as Hfuel.
  { unfold loop_fuel, frames_left. rewrite Hf, (inv_cursor _ _ Hinv). lia. }
  specialize (Hs Hfuel). case_bool_decide.
  - destruct Hs as (l' & -> & Hinv' & Hnx). by exists l'.
  - destruct Hs as (l' & -> & Hd). exists (finish l'). split; [done|].
    by apply finish_done.
Qed.

(** A source that is sought before its first frame ends the loop at once. *)
Lemma continue_loop_negative l :
  loop_inv from l -> from < 0 ->
  exists lf,
    continue_loop args l = Yielded ev_completed (GCompleted lf) /\ export_done lf.
Proof.
  intros Hinv Hneg. unfold continue_loop, loop_fuel. simpl.
  destruct (loop_iter_stop from l Hinv) as (c & -> & Hc); [lia|].
  eexists. split; [done|]. apply finish_done, (loop_inv_done from); [done..|].
  right. right. done.
Qed.

(** The events a suspended generator still yields: one per update index up
    to the last exported frame, then the completion event. *)
Definition remaining_events (r : nat) (next : Z) : list Event :=
  (progress_event from to <$> updates_after r (next - update_rate))
  ++ [ev_completed].

Lemma drain_completed n g lf :
  resume env args g = Yielded ev_completed (GCompleted lf) ->
  drain env args (S (S n)) g
  = mkRun (remaining_events 0 0) (GReturned (Some lf)) None true.
Proof.
  intros Hr. apply (drain_yielded env args _ _ _ _ [] _ Hr).
  by apply drain_stopped.
Qed.

Lemma remaining_events_S r m :
  remaining_events (S r) m
  = progress_event from to m :: remaining_events r (m + update_rate).
Proof.
  unfold remaining_events. rewrite updates_after_S.
  replace (m - update_rate + update_rate) with m by lia.
  by replace (m + update_rate - update_rate) with m by lia.
Qed.

(** From any point where the generator is about to run the frame loop with
    the cursor at [k]: it yields the remaining progress events and the
    completion event, returns, and the output is the specified one. *)
Lemma drain_loop r : forall n g k l,
  resume env args g = continue_loop args l ->
  loop_inv k l -> next_ok l -> 0 <= from <= k -> k <= next_update_idx l ->
  k <= last_index c0 to + 1 \/ k = from ->
  Z.to_nat ((last_index c0 to - next_update_idx l + update_rate) / update_rate) = r ->
  (r + 2 <= n)%nat ->
  exists lf,
    drain env args n g
    = mkRun (remaining_events r (next_update_idx l)) (GReturned (Some lf)) None true /\
    export_done lf.
Proof.
  induction r as [|r IH]; intros n g k l Hres Hinv Hn Hk Hnext Hlast Hr Hfuel;
    pose proof (continue_loop_segment k l Hinv Hn Hk Hnext Hlast) as Hs;
    rewrite <- Hres in Hs; case_bool_decide as Hb.
  - rewrite to_nat_div_add in Hr by (unfold update_rate; lia). done.
  - destruct Hs as (lf & Hy & Hd). exists lf. split; [|done].
    destruct n as [|[|n]]; [lia..|]. by rewrite (drain_completed _ _ _ Hy).
  - destruct Hs as (l' & Hy & Hinv' & Hnx). destruct n as [|n]; [lia|].
    rewrite to_nat_div_add in Hr by (unfold update_rate; lia).
    assert (next_update_idx (bump_update_idx l') = next_update_idx l + update_rate)
      as Hnb by (simpl; by rewrite Hnx).
    assert (next_ok (bump_update_idx l')) as Hn'.
    { unfold next_ok in *. rewrite Hnb. simpl. rewrite (inv_from _ _ Hinv').
      rewrite (inv_from _ _ Hinv) in Hn. unfold update_rate in *. lia. }
    destruct (IH n (GProgress l') (next_update_idx l + 1) (bump_update_idx l'))
      as (lf & Hdr & Hd); rewrite ?Hnb;
      try first [done|by apply loop_inv_bump|unfold update_rate; lia].
    + injection Hr as <-. f_equal. f_equal. lia.
    + exists lf. split; [|done].
      rewrite (drain_yielded env args _ _ _ _ _ _ Hy Hdr), Hnb.
      by rewrite remaining_events_S.
  - rewrite to_nat_div_small in Hr by (unfold update_rate; lia). done.
Qed.

End refine.

(** ** The whole job *)

Section export.
Context {Image : Type} `{Encoder Image E} {rnd : Rounding}.
Context (env : Env Image) (args : Args Image).

Lemma setup_inv (c : File_Source Image) :
  loop_inv args c (resolve_range args c).1 (resolve_range args c).2
    (resolve_range args c).1 (setup env args c).
Proof.
  split; try done.
  - simpl. by rewrite bool_decide_eq_false_2 by lia.
  - rewrite packets_upto_start by lia. unfold delivered. simpl.
    apply enc_init_pending.
Qed.

Lemma setup_next (c : File_Source Image) :
  next_update_idx (setup env args c) = (resolve_range args c).1 + update_rate.
Proof. done. Qed.

Lemma spec_events_remaining (c : File_Source Image) from to :
  0 <= from ->
  spec_events c from to
  = ev_converting
    :: remaining_events from to
         (Z.to_nat ((last_index c to - from) / update_rate)) (from + update_rate).
Proof.
  intros Hf. unfold spec_events, remaining_events, update_indices.
  rewrite bool_decide_eq_true_2 by done.
  by replace (from + update_rate - update_rate) with from by lia.
Qed.

(** A job whose source opens: the run of the generator is the specified
    one. *)
Lemma export_run_ok :
  initialised (open_capture env args) = true ->
  exists lf,
    export_processed_h264 env args
    = mkRun (spec_events (open_capture env args) (job_range env args).1
               (job_range env args).2) (GReturned (Some lf)) None true /\
    export_done args (open_capture env args) (job_range env args).1
      (job_range env args).2 lf.
Proof.
  intros Hi. unfold export_processed_h264, drain_fuel, job_range.
  assert (resume env args GConverting
          = continue_loop args (setup env args (open_capture env args)))
    as Hres by (unfold resume; by rewrite Hi).
  set (c := open_capture env args) in *. set (rg := resolve_range args c).
  pose proof (setup_inv c) as Hinv. fold rg in Hinv.
  rewrite Nat.add_comm. simpl Nat.add.
  destruct (decide (0 <= rg.1)) as [Hpos|Hneg].
  - pose proof (last_index_lt_length c rg.2) as Hlen.
    destruct (drain_loop env args c rg.1 rg.2
        (Z.to_nat ((last_index c rg.2 - rg.1) / update_rate))
        (S (S (S (length (frames c))))) GConverting rg.1 (setup env args c))
      as (lf & Hd & Hdone); rewrite ?setup_next; fold rg;
      try first [done|apply next_ok_setup|unfold update_rate; lia].
    + f_equal. f_equal. lia.
    + assert ((last_index c rg.2 - rg.1) / update_rate < Z.of_nat (length (frames c))).
      { apply Z.div_lt_upper_bound; unfold update_rate; lia. }
      lia.
    + exists lf. split; [|done]. rewrite spec_events_remaining by done.
      rewrite setup_next in Hd. fold rg in Hd.
      by apply (drain_yielded env args _ GStart _ GConverting).
  - destruct (continue_loop_negative args c rg.1 rg.2 (setup env args c))
      as (lf & Hy & Hdone); [done|lia|].
    rewrite <- Hres in Hy. exists lf. split; [|done].
    unfold spec_events, update_indices. rewrite bool_decide_eq_false_2 by done.
    apply (drain_yielded env args _ GStart _ GConverting); [done|].
    by rewrite (drain_completed env args rg.1 rg.2 _ _ _ Hy).
Qed.

End export.
