(* ===== verification/PipelineCancel.v ===== *)
(** * The generator that is not resumed

    A consumer that cancels a job stops calling [next()]: the generator
    stays at the [yield] it was suspended at.  [export_processed_h264] has no
    [try]/[finally] around its loops, so the code after the loops (flush,
    [target_container.close()], [capture.cleanup()]) is not run for such a
    generator.  The invariant [suspended_ok] states what the generator holds
    at a progress event, and [drain_final] carries an invariant of [resume] to
    the state a partial run ends in. *)

From stdpp Require Import gmap.
From S2P Require Import Prelude Rounding FrameSource Encoder Resolver Pipeline Sample.
From S2P Require Import PipelineSpec PipelineLoop PipelineGen PipelineRefine.

Local Open Scope Z_scope.

Section cancel.
Context {Image : Type} `{Encoder Image E} {rnd : Rounding}.
Context (env : Env Image) (args : Args Image).
Implicit Types (l : Locals Image E) (g : GenState Image E).

(** The output container is open and the source is not released. *)
Definition holds_resources l : Prop :=
  closed (target_container l) = false /\ released (capture l) = false.

Definition suspended_ok g : Prop :=
  match g with
  | GProgress l => holds_resources l
  | _ => True
  end.

(** The state a [next()] leaves satisfies [I]. *)
Definition outcome_in (I : GenState Image E -> Prop) (o : Outcome Image E) : Prop :=
  match o with
  | Yielded _ g | Stopped g | Raised _ g => I g
  | OutOfFuel => True
  end.

Definition loop_step_in (P : Locals Image E -> Prop) (r : LoopStep Image E) : Prop :=
  match r with
  | LBreak l | LContinue l | LYield _ l | LRaise _ l => P l
  | LFuel => True
  end.

Lemma loop_iter_holds l :
  holds_resources l -> loop_step_in holds_resources (loop_iter args l).
Proof.
  intros [Hc Hr]. destruct (loop_iter_view args l) as [|fr c Hg Hi|fr c r Hg Hi Hv].
  - done.
  - apply get_frame_Some in Hg as (_ & _ & _ & _ & _ & _ & _ & Hrel).
    split; simpl; [done|congruence].
  - apply get_frame_Some in Hg as (_ & _ & _ & _ & _ & _ & _ & Hrel).
    apply report_view_locals in Hv.
    assert (holds_resources (processed args l c fr)) as Hp.
    { split; simpl; [|congruence].
      by rewrite (proj1 (container_mux_option_closed _ _)). }
    by destruct r; subst.
Qed.

Lemma run_loop_holds fuel : forall l,
  holds_resources l -> loop_step_in holds_resources (run_loop args fuel l).
Proof.
  induction fuel as [|fuel IH]; intros l Hl; simpl; [done|].
  pose proof (loop_iter_holds l Hl) as Hi.
  destruct (loop_iter args l); try done. by apply IH.
Qed.

Lemma continue_loop_holds l :
  holds_resources l -> outcome_in suspended_ok (continue_loop args l).
Proof.
  intros Hl. unfold continue_loop.
  pose proof (run_loop_holds (loop_fuel l) l Hl) as Hr.
  by destruct (run_loop args (loop_fuel l) l).
Qed.

Lemma setup_holds : holds_resources (setup env args (open_capture env args)).
Proof.
  split; [done|]. simpl. unfold open_capture, File_Source_init.
  by repeat case_match.
Qed.

Lemma resume_suspended g :
  suspended_ok g -> outcome_in suspended_ok (resume env args g).
Proof.
  destruct g as [| |c|l|l|l|e l]; simpl; try done.
  - intros _. destruct (initialised _); [|done].
    apply continue_loop_holds, setup_holds.
  - intros Hl. by apply continue_loop_holds.
Qed.

(** An invariant of [next()] holds of the state a run of any length ends
    in. *)
Lemma drain_final (I : GenState Image E -> Prop) :
  (forall g, I g -> outcome_in I (resume env args g)) ->
  forall n g, I g -> I (run_final (drain env args n g)).
Proof.
  intros Hstep. induction n as [|n IH]; intros g Hg; simpl; [done|].
  specialize (Hstep g Hg). destruct (resume env args g); simpl in *; auto.
Qed.

(** A job that is cancelled while the generator is suspended at a
    progress event leaves the output container open and the source not
    released: whatever the number of [next()] calls before the consumer
    stops, a generator that stays at such a [yield] has run neither
    [target_container.close()] nor [capture.cleanup()]. *)
Theorem cancel_at_progress_leaks n l :
  run_final (drain env args n GStart) = GProgress l ->
  closed (target_container l) = false /\ released (capture l) = false.
Proof.
  intros Hf. pose proof (drain_final suspended_ok resume_suspended n GStart I) as Hs.
  by rewrite Hf in Hs.
Qed.

End cancel.

(** The witnesses and the examples are computed in the arithmetic without
    rounding. *)
#[local] Existing Instance exact_rounding.

(** The sample job, cancelled after its first progress event. *)
Lemma cancel_at_progress_leaks_witness :
  exists l, run_final (drain demo_env demo_args 2 GStart) = GProgress l /\
    closed (target_container l) = false /\ released (capture l) = false.
Proof.
  eexists. split; [vm_compute; reflexivity|].
  apply (cancel_at_progress_leaks demo_env demo_args 2). vm_compute. reflexivity.
Defined.
