(* ===== verification/PipelineRun.v ===== *)
(** * Runs of the generator from any state

    A generator that is resumed until it stops, from any state it can be
    suspended in: what it will still yield ([remaining]) and what it
    returns ([gen_result]).  With fuel above [gen_measure] the run does not
    depend on the fuel ([drain_fuel_irrelevant]), and both are given by the
    outcome of the next [next()] ([remaining_resume], [gen_result_resume]).
    The frame loop up to the next [yield] is given by its first iteration
    ([continue_loop_unfold]). *)

From stdpp Require Import gmap.
From S2P Require Import Prelude Rounding FrameSource Encoder Resolver Pipeline Sample.
From S2P Require Import PipelineSpec PipelineLoop PipelineGen PipelineRefine.
From S2P Require Import PipelineCancel.

Local Open Scope Z_scope.

Section run.
Context {Image : Type} `{Encoder Image E} {rnd : Rounding}.
Context (env : Env Image) (args : Args Image).
Implicit Types (l : Locals Image E) (g : GenState Image E) (o : Outcome Image E)
  (ev : Event).

(** The events the generator will still yield when it is resumed until it
    stops. *)
Definition remaining g : list Event :=
  run_events (drain env args (S (gen_measure env args g)) g).

(** What a run returned: the local variables at the [return], none after
    the [return] of line 49 or when the generator has not returned. *)
Definition run_result (r : Run Image E) : option (Locals Image E) :=
  match run_final r with
  | GReturned o => o
  | _ => None
  end.

(** What the generator returns when it is resumed until it stops. *)
Definition gen_result g : option (Locals Image E) :=
  run_result (drain env args (S (gen_measure env args g)) g).

(** What is still yielded, and what is returned, after a [next()] with the
    outcome [o]. *)
Definition outcome_events o : list Event :=
  match o with
  | Yielded ev g => ev :: remaining g
  | _ => []
  end.

Definition outcome_result o : option (Locals Image E) :=
  match o with
  | Yielded _ g => gen_result g
  | Stopped (GReturned r) => r
  | _ => None
  end.

(** ** The generator between two steps *)

(** A generator that stopped stays stopped. *)
Lemma resume_stopped g g' :
  resume env args g = Stopped g' -> resume env args g' = Stopped g' /\ gen_ok env args g'.
Proof.
  destruct g as [| |c|l|l|l|e l]; simpl; try done; try (by intros [= <-]);
    unfold continue_loop; repeat case_match; done.
Qed.

(** Every [next()] keeps the invariant of the suspended generator. *)
(** A generator that stops has returned or is dead. *)
Lemma resume_stopped_final g g' :
  resume env args g = Stopped g' ->
  match g' with GReturned _ | GDead _ _ => True | _ => False end.
Proof.
  destruct g as [| |c|l|l|l|e l]; simpl; try done; try (by intros [= <-]);
    unfold continue_loop; repeat case_match; done.
Qed.

Lemma resume_gen_ok g :
  gen_ok env args g -> outcome_in (gen_ok env args) (resume env args g).
Proof.
  intros Hg%resume_resume_ok.
  destruct (resume env args g) as [ev g'|g'|e g'|] eqn:Hr; simpl in *; try done.
  - apply Hg.
  - by apply resume_stopped in Hr as [_ ?].
Qed.

(** With enough fuel the run of a generator does not depend on the fuel. *)
Lemma drain_fuel_irrelevant n : forall m g,
  gen_ok env args g ->
  (gen_measure env args g < n)%nat -> (gen_measure env args g < m)%nat ->
  drain env args n g = drain env args m g.
Proof.
  induction n as [|n IH]; intros [|m] g Hg Hn Hm; try lia. simpl.
  pose proof (resume_resume_ok env args g Hg) as Hr.
  destruct (resume env args g) as [ev g'| | |]; simpl in *; try done.
  destruct Hr as (Hg' & Hlt & _). by rewrite (IH m g') by (done || lia).
Qed.

Lemma remaining_yielded g ev g' :
  gen_ok env args g -> resume env args g = Yielded ev g' ->
  remaining g = ev :: remaining g'.
Proof.
  intros Hg Hr. pose proof (resume_resume_ok env args g Hg) as Hok.
  unfold remaining at 1. simpl. rewrite Hr in *. simpl. f_equal.
  destruct Hok as (Hg' & Hlt & _). unfold remaining.
  by rewrite (drain_fuel_irrelevant _ (S (gen_measure env args g'))) by (done || lia).
Qed.

Lemma remaining_stopped g g' : resume env args g = Stopped g' -> remaining g = [].
Proof. intros Hr. unfold remaining. simpl. by rewrite Hr. Qed.

(** What a fresh generator will yield is the events of a whole run. *)
Lemma remaining_start : remaining GStart = run_events (export_processed_h264 env args).
Proof.
  unfold remaining, export_processed_h264. f_equal.
  apply drain_fuel_irrelevant; [done|lia|apply drain_fuel_enough].
Qed.

Lemma gen_result_start : gen_result GStart = run_result (export_processed_h264 env args).
Proof.
  unfold gen_result, export_processed_h264. f_equal.
  apply drain_fuel_irrelevant; [done|lia|apply drain_fuel_enough].
Qed.

(** A run is the outcome of its first [next()]. *)
Lemma remaining_resume g :
  gen_ok env args g -> remaining g = outcome_events (resume env args g).
Proof.
  intros Hg. pose proof (resume_resume_ok env args g Hg) as Hok.
  destruct (resume env args g) as [ev g'|g'|e g'|] eqn:Hr; try done.
  - by apply remaining_yielded.
  - by eapply remaining_stopped.
Qed.

Lemma gen_result_resume g :
  gen_ok env args g -> gen_result g = outcome_result (resume env args g).
Proof.
  intros Hg. pose proof (resume_resume_ok env args g Hg) as Hok.
  unfold gen_result at 1. simpl.
  destruct (resume env args g) as [ev g'|g'|e g'|] eqn:Hr; try done. simpl in *.
  destruct Hok as (Hg' & Hlt & _). unfold gen_result, run_result. simpl.
  by rewrite (drain_fuel_irrelevant _ (S (gen_measure env args g')))
    by (done || lia).
Qed.

(** ** The frame loop by its first iteration *)

(** More fuel does not change a loop that ended. *)
Lemma run_loop_fuel n : forall m l,
  (n <= m)%nat -> run_loop args n l <> LFuel -> run_loop args m l = run_loop args n l.
Proof.
  induction n as [|n IH]; intros [|m] l Hnm Hr; try done; try lia. simpl in *.
  destruct (loop_iter args l); try done. apply IH; [lia|done].
Qed.

Lemma continue_loop_unfold l :
  next_ok l ->
  continue_loop args l
  = match loop_iter args l with
    | LBreak l' => Yielded ev_completed (GCompleted (finish l'))
    | LContinue l' => continue_loop args l'
    | LYield ev l' => Yielded ev (GProgress l')
    | LRaise e l' => Raised e (GDead e l')
    | LFuel => OutOfFuel
    end.
Proof.
  intros Hn. unfold continue_loop at 1, loop_fuel. simpl.
  pose proof (loop_iter_step_ok args l Hn) as Hs.
  destruct (loop_iter args l) as [| l' | | |] eqn:Hl; try done.
  apply loop_iter_continue in Hl as (Hlt & _). unfold continue_loop, loop_fuel.
  rewrite (run_loop_fuel (S (frames_left (capture l')))); [done|lia|].
  pose proof (run_loop_end_ok args l' (S (frames_left (capture l'))) Hs) as He.
  intros Hf. rewrite Hf in He. apply He. lia.
Qed.

End run.
