(* ===== verification/PipelineTree.v ===== *)
(** * The generator as an interaction tree

    [export_processed_h264] written after its control flow, without fuel:
    an interaction tree whose visible events are the [yield]s of the
    generator and the exception it may raise, the two [while True] loops as
    [ITree.iter], and the calls on the source, the encoder and the container
    as the functions of [FrameSource], [Encoder] and [Pipeline].  [collect]
    is the consumer that exhausts the generator: it interprets a [yield] by
    appending the event to the list of the events seen.

    The theorems relate the tree to the state machine of [Pipeline], which
    has one state per [yield] and fuel for the loops: the tree ends, for
    every recording, window, transform and encoder; it yields the events of
    the state machine's run and returns its local variables
    ([export_tree_agrees]); so it yields the specified events and leaves the
    specified output ([export_tree_correct]).  Both follow from a simulation
    of one [next()] call: [tree_at] gives the tree of the generator
    suspended in a state of the state machine, and that tree is the event
    [resume] yields followed by the tree of the state [resume] leaves
    ([tree_next_agrees]), so the two models agree at every suspension
    point, not only at the end.  The tree can be run: [burn] evaluates it
    on the sample recording. *)

From stdpp Require Import gmap.
From S2P Require Import Prelude Rounding FrameSource Encoder Resolver Pipeline Sample.
From S2P Require Import PipelineSpec PipelineLoop PipelineGen PipelineRefine.
From S2P Require Import PipelineCancel PipelineRun.
From ITree Require Import ITree ITreeFacts Events.State Events.StateFacts
  Events.Exception.

Local Open Scope Z_scope.

(** The sequence of two trees, in the notation of the development's error
    monad. *)
Declare Scope tree_scope.
Delimit Scope tree_scope with tree.
Notation "x <~ t ;; k" := (ITree.bind t (fun x => k))
  (at level 100, t at next level, right associativity) : tree_scope.
Local Open Scope tree_scope.

(** [yield status, percent] *)
Variant yieldE : Type -> Type :=
| Yield (ev : Event) : yieldE unit.

(** What the generator does to its caller: it yields or it raises. *)
Definition genE : Type -> Type := yieldE +' exceptE exn.

(** The consumer that exhausts the generator appends every event to those
    it has seen; an exception goes through. *)
Definition h_yield {F : Type -> Type}
  : yieldE ~> Monads.stateT (list Event) (itree F) :=
  fun _ e evs => match e with Yield ev => Ret (evs ++ [ev], tt) end.

Definition h_gen : genE ~> Monads.stateT (list Event) (itree (exceptE exn)) :=
  case_ h_yield pure_state.

Definition collect {R : Type} (t : itree genE R) (evs : list Event)
  : itree (exceptE exn) (list Event * R) :=
  interp_state h_gen t evs.

Section tree.
Context {Image : Type} `{Encoder Image E} {rnd : Rounding}.
Context (env : Env Image) (args : Args Image).
Implicit Types (l : Locals Image E).

(** Lines 74-99: the body of the frame loop; [inr] is a [break], [inl] the
    next iteration. *)
Definition frame_loop_body l : itree genE (Locals Image E + Locals Image E) :=
  match get_frame (capture l) with
  | None => Ret (inr l)
  | Some (frame, c) =>
      if bool_decide (export_to_index l < index frame)
      then Ret (inr (set_capture l c))
      else
        let l := encode_and_mux (store_frame args l c frame) in
        if bool_decide (next_update_idx l <= current_frame_idx (capture l)) then
          match progress (current_frame_idx (capture l)) (export_from_index l)
                  (export_to_index l) with
          | Ok p =>
              _ <~ trigger (Yield (ev_progress p));;
              Ret (inl (bump_update_idx l))
          | Raise e => throw e
          end
        else Ret (inl l)
  end.

(** Lines 102-106: the body of the flush loop. *)
Definition flush_body (sc : Stream E * Container Image)
  : itree genE (Stream E * Container Image + Stream E * Container Image) :=
  let r := stream_flush sc.1 in
  match r.2 with
  | Some packet => Ret (inl (r.1, container_mux sc.2 packet))
  | None => Ret (inr (r.1, sc.2))
  end.

(** Lines 101-110: flush the encoder, close the output, release the source,
    yield the completion event. *)
Definition finish_tree l : itree genE (option (Locals Image E)) :=
  sc <~ ITree.iter flush_body (video_stream l, target_container l);;
  let l := mkLocals (capture_cleanup (capture l)) (export_from_index l)
             (export_to_index l) (start_time l) (container_close sc.2) sc.1
             (av_frame l) (next_update_idx l) (stdout l) in
  _ <~ trigger (Yield ev_completed);;
  Ret (Some l).

(** Lines 73-110: the frame loop from the local variables [l], and what
    follows it. *)
Definition loop_tree l : itree genE (option (Locals Image E)) :=
  l' <~ ITree.iter frame_loop_body l;; finish_tree l'.

(** Lines 46-110: the generator after its first [yield]. *)
Definition open_tree : itree genE (option (Locals Image E)) :=
  let capture := open_capture env args in
  if initialised capture then loop_tree (setup env args capture)
  else
    _ <~ trigger (Yield ev_failed);;
    Ret None.

(** [export_processed_h264] (lines 38-110).  The result is the local
    variables at the end, none after the [return] of line 49. *)
Definition export_tree : itree genE (option (Locals Image E)) :=
  _ <~ trigger (Yield ev_converting);;
  open_tree.

(** What one iteration of the state machine's loop is in the tree. *)
Definition step_tree (r : LoopStep Image E)
  : itree genE (Locals Image E + Locals Image E) :=
  match r with
  | LBreak l => Ret (inr l)
  | LContinue l => Ret (inl l)
  | LYield ev l => _ <~ trigger (Yield ev);; Ret (inl (bump_update_idx l))
  | LRaise e _ => throw e
  | LFuel => ITree.spin
  end.

(** The generator suspended in the state [g] of the state machine: what is
    left of [export_tree]. *)
Definition tree_at (g : GenState Image E) : itree genE (option (Locals Image E)) :=
  match g with
  | GStart => export_tree
  | GConverting => open_tree
  | GFailed _ => Ret None
  | GProgress l => loop_tree (bump_update_idx l)
  | GCompleted l => Ret (Some l)
  | GReturned r => Ret r
  | GDead e _ => throw e
  end.

(** What the outcome of a [next()] is in the tree: the event as the next
    visible event, and the tree of the state that follows. *)
Definition outcome_tree (o : Outcome Image E)
  : itree genE (option (Locals Image E)) :=
  match o with
  | Yielded ev g => _ <~ trigger (Yield ev);; tree_at g
  | Stopped g => tree_at g
  | Raised e _ => throw e
  | OutOfFuel => ITree.spin
  end.

(** The generator has not raised. *)
Definition alive (g : GenState Image E) : Prop :=
  match g with
  | GDead _ _ => False
  | _ => gen_ok env args g
  end.

End tree.

(** The sample job suspended at its first progress event. *)
Definition demo_suspended : GenState nat (DelayEnc nat) :=
  match resume (rnd:=exact_rounding) demo_env demo_args GConverting with
  | Yielded _ g => g
  | _ => GStart
  end.

(** ** The consumer *)

#[export] Instance collect_eutt {R} :
  Proper (eutt eq ==> eq ==> eutt eq) (@collect R).
Proof. intros t u Htu evs ? <-. unfold collect. by rewrite Htu. Qed.

#[export] Instance collect_eq_itree {R} :
  Proper (eq_itree eq ==> eq ==> eq_itree eq) (@collect R).
Proof. intros t u Htu evs ? <-. unfold collect. by rewrite Htu. Qed.

Lemma collect_ret {R} (r : R) evs : collect (Ret r) evs ≅ Ret (evs, r).
Proof. unfold collect. by rewrite interp_state_ret. Qed.

Lemma collect_tau {R} (t : itree genE R) evs : collect (Tau t) evs ≈ collect t evs.
Proof. unfold collect. by rewrite interp_state_tau, tau_eutt. Qed.

Lemma collect_bind {A B} (t : itree genE A) (k : A -> itree genE B) evs :
  collect (ITree.bind t k) evs
  ≅ ITree.bind (collect t evs) (fun st => collect (k st.2) st.1).
Proof. unfold collect. rewrite interp_state_bind. reflexivity. Qed.

Lemma collect_yield ev evs :
  collect (trigger (Yield ev)) evs ≈ Ret (evs ++ [ev], tt).
Proof. unfold collect. rewrite interp_state_trigger. cbn. reflexivity. Qed.

(** A [yield] and the rest of the generator. *)
Lemma collect_yield_bind {R} ev (k : itree genE R) evs :
  collect (_ <~ trigger (Yield ev);; k) evs ≈ collect k (evs ++ [ev]).
Proof. by rewrite collect_bind, collect_yield, bind_ret_l. Qed.

(** ** The tree and the state machine *)

Section tree_proofs.
Context {Image : Type} `{Encoder Image E} {rnd : Rounding}.
Context (env : Env Image) (args : Args Image).
Implicit Types (l : Locals Image E) (g : GenState Image E).

(** The body of the tree's loop is [loop_iter]. *)
Lemma frame_loop_body_iter l : frame_loop_body args l = step_tree (loop_iter args l).
Proof.
  unfold frame_loop_body, loop_iter, report_progress. by repeat case_match.
Qed.

(** The flush loop of the tree ends as [flush_loop] does. *)
Lemma flush_tree_ok n : forall (s : Stream E) (c : Container Image),
  (length (enc_pending (codec s)) < n)%nat ->
  ITree.iter (E:=genE) flush_body (s, c) ≈ Ret (flush_loop n s c).
Proof.
  induction n as [|n IH]; intros s c Hn; [lia|].
  rewrite unfold_iter. unfold flush_body at 1. cbn [fst snd flush_loop].
  unfold stream_flush in *. simpl in *.
  destruct (enc_flush (codec s)).2 as [p|] eqn:Hp; rewrite bind_ret_l; [|reflexivity].
  rewrite tau_eutt. apply IH. simpl.
  pose proof (enc_flush_length _ _ Hp). lia.
Qed.

(** After the frame loop: the completion event, and the return. *)
Lemma finish_tree_next l :
  finish_tree l ≈ (_ <~ trigger (Yield ev_completed);; Ret (Some (finish l))).
Proof.
  unfold finish_tree.
  rewrite (flush_tree_ok (flush_fuel (video_stream l))) by (unfold flush_fuel; lia).
  by rewrite bind_ret_l.
Qed.

(** One iteration of the frame loop. *)
Lemma loop_tree_unfold l :
  loop_tree args l
  ≅ (r <~ step_tree (loop_iter args l);;
     match r with
     | inl l' => Tau (loop_tree args l')
     | inr l' => finish_tree l'
     end).
Proof.
  unfold loop_tree. rewrite unfold_iter, bind_bind, frame_loop_body_iter.
  apply eqit_bind; [reflexivity|]. intros [l'|l']; [|by rewrite bind_ret_l].
  by rewrite bind_tau.
Qed.

(** The frame loop up to its next visible event is the frame loop of the
    state machine up to its next [yield].  The induction is on the frames
    the source has left. *)
Lemma loop_tree_next k : forall l,
  (frames_left (capture l) < k)%nat -> next_ok l ->
  loop_tree args l ≈ outcome_tree env args (continue_loop args l).
Proof.
  induction k as [|k IH]; intros l Hk Hn; [lia|].
  rewrite loop_tree_unfold, (continue_loop_unfold args l Hn).
  pose proof (loop_iter_step_ok args l Hn) as Hs.
  destruct (loop_iter args l) as [l'|l'|ev l'|e l'|] eqn:Hl; simpl in Hs; try done;
    cbn [step_tree outcome_tree tree_at].
  - by rewrite bind_ret_l, finish_tree_next.
  - rewrite bind_ret_l, tau_eutt.
    apply loop_iter_continue in Hl as (Hlt & _). apply IH; [lia|done].
  - rewrite bind_bind. apply eqit_bind; [reflexivity|]. intros [].
    by rewrite bind_ret_l, tau_eutt.
Qed.

(** A generator that has not raised stays so. *)
Lemma resume_alive g :
  alive env args g -> outcome_in (alive env args) (resume env args g).
Proof.
  intros Ha. assert (gen_ok env args g) as Hg by (by destruct g).
  pose proof (resume_gen_ok env args g Hg) as Hok.
  destruct g as [| |c|l|l|r|e l]; simpl in *; try done.
  - destruct (initialised _); [|done].
    pose proof (continue_loop_ok args _ (next_ok_setup env args (open_capture env args))).
    by destruct (continue_loop args _) as [ev [| | | | | |]| | |].
  - pose proof (continue_loop_ok args _ (next_ok_bump l (proj1 Hg))).
    by destruct (continue_loop args _) as [ev [| | | | | |]| | |].
Qed.

(** One [next()], in the tree. *)
Lemma resume_tree_next g :
  gen_ok env args g -> tree_at env args g ≈ outcome_tree env args (resume env args g).
Proof.
  intros Hg. destruct g as [| |c|l|l|r|e l]; cbn [tree_at resume outcome_tree];
    try reflexivity.
  - unfold open_tree. destruct (initialised (open_capture env args)); [|reflexivity].
    eapply loop_tree_next; [apply Nat.lt_succ_diag_r|apply next_ok_setup].
  - eapply loop_tree_next; [apply Nat.lt_succ_diag_r|apply next_ok_bump, Hg].
Qed.

(** The consumer on the generator in the state [g]: by induction on the
    [next()] calls the generator still answers. *)
Lemma collect_tree_at n : forall g evs,
  (gen_measure env args g < n)%nat -> alive env args g ->
  collect (tree_at env args g) evs
  ≈ Ret (evs ++ remaining env args g, gen_result env args g).
Proof.
  induction n as [|n IH]; intros g evs Hn Ha; [lia|].
  assert (gen_ok env args g) as Hg by (by destruct g).
  rewrite (resume_tree_next g Hg), (remaining_resume env args g Hg),
    (gen_result_resume env args g Hg).
  pose proof (resume_resume_ok env args g Hg) as Hok.
  pose proof (resume_alive g Ha) as Ha'.
  destruct (resume env args g) as [ev g'|g'|e g'|] eqn:Hr; simpl in Hok, Ha'; try done;
    cbn [outcome_tree outcome_events outcome_result].
  - rewrite collect_yield_bind, IH by (done || lia). by rewrite <- (assoc_L (++)).
  - rewrite (right_id_L [] (++)). apply resume_stopped_final in Hr.
    destruct g'; try done. cbn [tree_at]. by rewrite collect_ret.
Qed.

(** The whole generator. *)
Lemma export_tree_run :
  collect (export_tree env args) []
  ≈ Ret (run_events (export_processed_h264 env args),
         run_result (export_processed_h264 env args)).
Proof.
  rewrite <- remaining_start, <- gen_result_start.
  by eapply (collect_tree_at _ GStart []); [apply Nat.lt_succ_diag_r|].
Qed.

(** C4. The tree and the state machine take the same steps.  In every state
    [g] the state machine can be suspended in, the tree of the generator
    suspended there is, up to its silent steps: the event that [next()]
    yields as its next visible event, followed by the tree of the state
    that [next()] leaves; or the return, when [next()] finds the generator
    exhausted.  A consumer that stops calling [next()] at any point
    therefore sees the same events and leaves the same rest undone on
    both. *)
Theorem tree_next_agrees g :
  gen_ok env args g ->
  tree_at env args g ≈ outcome_tree env args (resume env args g).
Proof. apply resume_tree_next. Qed.

(** C3. The tree and the state machine are two models of one generator.
    For every recording, window, transform and encoder, the interaction
    tree [export_tree], which has the loops of the source and no fuel, ends
    when a consumer exhausts it, without an exception; the events the
    consumer has collected are those of the run of the state machine, in
    order, and the tree returns the local variables the state machine ends
    with. *)
Theorem export_tree_agrees :
  collect (export_tree env args) []
  ≈ Ret (run_events (export_processed_h264 env args),
         run_result (export_processed_h264 env args)).
Proof. apply export_tree_run. Qed.

(** C5. The tree does what the specification says.  When the source
    opens, the tree ends; the consumer has collected the specified events;
    and the tree returns with the transformed frames of the resolved range
    in the output, in order and each once, the output closed, the encoder
    drained and the source released. *)
Theorem export_tree_correct :
  initialised (open_capture env args) = true ->
  exists lf,
    collect (export_tree env args) []
    ≈ Ret (spec_events (open_capture env args) (job_range env args).1
             (job_range env args).2, Some lf) /\
    muxed (target_container lf)
    = spec_packets (process_frame args) (open_capture env args)
        (job_range env args).1 (job_range env args).2 /\
    closed (target_container lf) = true /\
    enc_pending (codec (video_stream lf)) = [] /\
    released (capture lf) = true.
Proof.
  intros Hi. destruct (export_run_ok env args Hi) as (lf & Hrun & Hd).
  exists lf. split; [|by destruct Hd]. rewrite export_tree_run. by rewrite Hrun.
Qed.

End tree_proofs.

(** The witnesses and the examples are computed in the arithmetic without
    rounding. *)
#[local] Existing Instance exact_rounding.

(** ** The tree on the sample recording *)

Lemma tree_next_agrees_witness :
  tree_at demo_env demo_args demo_suspended
  ≈ outcome_tree demo_env demo_args (resume demo_env demo_args demo_suspended).
Proof. apply tree_next_agrees. by vm_compute. Defined.

Lemma export_tree_correct_witness :
  exists lf,
    collect (export_tree demo_env demo_args) []
    ≈ Ret (spec_events (open_capture demo_env demo_args)
             (job_range demo_env demo_args).1 (job_range demo_env demo_args).2,
           Some lf) /\
    muxed (target_container lf)
    = spec_packets (process_frame demo_args) (open_capture demo_env demo_args)
        (job_range demo_env demo_args).1 (job_range demo_env demo_args).2 /\
    closed (target_container lf) = true /\
    enc_pending (codec (video_stream lf)) = [] /\
    released (capture lf) = true.
Proof. apply export_tree_correct. by vm_compute. Defined.

(** Running the tree: within 100 silent steps the tree has returned, the
    consumer holds the four events of the sample job, which are those of the
    state machine, and the output holds the 25 frames of the range. *)
Example export_tree_sample :
  match observe (burn 100 (collect (export_tree demo_env demo_args) [])) with
  | RetF (evs, Some lf) =>
      evs = run_events (export_processed_h264 demo_env demo_args) /\
      evs.*1 = ["Converting video"; "Converting video"; "Converting video";
                "Converting video completed"]%string /\
      length (muxed (target_container lf)) = 25%nat
  | _ => False
  end.
Proof. by vm_compute. Qed.
