(* ===== verification/PipelineConfig.v ===== *)
(** * The configuration of the output

    Lines 61-69 of [export_processed_h264] configure the output stream and
    the frame buffer once, before the frame loop, and line 55 prints the
    range.  Two states of the local variables have the [same_config] when
    they agree on these settings, on the range and on what was printed; this
    is an equivalence that every operation of the
    generator respects, so the configuration the set-up chose is the
    configuration of the stream when the generator returns. *)

From stdpp Require Import gmap.
From S2P Require Import Prelude Rounding FrameSource Encoder Resolver Pipeline Sample.
From S2P Require Import PipelineSpec PipelineLoop PipelineGen PipelineRefine.
From S2P Require Import PipelineCancel.

Local Open Scope Z_scope.

Section config.
Context {Image : Type} `{Encoder Image E} {rnd : Rounding}.
Implicit Types (l : Locals Image E) (s : Stream E) (f : VideoFrame Image)
  (g : GenState Image E).

(** The settings of a stream: everything but the state of its codec. *)
Definition settings s
  : string * Q * option Q * option Q * option Z * option Z * option Z :=
  (codec_name s, rate s, bit_rate s, bit_rate_tolerance s, thread_count s,
   width s, height s).

(** The layout of a frame buffer: everything but the picture and the
    [pts]. *)
Definition layout f : Z * Z * string * option Q :=
  (vfr_width f, vfr_height f, vfr_format f, vfr_time_base f).

Definition same_config l l' : Prop :=
  settings (video_stream l) = settings (video_stream l') /\
  layout (av_frame l) = layout (av_frame l') /\
  export_from_index l = export_from_index l' /\
  export_to_index l = export_to_index l' /\
  stdout l = stdout l'.

#[export] Instance same_config_equiv : Equivalence same_config.
Proof.
  split.
  - by intros l.
  - by intros l l' (? & ? & ? & ? & ?).
  - intros l1 l2 l3 (? & ? & ? & ? & ?) (? & ? & ? & ? & ?).
    split_and!; congruence.
Qed.

#[export] Instance bump_update_idx_config :
  Proper (same_config ==> same_config) bump_update_idx.
Proof. by intros l l' Hl. Qed.

Lemma bump_update_idx_same l : same_config l (bump_update_idx l).
Proof. done. Qed.

Lemma flush_loop_settings fuel : forall s (c : Container Image),
  settings (flush_loop fuel s c).1 = settings s.
Proof.
  induction fuel as [|fuel IH]; intros s c; simpl; [done|].
  destruct (enc_flush (codec s)).2; [|done]. by rewrite IH.
Qed.

Lemma finish_same l : same_config l (finish l).
Proof.
  split_and!; try done. unfold finish. cbn [video_stream].
  by rewrite flush_loop_settings.
Qed.

Lemma loop_iter_same (args : Args Image) l :
  loop_step_in (same_config l) (loop_iter args l).
Proof.
  destruct (loop_iter_view args l) as [|fr c Hg Hi|fr c r Hg Hi Hv]; [done..|].
  apply report_view_locals in Hv. by destruct r; subst.
Qed.

Lemma run_loop_same (args : Args Image) fuel : forall l,
  loop_step_in (same_config l) (run_loop args fuel l).
Proof.
  induction fuel as [|fuel IH]; intros l; simpl; [done|].
  pose proof (loop_iter_same args l) as Hi.
  destruct (loop_iter args l) as [| l' | | |]; try done. simpl in Hi.
  pose proof (IH l') as Hr. destruct (run_loop args fuel l'); simpl in *;
    try done; by etrans.
Qed.

Context (env : Env Image) (args : Args Image).

(** The local variables of the generator have the configuration of [l0]. *)
Definition config_of l0 g : Prop :=
  match g with
  | GProgress l | GCompleted l | GReturned (Some l) | GDead _ l => same_config l0 l
  | _ => True
  end.

(** The generator has the configuration of the set-up. *)
Definition config_ok g : Prop :=
  config_of (setup env args (open_capture env args)) g.

Lemma continue_loop_config l0 l :
  same_config l0 l -> outcome_in (config_of l0) (continue_loop args l).
Proof.
  intros Hl. unfold continue_loop.
  pose proof (run_loop_same args (loop_fuel l) l) as Hr.
  destruct (run_loop args (loop_fuel l) l) as [l'|l'|ev l'|e l'|]; simpl in *;
    try done; try (by etrans).
  etrans; [done|]. etrans; [done|]. apply finish_same.
Qed.

Lemma resume_config g : config_ok g -> outcome_in config_ok (resume env args g).
Proof.
  destruct g as [| |c|l|l|[l|]|e l]; simpl; try done.
  - intros _. destruct (initialised _); [|done]. by apply continue_loop_config.
  - intros Hl. apply continue_loop_config. by rewrite <- (bump_update_idx_same l).
Qed.

(** The settings the set-up chooses (lines 61-69) and the line it prints
    (line 55). *)
Lemma setup_settings (c : File_Source Image) :
  settings (video_stream (setup env args c))
  = ("mpeg4"%string, 65535%Q, Some 150e6%Q, Some (150e6 / 20)%Q,
     Some (Z.max 1 (env_cpu_count env - 1)), Some (frame_size c).1,
     Some (frame_size c).2) /\
  layout (av_frame (setup env args c))
  = ((frame_size c).1, (frame_size c).2, "bgr24"%string, Some (1 # 65535)%Q) /\
  stdout (setup env args c)
  = [(export_range args, (resolve_range args c).1, (resolve_range args c).2)].
Proof. done. Qed.

End config.
