(* ===== verification/PipelineCorrect.v ===== *)
(** * Correctness of [export_processed_h264]

    The theorems on the pipeline as a whole.  The first states the
    refinement: the events of a run and the packets in its output are those
    of the specification of [PipelineSpec].  The others are the properties
    the specification promises of a job (section 8), each derived from the
    refinement and a lemma on the specification: the number of exported
    frames, the presentation timestamp of the first frame, the order of the
    timestamps and of the percentages, the number of events, the last event,
    the empty window, the settings of the stream, and the release of the
    resources. *)

From stdpp Require Import gmap.
From S2P Require Import Prelude Rounding FrameSource Encoder Resolver Pipeline Sample.
From S2P Require Import PipelineSpec PipelineLoop PipelineGen PipelineRefine.
From S2P Require Import PipelineCancel PipelineConfig.

Local Open Scope Z_scope.

Section correct.
Context {Image : Type} `{Encoder Image E} {rnd : Rounding}.
Context (env : Env Image) (args : Args Image).

(** The output of a job whose source opens. *)
Lemma run_output_ok :
  initialised (open_capture env args) = true ->
  run_output (export_processed_h264 env args)
  = Some (spec_packets (process_frame args) (open_capture env args)
            (job_range env args).1 (job_range env args).2).
Proof.
  intros Hi. destruct (export_run_ok env args Hi) as (lf & -> & Hd).
  unfold run_output. simpl. by rewrite (out_muxed _ _ _ _ _ Hd).
Qed.

Lemma run_events_ok :
  initialised (open_capture env args) = true ->
  run_events (export_processed_h264 env args)
  = spec_events (open_capture env args) (job_range env args).1 (job_range env args).2.
Proof. intros Hi. by destruct (export_run_ok env args Hi) as (lf & -> & Hd). Qed.

(** The events of a job, whether its source opens or not. *)
Lemma run_events_expected :
  run_events (export_processed_h264 env args) = expected_events env args.
Proof.
  unfold expected_events. destruct (initialised (open_capture env args)) eqn:Hi.
  - by apply run_events_ok.
  - by rewrite missing_source_run.
Qed.

(** The packets of a run are those of the specification, whether the source
    opens or not. *)
Lemma run_output_expected :
  run_output (export_processed_h264 env args) = expected_output env args.
Proof.
  unfold expected_output. destruct (initialised (open_capture env args)) eqn:Hi.
  - by rewrite run_output_ok.
  - by rewrite missing_source_run.
Qed.

(** C1. Refinement: for every recording, window, transform and encoder, the
    events the generator yields are the specified ones (the liveness event,
    one progress event per [update_rate] exported frames, the completion
    event; or the liveness and the failure event when the source does not
    open), and the packets muxed into the output are the transformed frames of
    the resolved range in order, each once, whatever the encoder held back. *)
Theorem export_refines_spec :
  run_events (export_processed_h264 env args) = expected_events env args /\
  run_output (export_processed_h264 env args) = expected_output env args.
Proof. split; [apply run_events_expected|apply run_output_expected]. Qed.

(** C6. Frame count: when the resolved range lies inside the source, the
    output holds exactly [export_to_index - export_from_index + 1] frames. *)
Theorem export_frame_count :
  initialised (open_capture env args) = true ->
  0 <= (job_range env args).1 <= (job_range env args).2 ->
  (job_range env args).2 < Z.of_nat (length (frames (open_capture env args))) ->
  exists packets,
    run_output (export_processed_h264 env args) = Some packets /\
    Z.of_nat (length packets) = (job_range env args).2 - (job_range env args).1 + 1.
Proof.
  intros Hi Hr Hl. eexists. split; [by apply run_output_ok|].
  rewrite spec_packets_length by lia. unfold last_index. lia.
Qed.

(** C7. The first frame of the output has presentation timestamp 0,
    wherever the window lies in the recording and whatever the arithmetic
    rounds: the time origin is the timestamp of that frame (lines 79-80),
    and the difference of a number with itself is 0. *)
Theorem export_first_pts_zero :
  initialised (open_capture env args) = true ->
  0 <= (job_range env args).1 <= (job_range env args).2 ->
  (job_range env args).1 < Z.of_nat (length (frames (open_capture env args))) ->
  exists p ps,
    run_output (export_processed_h264 env args) = Some (p :: ps) /\ pkt_pts p = Some 0.
Proof.
  intros Hi Hr Hl. rewrite run_output_ok by done.
  destruct (spec_packets_head (process_frame args) (open_capture env args)
              (job_range env args).1 (job_range env args).2)
    as (f0 & ps & _ & ->); [unfold last_index; lia|].
  by eexists _, _.
Qed.

(** C16. The percentages of a job whose source opens never decrease. *)
Theorem export_events_monotone :
  initialised (open_capture env args) = true ->
  nondecreasing (snd <$> run_events (export_processed_h264 env args)).
Proof. intros Hi. rewrite run_events_ok by done. apply spec_events_nondecreasing. Qed.

(** C34. The first event of a job is the liveness event and, when the source
    opens, its last event is the completion event at exactly 100 percent. *)
Theorem export_last_event :
  initialised (open_capture env args) = true ->
  head (run_events (export_processed_h264 env args))
  = Some ("Converting video"%string, 0.1%Q) /\
  last (run_events (export_processed_h264 env args))
  = Some ("Converting video completed"%string, 100%Q).
Proof.
  intros Hi. rewrite run_events_ok by done. split; [done|].
  by rewrite spec_events_last.
Qed.

(** C12. Natural completion releases everything: the generator returns with
    the encoder drained, the container closed and the source released. *)
Theorem export_releases_resources :
  initialised (open_capture env args) = true ->
  exists lf,
    run_final (export_processed_h264 env args) = GReturned (Some lf) /\
    enc_pending (codec (video_stream lf)) = [] /\
    closed (target_container lf) = true /\
    cont_file (target_container lf) = target_video_loc args /\
    released (capture lf) = true.
Proof.
  intros Hi. destruct (export_run_ok env args Hi) as (lf & -> & Hd).
  exists lf. split; [done|]. by destruct Hd.
Qed.

(** The encoder is never given the frame buffer before a picture and a
    presentation timestamp were written into it: every packet of the output
    has both. *)
Theorem export_packets_filled packets :
  run_output (export_processed_h264 env args) = Some packets ->
  Forall (fun p => is_Some (pkt_data p) /\ is_Some (pkt_pts p)) packets.
Proof.
  destruct (initialised (open_capture env args)) eqn:Hi.
  - rewrite run_output_ok by done. intros [= <-]. apply spec_packets_filled.
  - by rewrite missing_source_run.
Qed.

(** C33. A window that resolves to the empty range (no recording timestamp
    inside it, or a window that does not meet the span of the source) is not
    an error: the job exports no frame and completes at 100 percent. *)
Theorem export_empty_window :
  initialised (open_capture env args) = true ->
  job_range env args = empty_range ->
  run_events (export_processed_h264 env args) = [ev_converting; ev_completed] /\
  run_output (export_processed_h264 env args) = Some [].
Proof.
  intros Hi Hr. rewrite run_events_ok, run_output_ok, Hr by done.
  by rewrite spec_events_empty, spec_packets_empty.
Qed.

(** C17. When the timestamps of the source never decrease, the presentation
    timestamps of the output never decrease and none is negative: the
    frames are written in the order of the source.  This holds in every
    arithmetic whose rounding is monotone ([RoundingMono]), as the roundings
    of IEEE 754 are. *)
Theorem export_pts_monotone `{!RoundingMono} packets (i j : nat) p q :
  nondecreasing (timestamps (open_capture env args)) ->
  run_output (export_processed_h264 env args) = Some packets ->
  (i <= j)%nat -> packets !! i = Some p -> packets !! j = Some q ->
  exists a b, pkt_pts p = Some a /\ pkt_pts q = Some b /\ 0 <= a <= b.
Proof.
  intros Hts Ho Hij Hp Hq. destruct (initialised (open_capture env args)) eqn:Hi.
  - rewrite run_output_ok in Ho by done. injection Ho as <-.
    by eapply spec_packets_pts_mono.
  - by rewrite missing_source_run in Ho.
Qed.

(** C23. The output is encoded as lines 61-69 configure it: when the
    generator returns, the stream is an mpeg4 stream at 65535 ticks per
    second with the bit rate 150e6 and a twentieth of it as tolerance, it
    uses all CPUs but one and at least one thread, its dimensions and those
    of the frame buffer are the dimensions of the source, and the frame
    buffer is bgr24 with the time base 1/65535.  Nothing in the loops
    changes these settings, and the only line the job prints is the window
    with the range it resolved to (line 55). *)
Theorem export_stream_settings :
  initialised (open_capture env args) = true ->
  exists lf,
    run_final (export_processed_h264 env args) = GReturned (Some lf) /\
    settings (video_stream lf)
    = ("mpeg4"%string, 65535%Q, Some 150e6%Q, Some (150e6 / 20)%Q,
       Some (Z.max 1 (env_cpu_count env - 1)),
       Some (frame_size (open_capture env args)).1,
       Some (frame_size (open_capture env args)).2) /\
    layout (av_frame lf)
    = ((frame_size (open_capture env args)).1,
       (frame_size (open_capture env args)).2, "bgr24"%string,
       Some (1 # 65535)%Q) /\
    stdout lf = [(export_range args, (job_range env args).1, (job_range env args).2)].
Proof.
  intros Hi. destruct (export_run_ok env args Hi) as (lf & Hrun & _).
  pose proof (drain_final env args (config_ok env args) (resume_config env args)
                (drain_fuel env args) GStart I) as Hc.
  unfold export_processed_h264 in *. rewrite Hrun in Hc.
  destruct Hc as (Hs & Hl & _ & _ & Ho).
  exists lf. rewrite Hrun, <- Hs, <- Hl, <- Ho. split; [done|]. apply setup_settings.
Qed.

Lemma run_events_bound :
  Z.of_nat (length (run_events (export_processed_h264 env args)))
  <= 2 + Z.of_nat (length (frames (open_capture env args))) / update_rate.
Proof.
  rewrite run_events_expected. unfold expected_events.
  destruct (initialised (open_capture env args)).
  - rewrite spec_events_length.
    pose proof (update_indices_length (open_capture env args)
                  (job_range env args).1 (job_range env args).2). lia.
  - assert (0 <= Z.of_nat (length (frames (open_capture env args))) / update_rate)
      by (apply Z.div_pos; unfold update_rate; lia). simpl. lia.
Qed.

(** The throttle of line 93 bounds the number of events: a job yields
    at most one event per [update_rate] frames of the source, beside the
    liveness event and the terminal event. *)
Theorem export_event_bound :
  Z.of_nat (length (run_events (export_processed_h264 env args)))
  <= 2 + Z.of_nat (length (frames (open_capture env args))) / update_rate.
Proof. apply run_events_bound. Qed.

End correct.

(** ** What the output depends on *)

Section independent.
Context {Image E E' : Type} (enc : Encoder Image E) (enc' : Encoder Image E')
  {rnd : Rounding}.

(** The source the job opens is the file its arguments name. *)
Lemma open_capture_ext (env env' : Env Image) (args : Args Image) :
  env_files env !! unprocessed_video_loc args
  = env_files env' !! unprocessed_video_loc args ->
  open_capture env args = open_capture env' args.
Proof. unfold open_capture, File_Source_init. by intros ->. Qed.

(** C22. The export is deterministic, and its result depends on the machine
    only through the source file: two runs with the same arguments on
    machines that hold the same source file yield the same events and write
    the same packets, whatever the number of CPUs, the other files, and the
    encoder's choice of how many frames it holds back, when both compute in
    the same arithmetic. *)
Theorem export_deterministic (env env' : Env Image) (args : Args Image) :
  env_files env !! unprocessed_video_loc args
  = env_files env' !! unprocessed_video_loc args ->
  run_events (export_processed_h264 (E:=E) env args)
  = run_events (export_processed_h264 (E:=E') env' args) /\
  run_output (export_processed_h264 (E:=E) env args)
  = run_output (export_processed_h264 (E:=E') env' args).
Proof.
  intros Hf%open_capture_ext.
  rewrite !run_events_expected, !run_output_expected.
  unfold expected_events, expected_output, job_range. by rewrite Hf.
Qed.

End independent.

(** The witnesses and the examples are computed in the arithmetic without
    rounding. *)
#[local] Existing Instance exact_rounding.
#[local] Existing Instance exact_rounding_mono.

(** ** The theorems on a sample recording

    [demo_env] and [demo_args] of [Sample]. *)

Lemma sample_range : job_range demo_env demo_args = (2, 26).
Proof. vm_compute. reflexivity. Qed.

Lemma sample_opens :
  initialised (open_capture demo_env demo_args) = true.
Proof. vm_compute. reflexivity. Qed.

Lemma export_frame_count_witness :
  exists packets,
    run_output (export_processed_h264 demo_env demo_args) = Some packets /\
    Z.of_nat (length packets)
    = (job_range demo_env demo_args).2
      - (job_range demo_env demo_args).1 + 1.
Proof.
  apply export_frame_count;
    [exact sample_opens|rewrite sample_range; simpl; lia|rewrite sample_range].
  vm_compute. reflexivity.
Defined.

Lemma export_first_pts_zero_witness :
  exists p ps,
    run_output (export_processed_h264 demo_env demo_args) = Some (p :: ps) /\
    pkt_pts p = Some 0.
Proof.
  apply export_first_pts_zero;
    [exact sample_opens|rewrite sample_range; simpl; lia|rewrite sample_range].
  vm_compute. reflexivity.
Defined.

Lemma export_events_monotone_witness :
  nondecreasing (snd <$> run_events (export_processed_h264 demo_env demo_args)).
Proof. apply export_events_monotone. exact sample_opens. Defined.

Lemma export_last_event_witness :
  head (run_events (export_processed_h264 demo_env demo_args))
  = Some ("Converting video"%string, 0.1%Q) /\
  last (run_events (export_processed_h264 demo_env demo_args))
  = Some ("Converting video completed"%string, 100%Q).
Proof. apply export_last_event. exact sample_opens. Defined.

Lemma export_releases_resources_witness :
  exists lf,
    run_final (export_processed_h264 demo_env demo_args) = GReturned (Some lf) /\
    enc_pending (codec (video_stream lf)) = [] /\
    closed (target_container lf) = true /\
    cont_file (target_container lf) = target_video_loc demo_args /\
    released (capture lf) = true.
Proof. apply export_releases_resources. exact sample_opens. Defined.

(** The packets of the sample run. *)
Definition sample_packets : list (Packet nat) :=
  default [] (run_output (export_processed_h264 demo_env demo_args)).

Lemma sample_output :
  run_output (export_processed_h264 demo_env demo_args) = Some sample_packets.
Proof. vm_compute. reflexivity. Qed.

Lemma export_packets_filled_witness :
  Forall (fun p => is_Some (pkt_data p) /\ is_Some (pkt_pts p)) sample_packets.
Proof.
  apply (export_packets_filled demo_env demo_args). exact sample_output.
Defined.

Lemma export_empty_window_witness :
  run_events (export_processed_h264 demo_env (sample_args 8.2 8.8))
  = [ev_converting; ev_completed] /\
  run_output (export_processed_h264 demo_env (sample_args 8.2 8.8)) = Some [].
Proof. apply export_empty_window; vm_compute; reflexivity. Defined.

Lemma sample_timestamps :
  nondecreasing (timestamps (open_capture demo_env demo_args)).
Proof. apply nondecreasingb_sound. vm_compute. reflexivity. Qed.

(** The packet at position [n] of the sample output. *)
Definition sample_packet (n : nat) : Packet nat :=
  default (mkPacket None None) (sample_packets !! n).

Lemma export_pts_monotone_witness :
  exists a b,
    pkt_pts (sample_packet 3) = Some a /\
    pkt_pts (sample_packet 7) = Some b /\ 0 <= a <= b.
Proof.
  apply (export_pts_monotone demo_env demo_args sample_packets 3 7);
    [exact sample_timestamps|exact sample_output|lia|by vm_compute..].
Defined.

Lemma export_stream_settings_witness :
  exists lf,
    run_final (export_processed_h264 demo_env demo_args) = GReturned (Some lf) /\
    settings (video_stream lf)
    = ("mpeg4"%string, 65535%Q, Some 150e6%Q, Some (150e6 / 20)%Q,
       Some (Z.max 1 (env_cpu_count demo_env - 1)),
       Some (frame_size (open_capture demo_env demo_args)).1,
       Some (frame_size (open_capture demo_env demo_args)).2) /\
    layout (av_frame lf)
    = ((frame_size (open_capture demo_env demo_args)).1,
       (frame_size (open_capture demo_env demo_args)).2, "bgr24"%string,
       Some (1 # 65535)%Q) /\
    stdout lf = [(export_range demo_args, (job_range demo_env demo_args).1,
                  (job_range demo_env demo_args).2)].
Proof. apply export_stream_settings. exact sample_opens. Defined.

(** The sample machine with one CPU and a second video, and an encoder that
    holds nothing back. *)
Definition other_env : Env nat :=
  mkEnv {[ "world.mp4"%string := sample_video 30; "eye0.mp4"%string := sample_video 5 ]} 1.

Lemma export_deterministic_witness :
  run_events (export_processed_h264 (H:=delay_encoder 2) demo_env demo_args)
  = run_events (export_processed_h264 (H:=delay_encoder 0) other_env demo_args) /\
  run_output (export_processed_h264 (H:=delay_encoder 2) demo_env demo_args)
  = run_output (export_processed_h264 (H:=delay_encoder 0) other_env demo_args).
Proof. apply export_deterministic. by vm_compute. Defined.
