(* ===== verification/PipelineWindow.v ===== *)
(** * The window and the range

    Lines 51-54 of [export_processed_h264] resolve the window into a range of
    frame indices.  With the correctness of the resolver ([ResolverProofs])
    and the refinement ([PipelineCorrect]): the range is well formed, it
    leaves out no frame of the window, and the output holds every frame of
    the window. *)

From stdpp Require Import gmap.
From S2P Require Import Prelude Rounding FrameSource Encoder Resolver ResolverProofs.
From S2P Require Import Pipeline Sample PipelineSpec PipelineLoop PipelineGen.
From S2P Require Import PipelineRefine PipelineCorrect.

Local Open Scope Z_scope.

Section window.
Context {Image : Type} `{Encoder Image E} {rnd : Rounding}.
Context (env : Env Image) (args : Args Image).

(** The frame at the start of a range that is not empty exists, and a frame
    of the window has its index in the range. *)
Lemma resolve_range_in_source (c : File_Source Image) a b j fr :
  nondecreasing (timestamps c) ->
  exact_window (world_timestamps args) (export_range args) = Some (a, b) ->
  resolve_range args c <> empty_range ->
  frame_at c j = Some fr -> (a <= timestamp fr <= b)%Q ->
  exists f0, frame_at c (resolve_range args c).1 = Some f0 /\
    (resolve_range args c).1 <= j <= (resolve_range args c).2.
Proof.
  unfold resolve_range. intros Hs -> Hne Hfr Hx.
  pose proof (frame_at_timestamp _ _ _ Hfr) as Hts.
  apply frame_at_Some in Hfr as [_ Hl%zlookup_lt_Some].
  assert (timestamps c !!z j = Some (timestamp fr)) as Hj
    by (apply zlookup_Some; split; [lia|done]).
  pose proof (find_closest_covers _ a b j _ Hs Hne Hj Hx) as Hc.
  destruct (find_closest_range (timestamps c) (Some (a, b))) as [|[Hr _]]; [done|].
  unfold timestamps in Hr. rewrite length_fmap in Hr.
  destruct (frame_at_is_Some c _ Hr) as [f0 Hf0]. by exists f0.
Qed.

(** The window as the resolver sees it: the first and the last recording
    timestamp inside [export_range]. *)
Definition job_window : option (Q * Q) :=
  exact_window (world_timestamps args) (export_range args).

(** C20. The resolved range leaves out no frame of the window: when the
    timestamps of the source never decrease, every source frame whose
    timestamp lies between the boundary timestamps of the window, the
    boundaries included, has its index in the range. *)
Theorem resolve_range_covers_window (c : File_Source Image) a b j x :
  nondecreasing (timestamps c) -> job_window = Some (a, b) ->
  resolve_range args c <> empty_range ->
  timestamps c !!z j = Some x -> (a <= x <= b)%Q ->
  (resolve_range args c).1 <= j <= (resolve_range args c).2.
Proof.
  unfold resolve_range, job_window. intros Hs -> Hne Hj Hx.
  by apply (find_closest_covers (timestamps c) a b j x).
Qed.

(** C8. No frame of the window is missing from the output: under the same
    hypotheses the output holds, at the position of the frame in the range,
    the transformed picture of every source frame whose timestamp lies
    inside the window. *)
Theorem export_covers_window a b j fr :
  initialised (open_capture env args) = true ->
  nondecreasing (timestamps (open_capture env args)) ->
  job_window = Some (a, b) -> job_range env args <> empty_range ->
  frame_at (open_capture env args) j = Some fr -> (a <= timestamp fr <= b)%Q ->
  exists packets p,
    run_output (export_processed_h264 env args) = Some packets /\
    packets !! Z.to_nat (j - (job_range env args).1) = Some p /\
    pkt_data p
    = Some (process_frame args (capture_at (open_capture env args) j) fr).
Proof.
  intros Hi Hs Hw Hne Hfr Hx. set (c := open_capture env args) in *.
  destruct (resolve_range_in_source c a b j fr) as (f0 & Hf0 & Hj); [done..|].
  eexists _, _. split; [by apply run_output_ok|].
  split; [by apply (spec_packets_frame _ _ _ _ _ f0 fr)|done].
Qed.

(** C21. The range of lines 51-54 is well formed: over a recording and a
    source whose timestamps never decrease, it is the empty range or a pair
    [export_from_index <= export_to_index] of indices of source frames. *)
Theorem resolve_range_well_formed (c : File_Source Image) :
  nondecreasing (world_timestamps args) -> nondecreasing (timestamps c) ->
  resolve_range args c = empty_range \/
  0 <= (resolve_range args c).1 <= (resolve_range args c).2 /\
  (resolve_range args c).2 < Z.of_nat (length (frames c)).
Proof.
  intros Hw Hs. unfold resolve_range.
  destruct (exact_window _ _) as [[a b]|] eqn:Hwin; [|by left].
  apply exact_window_ordered in Hwin; [|done].
  destruct (find_closest_ordered (timestamps c) a b Hs Hwin) as [|Hr]; [by left|].
  right. assert (length (timestamps c) = length (frames c)) as <-; [|done].
  apply length_fmap.
Qed.

End window.

(** The witnesses and the examples are computed in the arithmetic without
    rounding. *)
#[local] Existing Instance exact_rounding.

(** ** The theorems on the sample recording *)

Lemma resolve_range_covers_window_witness :
  (resolve_range demo_args (open_capture demo_env demo_args)).1 <= 5
  <= (resolve_range demo_args (open_capture demo_env demo_args)).2.
Proof.
  eapply (resolve_range_covers_window demo_args _ _ _ 5);
    [exact sample_timestamps|by vm_compute|by vm_compute|by vm_compute|].
  split; apply Qle_bool_iff; by vm_compute.
Defined.

Lemma export_covers_window_witness :
  exists packets p,
    run_output (export_processed_h264 demo_env demo_args) = Some packets /\
    packets !! Z.to_nat (5 - (job_range demo_env demo_args).1) = Some p /\
    pkt_data p
    = Some (process_frame demo_args (capture_at (open_capture demo_env demo_args) 5)
              (mkFrame 5 (sample_ts 5) 5%nat)).
Proof.
  eapply (export_covers_window demo_env demo_args _ _ 5);
    [exact sample_opens|exact sample_timestamps|by vm_compute|by vm_compute|
     by vm_compute|].
  split; apply Qle_bool_iff; by vm_compute.
Defined.

Lemma sample_world_timestamps : nondecreasing (world_timestamps demo_args).
Proof. apply nondecreasingb_sound. vm_compute. reflexivity. Qed.

Lemma resolve_range_well_formed_witness :
  resolve_range demo_args (open_capture demo_env demo_args) = empty_range \/
  0 <= (resolve_range demo_args (open_capture demo_env demo_args)).1
    <= (resolve_range demo_args (open_capture demo_env demo_args)).2 /\
  (resolve_range demo_args (open_capture demo_env demo_args)).2
    < Z.of_nat (length (frames (open_capture demo_env demo_args))).
Proof.
  apply resolve_range_well_formed;
    [exact sample_world_timestamps|exact sample_timestamps].
Defined.
