(* ===== verification/PipelinePts.v ===== *)
(** * Presentation timestamps

    Line 87 of [export_processed_h264] gives a frame the presentation
    timestamp [int((frame.timestamp - start_time) / time_base)]: the time
    since the first exported frame in ticks of 1/65535 second, computed in
    floats and rounded toward zero.  This file states how well the ticks
    stand for the time in every arithmetic that follows the standard model
    of rounding ([Rounding]): the timestamp of a frame is the tick the frame
    lies in, the tick before or the tick after; frames at least three ticks
    apart get increasing timestamps; and frames at most half a tick after
    the first one get the timestamp 0 of the first one.  A tick is about 15
    microseconds.  In exact arithmetic the timestamp is the tick the frame
    lies in ([frame_pts_accurate]); binary64 can give the tick after it
    ([PipelineFloat]). *)

From stdpp Require Import gmap.
From S2P Require Import Prelude Rounding FrameSource Encoder Resolver Pipeline Sample.
From S2P Require Import PipelineSpec PipelineLoop PipelineGen PipelineRefine.
From S2P Require Import PipelineCorrect.

Local Open Scope Z_scope.

(** The recording fits the precision of the arithmetic: from its first to
    its last timestamp there are fewer ticks than a quarter of the inverse
    of the unit roundoff (in binary64, 2 ^ 51 ticks: more than a thousand
    years). *)
Definition fits_precision {rnd : Rounding} (ts : list Q) : Prop :=
  forall a b, head ts = Some a -> last ts = Some b ->
    (4 * unit_roundoff * ((b - a) / time_base) < 1)%Q.

(** ** The arithmetic of line 87 *)

(** In exact arithmetic the truncation loses less than one tick. *)
Lemma frame_pts_accurate start t :
  (start <= t)%Q ->
  (inject_Z (frame_pts t start) * time_base <= t - start
   < (inject_Z (frame_pts t start) + 1) * time_base)%Q.
Proof.
  intros Ht. unfold frame_pts. rewrite ticks_per_second.
  destruct (Qtrunc_bounds ((t - start) * 65535)) as [Hl Hu]; [lra|].
  unfold time_base. split; lra.
Qed.

(** A time that lies in the tick [z] lies in the ticks around [r], when [r]
    is at most one tick from [z]. *)
Lemma ticks_near (z r : Z) (d : Q) :
  z - 1 <= r <= z + 1 ->
  (inject_Z z * time_base <= d < (inject_Z z + 1) * time_base)%Q ->
  ((inject_Z r - 1) * time_base <= d < (inject_Z r + 2) * time_base)%Q.
Proof.
  intros [Hlo Hhi] [Hl Hu].
  assert (inject_Z r <= inject_Z z + 1)%Q as H1.
  { change 1%Q with (inject_Z 1). rewrite <- inject_Z_plus, <- Zle_Qle. lia. }
  assert (inject_Z z <= inject_Z r + 1)%Q as H2.
  { change 1%Q with (inject_Z 1). rewrite <- inject_Z_plus, <- Zle_Qle. lia. }
  unfold time_base in *. split; nra.
Qed.

Section pts.
Context {Image : Type} `{Encoder Image E} {rnd : Rounding}.
Context (env : Env Image) (args : Args Image).

(** The frame behind the packet at position [n] of the output: the
    timestamp [t0] of the first exported frame, the timestamp [t] of the
    frame [n] places after it, and the presentation timestamp
    [frame_pts_rnd t t0]. *)
Lemma run_output_lookup packets (n : nat) p :
  run_output (export_processed_h264 env args) = Some packets ->
  packets !! n = Some p ->
  exists t0 t,
    0 <= (job_range env args).1 /\
    timestamps (open_capture env args) !! Z.to_nat (job_range env args).1 = Some t0 /\
    timestamps (open_capture env args) !! (Z.to_nat (job_range env args).1 + n)%nat
    = Some t /\
    pkt_pts p = Some (frame_pts_rnd t t0).
Proof.
  intros Ho Hp. destruct (initialised (open_capture env args)) eqn:Hi.
  - rewrite run_output_ok in Ho by done. injection Ho as <-.
    apply spec_packets_lookup in Hp as (f0 & fr & Hf0 & Hfr & ->).
    apply frame_at_Some in Hf0 as Hfrom. destruct Hfrom as [_ [Hfrom _]%zlookup_Some].
    apply frame_at_timestamp in Hf0, Hfr. rewrite Z2Nat.inj_add, Nat2Z.id in Hfr by lia.
    by eexists _, _.
  - by rewrite missing_source_run in Ho.
Qed.

(** Two timestamps of a recording that fits the precision are fewer ticks
    apart than the arithmetic can count. *)
Lemma fits_precision_lookup (ts : list Q) (i j : nat) x y :
  nondecreasing ts -> fits_precision ts -> (i <= j)%nat ->
  ts !! i = Some x -> ts !! j = Some y ->
  (x <= y)%Q /\ (4 * unit_roundoff * ((y - x) / time_base) < 1)%Q.
Proof.
  intros Hts Hfit Hij Hx Hy. pose proof unit_roundoff_small as Hu.
  assert (x <= y)%Q as Hxy by (by eapply Hts).
  split; [done|]. destruct ts as [|a ts']; [done|].
  destruct (last (a :: ts')) as [b|] eqn:Hb; [|by rewrite last_cons in Hb; destruct (last ts')].
  specialize (Hfit a b eq_refl Hb).
  assert (a <= x)%Q as Hax by (eapply (Hts 0%nat i); [lia|done|done]).
  assert (y <= b)%Q as Hyb.
  { rewrite last_lookup in Hb. eapply (Hts j); [|done|exact Hb].
    apply lookup_lt_Some in Hy. simpl in *. lia. }
  rewrite ticks_per_second in *. nra.
Qed.

(** C18. Accuracy of the presentation timestamps in the arithmetic of the
    machine.  In every arithmetic that rounds with a relative error of at
    most [unit_roundoff], when the timestamps of the source never decrease
    and the recording fits the precision of the arithmetic, the packet at
    position [n] of the output carries the time between the first exported
    frame and the frame [n] places after it in ticks of [time_base], up to
    one tick before and after the tick the frame lies in: the time is at
    least [pts - 1] ticks and less than [pts + 2] ticks. *)
Theorem export_pts_accurate packets (n : nat) p :
  nondecreasing (timestamps (open_capture env args)) ->
  fits_precision (timestamps (open_capture env args)) ->
  run_output (export_processed_h264 env args) = Some packets ->
  packets !! n = Some p ->
  exists t0 t a,
    timestamps (open_capture env args) !! Z.to_nat (job_range env args).1 = Some t0 /\
    timestamps (open_capture env args) !! (Z.to_nat (job_range env args).1 + n)%nat
    = Some t /\
    pkt_pts p = Some a /\
    ((inject_Z a - 1) * time_base <= t - t0 < (inject_Z a + 2) * time_base)%Q.
Proof.
  intros Hts Hfit Ho Hp. destruct (run_output_lookup packets n p Ho Hp)
    as (t0 & t & _ & Ht0 & Ht & Hpts).
  destruct (fits_precision_lookup _ _ _ t0 t Hts Hfit (Nat.le_add_r _ _) Ht0 Ht) as [Hle Hsmall].
  exists t0, t, (frame_pts_rnd t t0). do 3 (split; [done|]).
  by apply (ticks_near (frame_pts t t0)); [apply frame_pts_rnd_near|apply frame_pts_accurate].
Qed.

(** C24. When consecutive frames of the source are at least three ticks of
    [time_base] apart and the recording fits the precision of the
    arithmetic, the presentation timestamps of the output are strictly
    increasing in every arithmetic that rounds with a relative error of at
    most [unit_roundoff]: no two frames of the output share a timestamp. *)
Theorem export_pts_strictly_increasing packets (i j : nat) p q :
  spaced (3 * time_base) (timestamps (open_capture env args)) ->
  fits_precision (timestamps (open_capture env args)) ->
  run_output (export_processed_h264 env args) = Some packets ->
  (i < j)%nat -> packets !! i = Some p -> packets !! j = Some q ->
  exists a b, pkt_pts p = Some a /\ pkt_pts q = Some b /\ 0 <= a < b.
Proof.
  intros Hts Hfit Ho Hij Hp Hq.
  destruct (run_output_lookup packets i p Ho Hp) as (t0 & ti & _ & Ht0 & Hti & ->).
  destruct (run_output_lookup packets j q Ho Hq) as (t0' & tj & _ & Ht0' & Htj & ->).
  simplify_eq.
  assert (nondecreasing (timestamps (open_capture env args))) as Hnd
    by (by apply (spaced_nondecreasing (3 * time_base))).
  destruct (fits_precision_lookup _ _ _ t0 ti Hnd Hfit (Nat.le_add_r _ _) Ht0 Hti) as [H0i _].
  destruct (fits_precision_lookup _ _ _ t0 tj Hnd Hfit (Nat.le_add_r _ _) Ht0 Htj) as [_ Hsmall].
  eexists _, _. do 2 (split; [done|]). split.
  - by apply frame_pts_rnd_nonneg.
  - apply frame_pts_rnd_strict; [done| |done].
    eapply (spaced_lookup (3 * time_base)); [done|done| |exact Hti|exact Htj]. lia.
Qed.

(** C31. The presentation timestamps do not tell apart frames that are
    microseconds apart: in every arithmetic that rounds with a relative
    error of at most [unit_roundoff], a frame of the output that is at most
    half a tick of [time_base] (7.6 microseconds) later than the first
    exported frame carries the presentation timestamp 0 of the first
    frame. *)
Theorem export_pts_same_tick packets (n : nat) p t0 t :
  run_output (export_processed_h264 env args) = Some packets ->
  packets !! n = Some p ->
  timestamps (open_capture env args) !! Z.to_nat (job_range env args).1 = Some t0 ->
  timestamps (open_capture env args) !! (Z.to_nat (job_range env args).1 + n)%nat
  = Some t ->
  (t0 <= t <= t0 + time_base / 2)%Q ->
  pkt_pts p = Some 0.
Proof.
  intros Ho Hp Ht0 Ht Hlt.
  destruct (run_output_lookup packets n p Ho Hp) as (t0' & t' & _ & Ht0' & Ht' & ->).
  rewrite Ht0 in Ht0'. rewrite Ht in Ht'. simplify_eq. f_equal.
  by apply frame_pts_rnd_first_tick.
Qed.

End pts.

(** ** The theorems on sample recordings

    The witnesses are computed in the arithmetic that rounds every operation
    up by a billionth. *)
#[local] Existing Instance upward_rounding.

Lemma sample_spaced :
  spaced (3 * time_base) (timestamps (open_capture demo_env demo_args)).
Proof. apply spacedb_sound. vm_compute. reflexivity. Qed.

Lemma sample_fits : fits_precision (timestamps (open_capture demo_env demo_args)).
Proof. intros a b [= <-] [= <-]. by vm_compute. Qed.

(** The packets of the sample run in that arithmetic. *)
Definition rounded_packets : list (Packet nat) :=
  default [] (run_output (export_processed_h264 demo_env demo_args)).

Definition rounded_packet (n : nat) : Packet nat :=
  default (mkPacket None None) (rounded_packets !! n).

Lemma rounded_output :
  run_output (export_processed_h264 demo_env demo_args) = Some rounded_packets.
Proof. vm_compute. reflexivity. Qed.

Lemma export_pts_accurate_witness :
  exists t0 t a,
    timestamps (open_capture demo_env demo_args)
      !! Z.to_nat (job_range demo_env demo_args).1 = Some t0 /\
    timestamps (open_capture demo_env demo_args)
      !! (Z.to_nat (job_range demo_env demo_args).1 + 3)%nat = Some t /\
    pkt_pts (rounded_packet 3) = Some a /\
    ((inject_Z a - 1) * time_base <= t - t0 < (inject_Z a + 2) * time_base)%Q.
Proof.
  apply (export_pts_accurate demo_env demo_args rounded_packets 3);
    [exact sample_timestamps|exact sample_fits|exact rounded_output|by vm_compute].
Defined.

Lemma export_pts_strictly_increasing_witness :
  exists a b,
    pkt_pts (rounded_packet 3) = Some a /\
    pkt_pts (rounded_packet 4) = Some b /\ 0 <= a < b.
Proof.
  apply (export_pts_strictly_increasing demo_env demo_args rounded_packets 3 4);
    [exact sample_spaced|exact sample_fits|exact rounded_output|lia|by vm_compute..].
Defined.

(** A camera that takes a frame every 5 microseconds. *)
Definition fast_ts (i : nat) : Q := (inject_Z (Z.of_nat i) / 200000 + 5)%Q.

Definition fast_env : Env nat :=
  mkEnv {[ "fast.mp4"%string :=
             mkVideoFile true (640, 480) ((fun i => (fast_ts i, i)) <$> seq 0 4) ]} 4.

Definition fast_args : Args nat :=
  mkArgs (fast_ts <$> seq 0 3) "fast.mp4" "scene.mp4" (5, 6)%Q sample_transform.

Definition fast_packets : list (Packet nat) :=
  default [] (run_output (export_processed_h264 fast_env fast_args)).

Lemma export_pts_same_tick_witness :
  pkt_pts (default (mkPacket None None) (fast_packets !! 1%nat)) = Some 0.
Proof.
  apply (export_pts_same_tick fast_env fast_args fast_packets 1 _ (fast_ts 0) (fast_ts 1));
    [by vm_compute..|].
  vm_compute. split; by intros ?.
Defined.

(** Two frames 5 microseconds apart, which is more than the microsecond the
    specification asks the time base to resolve, share a timestamp. *)
Example fast_frames_share_pts :
  (fast_ts 0 + (1 # 1000000) < fast_ts 1)%Q /\
  pkt_pts <$> take 2 fast_packets = [Some 0; Some 0].
Proof. by vm_compute. Qed.
