(* ===== verification/PipelineFloat.v ===== *)
(** * The floating-point computations of the generator

    Timestamps and percentages are binary64 floats in the program.  This
    file has the two computations of [export_processed_h264] that are done
    in floats, the presentation timestamp of line 87 and the percentage of
    lines 94-98, in the IEEE 754 arithmetic of the primitive floats, with
    the exact rational value of a float ([float_to_Q]) and Python's [int()]
    on a float ([float_int]).  The results on them are evaluations: they
    show on recordings of 30 frames per second where the exact values and
    the float computation agree, that the float computation of a
    presentation timestamp can be one tick above the truncation of the
    exact quotient, and that a frame less than one tick after the first can
    get the timestamp 1.

    That it is never further away than one tick is proved for every
    arithmetic that follows the standard model of rounding ([Rounding], of
    the file of that name), of which binary64 is an instance as long as
    nothing overflows or underflows; that instance is not proved here. *)

From Stdlib Require Import Floats.PrimFloat Floats.SpecFloat Floats.FloatOps.
From stdpp Require Import gmap.
From S2P Require Import Prelude Rounding FrameSource Encoder Resolver Pipeline.
From S2P Require Import PipelineSpec.

Local Open Scope Z_scope.

(** The rational a float stands for, in lowest terms; none for an infinity
    or a NaN. *)
Definition float_to_Q (x : float) : option Q :=
  match Prim2SF x with
  | S754_zero _ => Some 0%Q
  | S754_finite s m e =>
      let v := Qred (inject_Z (Z.pos m) * Qpower 2 e) in
      Some (if s then Qopp v else v)
  | S754_infinity _ | S754_nan => None
  end.

(** [int(x)] on a float: the integer towards zero; an infinity raises
    [OverflowError] and a NaN [ValueError]. *)
Definition float_int (x : float) : option Z := Qtrunc <$> float_to_Q x.

(** [float(n)] for a positive integer, exact below [2 ^ 53]. *)
Fixpoint float_of_pos (p : positive) : float :=
  match p with
  | xH => 1%float
  | xO p => (2 * float_of_pos p)%float
  | xI p => (2 * float_of_pos p + 1)%float
  end.

Definition float_of_Z (z : Z) : float :=
  match z with
  | Z0 => 0%float
  | Zpos p => float_of_pos p
  | Zneg p => (- float_of_pos p)%float
  end.

(** [float(Fraction(1, 65535))], what a float is divided by when it is
    divided by [time_base] (line 59). *)
Definition time_base_float : float := (1 / 65535)%float.

(** Line 87: [int((frame.timestamp - start_time) / time_base)] *)
Definition frame_pts_float (timestamp start_time : float) : option Z :=
  float_int ((timestamp - start_time) / time_base_float)%float.

(** Lines 94-97: the progress fraction; the division of two integers
    raises [ZeroDivisionError] when the divisor is zero and gives the float
    nearest to the quotient otherwise; [.9] and [.1] are the floats nearest
    to 9/10 and 1/10. *)
Definition progress_float (current_frame_idx export_from_index export_to_index : Z)
  : result float :=
  if export_to_index - export_from_index =? 0 then Raise ZeroDivisionError
  else Ok ((float_of_Z (current_frame_idx - export_from_index)
            / float_of_Z (export_to_index - export_from_index))
           * 0x1.ccccccccccccdp-1 + 0x1.999999999999ap-4)%float.

(** Line 98: [progress * 100.] *)
Definition percent_float (progress : float) : float := (progress * 100)%float.

(** Frame [k] of a recording of 30 frames per second that starts at 100
    seconds. *)
Definition float_ts (k : nat) : float :=
  (100 + float_of_Z (Z.of_nat k) / 30)%float.

(** The float computation gives frame [k] the presentation timestamp of
    the specification, the truncation of the exact quotient, in an export
    that starts at frame [0]. *)
Definition pts_agree (k : nat) : bool :=
  bool_decide (frame_pts_float (float_ts k) (float_ts 0)
               = (a ← float_to_Q (float_ts k); b ← float_to_Q (float_ts 0);
                  Some (frame_pts a b))).

(** The percentage of the float computation is within [eps] of the
    percentage of the rational model. *)
Definition percent_close (eps : Q) (current_frame_idx export_from_index
    export_to_index : Z) : bool :=
  match progress_float current_frame_idx export_from_index export_to_index,
        progress current_frame_idx export_from_index export_to_index with
  | Ok x, Ok p =>
      from_option (fun y => Qle_bool (Qabs (y - p * 100)) eps) false
        (float_to_Q (percent_float x))
  | Raise e, Raise e' => bool_decide (e = e')
  | _, _ => false
  end.

(** The float nearest to 1/65535 is below it: a division by [time_base]
    gives a little more than the exact quotient. *)
Example time_base_float_below :
  exists q, float_to_Q time_base_float = Some q /\ (q < time_base)%Q /\
            (time_base - q < 1 # 10 ^ 20)%Q.
Proof. eexists. split; [vm_compute; reflexivity|]. by vm_compute. Qed.

(** On the first 16 seconds of the recording the two computations agree. *)
Example frame_pts_float_agrees : forallb pts_agree (seq 0 480) = true.
Proof. by vm_compute. Qed.

(** The float computation of a presentation timestamp can be one tick
    above the truncation of the exact quotient.  At frame 488 of the
    recording the exact quotient is below 1066036 by less than a millionth
    of a tick, the float division rounds it to 1066036.0, and the frame gets
    the tick after the one it lies in: [frame_pts_float] gives 1066036 where
    [frame_pts] on the exact values of the same floats gives 1066035. *)
Example frame_pts_float_above :
  frame_pts_float (float_ts 488) (float_ts 0) = Some 1066036 /\
  exists a b, float_to_Q (float_ts 488) = Some a /\ float_to_Q (float_ts 0) = Some b /\
    frame_pts a b = 1066035 /\
    (inject_Z 1066036 - (1 # 1000000) < (a - b) / time_base < inject_Z 1066036)%Q.
Proof.
  split; [by vm_compute|]. eexists _, _.
  do 2 (split; [vm_compute; reflexivity|]). by vm_compute.
Qed.

(** The float nearest to 1/65535 taken as a timestamp lies less than one
    tick after a first frame at 0 and gets the presentation timestamp 1:
    the quotient of a float by itself is 1.0. *)
Example frame_pts_float_early :
  frame_pts_float time_base_float 0 = Some 1 /\
  exists q, float_to_Q time_base_float = Some q /\ (q - 0 < time_base)%Q.
Proof. split; [by vm_compute|]. eexists. split; [vm_compute; reflexivity|]. by vm_compute. Qed.

(** The percentages of a job of 300 frames are within [10 ^ -12] of those
    of the rational model, the last is exactly 100, as is the percentage of
    the completion event, and a range of one frame raises in both. *)
Example percent_float_close :
  forallb (fun k => percent_close (1 # 10 ^ 12) (Z.of_nat k) 0 299) (seq 1 299) = true /\
  progress_float 299 0 299 = Ok 1%float /\ percent_float 1 = 100%float /\
  percent_close 0 7 7 7 = true.
Proof. by vm_compute. Qed.

(** ** The error of a rounded presentation timestamp *)

Section rounding.
Context {rnd : Rounding}.

(** C32. In an arithmetic that rounds every operation with a relative error
    of at most [unit_roundoff], the presentation timestamp of line 87 is at
    most one tick away from the timestamp of the specification, for every
    frame whose distance from the first, in ticks, is below one quarter of
    [1 / unit_roundoff] (in binary64: 2 ^ 51 ticks, more than a thousand
    years). *)
Theorem frame_pts_rnd_close (timestamp start_time : Q) :
  (start_time <= timestamp)%Q ->
  (4 * unit_roundoff * ((timestamp - start_time) / time_base) < 1)%Q ->
  frame_pts timestamp start_time - 1
  <= frame_pts_rnd timestamp start_time
  <= frame_pts timestamp start_time + 1.
Proof. apply frame_pts_rnd_near. Qed.

End rounding.

(** A frame 47.5 seconds after the first, in the arithmetic that rounds
    up. *)
Lemma frame_pts_rnd_close_witness :
  frame_pts (295 # 2) 100 - 1
  <= frame_pts_rnd (rnd:=upward_rounding) (295 # 2) 100
  <= frame_pts (295 # 2) 100 + 1.
Proof. apply (frame_pts_rnd_close (rnd:=upward_rounding)); by vm_compute. Defined.
