(* ===== verification/Task.v ===== *)
(** * The progress-reporting task ([background_helper.Task_Proxy])

    A [Task_Proxy] runs a generator in the background and hands its events
    to the foreground.  The class is outside the repository's sources and is
    modelled from the specification (section 4.4): [fetch] returns the events
    produced since the last call, in order, and never blocks; [cancel] stops the
    work, after which no further progress is reported; a flag tells whether
    the task was cancelled.  The background side is [task_work]: one step
    moves the next event of the generator into the pipe. *)

From S2P Require Import Prelude Pipeline.

(** [task_future] holds the events the generator will still yield,
    [task_pipe] the events yielded and not yet fetched. *)
Record Task : Type := mkTask {
  task_title : string;
  task_future : list Event;
  task_pipe : list Event;
  canceled : bool;
}.

(** [Task_Proxy(name, generator, args)]: the generator is given by the events
    it yields. *)
Definition Task_Proxy (name : string) (events : list Event) : Task :=
  mkTask name events [] false.

(** [task.fetch()] *)
Definition task_fetch (t : Task) : list Event * Task :=
  if canceled t then ([], t)
  else (task_pipe t, mkTask (task_title t) (task_future t) [] false).

(** [task.cancel()] *)
Definition task_cancel (t : Task) : Task :=
  mkTask (task_title t) (task_future t) (task_pipe t) true.

(** One step of the background work: the generator yields its next event,
    unless the task was cancelled or the generator is exhausted. *)
Definition task_work (t : Task) : Task :=
  if canceled t then t
  else match task_future t with
       | ev :: rest => mkTask (task_title t) rest (task_pipe t ++ [ev]) false
       | [] => t
       end.

(** Everything the task was created to report that was not fetched yet. *)
Definition task_unread (t : Task) : list Event := task_pipe t ++ task_future t.

(** ** The contract *)

Lemma task_fetch_canceled t : canceled (task_fetch t).2 = canceled t.
Proof. by destruct t as [n f p []]. Qed.

Lemma task_fetch_active t :
  canceled t = false ->
  (task_fetch t).1 = task_pipe t /\ task_pipe (task_fetch t).2 = [] /\
  task_future (task_fetch t).2 = task_future t.
Proof. intros Hc. unfold task_fetch. by rewrite Hc. Qed.

Lemma task_fetch_after_cancel t : (task_fetch (task_cancel t)).1 = [].
Proof. done. Qed.

Lemma task_fetch_twice t : (task_fetch (task_fetch t).2).1 = [].
Proof. by destruct t as [n f p []]. Qed.

Lemma task_work_canceled t : canceled (task_work t) = canceled t.
Proof. by destruct t as [n [|ev f] p []]. Qed.

#[export] Hint Rewrite task_fetch_canceled task_work_canceled : vx_rw.

(** The background work loses no event and keeps their order. *)
Lemma task_work_unread t : task_unread (task_work t) = task_unread t.
Proof.
  destruct t as [n [|ev f] p []]; unfold task_work, task_unread; simpl; try done.
  by rewrite <- app_assoc.
Qed.

(** What is fetched and what stays unread add up to what was unread. *)
Lemma task_fetch_unread t :
  canceled t = false ->
  (task_fetch t).1 ++ task_unread (task_fetch t).2 = task_unread t.
Proof. intros Hc. unfold task_fetch, task_unread. by rewrite Hc. Qed.
