(* ===== verification/TaskGen.v ===== *)
(** * The task that runs the generator

    [add_export_job] hands the generator [export_processed_h264] to a
    [Task_Proxy] (lines 211-213), whose background process calls [next()] on
    it and sends every event it yields through a pipe.  [Exporter] keeps of
    a task only the events its generator will yield ([Task]).  This file
    has the task with the generator inside ([GenTask]), one [next()] per
    step of the background process, and proves that [Task] is a sound
    abstraction of it: every sequence of background steps, fetches and
    cancellations gives the same answers on both.  It also states
    what the abstraction hides: the generator of a cancelled task is never
    resumed again, so what it holds when the task is cancelled it holds for
    ever. *)

From stdpp Require Import gmap.
From S2P Require Import Prelude Rounding FrameSource Encoder Resolver Pipeline Sample.
From S2P Require Import PipelineSpec PipelineLoop PipelineGen PipelineRefine.
From S2P Require Import PipelineCancel PipelineRun Task.

Local Open Scope Z_scope.

(** What is done to a task: a step of its background process, a
    [fetch()], a [cancel()]. *)
Inductive TaskOp : Type := OpWork | OpFetch | OpCancel.

#[export] Instance TaskOp_eq_dec : EqDecision TaskOp.
Proof. solve_decision. Defined.

(** The operations [ops] in order, from [t]: what each of them returned and
    the task they leave. *)
Fixpoint run_ops {T : Type} (op : TaskOp -> T -> list Event * T)
    (ops : list TaskOp) (t : T) : list (list Event) * T :=
  match ops with
  | [] => ([], t)
  | o :: ops' =>
      let r := op o t in
      let r' := run_ops op ops' r.2 in
      (r.1 :: r'.1, r'.2)
  end.

(** One operation on a task of [Task]. *)
Definition task_op (o : TaskOp) (t : Task) : list Event * Task :=
  match o with
  | OpWork => ([], task_work t)
  | OpFetch => task_fetch t
  | OpCancel => ([], task_cancel t)
  end.

Section task_gen.
Context {Image : Type} `{Encoder Image E} {rnd : Rounding}.
Context (env : Env Image) (args : Args Image).
Implicit Types (g : GenState Image E) (ev : Event).

(** A task with its generator: [gt_gen] is the generator between two
    [next()] calls, [gt_pipe] the events sent and not yet fetched. *)
Record GenTask : Type := mkGenTask {
  gt_title : string;
  gt_gen : GenState Image E;
  gt_pipe : list Event;
  gt_canceled : bool;
}.
Implicit Types (t : GenTask).

(** [Task_Proxy(name, export_processed_h264, args=generator_args)] *)
Definition gen_task_proxy (name : string) : GenTask := mkGenTask name GStart [] false.

(** One step of the background process: one [next()], the event sent
    through the pipe.  The process of a cancelled task does nothing more. *)
Definition gen_task_work t : GenTask :=
  if gt_canceled t then t
  else match resume env args (gt_gen t) with
       | Yielded ev g => mkGenTask (gt_title t) g (gt_pipe t ++ [ev]) false
       | Stopped g | Raised _ g => mkGenTask (gt_title t) g (gt_pipe t) false
       | OutOfFuel => t
       end.

(** [task.fetch()] *)
Definition gen_task_fetch t : list Event * GenTask :=
  if gt_canceled t then ([], t)
  else (gt_pipe t, mkGenTask (gt_title t) (gt_gen t) [] false).

(** [task.cancel()] *)
Definition gen_task_cancel t : GenTask :=
  mkGenTask (gt_title t) (gt_gen t) (gt_pipe t) true.

Definition gen_task_op (o : TaskOp) t : list Event * GenTask :=
  match o with
  | OpWork => ([], gen_task_work t)
  | OpFetch => gen_task_fetch t
  | OpCancel => ([], gen_task_cancel t)
  end.

(** The abstraction: a task with its generator as a task of [Task]. *)
Definition task_of t : Task :=
  mkTask (gt_title t) (remaining env args (gt_gen t)) (gt_pipe t) (gt_canceled t).

(** ** The simulation *)

(** One operation on the task with its generator is the operation on its
    abstraction, and keeps the invariant of the generator. *)
Lemma task_of_work t :
  gen_ok env args (gt_gen t) ->
  task_of (gen_task_work t) = task_work (task_of t) /\
  gen_ok env args (gt_gen (gen_task_work t)).
Proof.
  intros Hg. unfold gen_task_work, task_work, task_of. simpl.
  destruct (gt_canceled t) eqn:Hc; [by rewrite Hc|].
  pose proof (resume_resume_ok env args _ Hg) as Hr.
  pose proof (resume_gen_ok env args _ Hg) as Hg'.
  destruct (resume env args (gt_gen t)) as [ev g'|g'|e g'|] eqn:Hres; simpl in *;
    try done.
  - by rewrite (remaining_yielded env args (gt_gen t) ev g' Hg Hres).
  - rewrite (remaining_stopped env args (gt_gen t) g' Hres).
    apply resume_stopped in Hres as [Hres _]. by rewrite (remaining_stopped env args g' g').
Qed.

Lemma task_of_op o t :
  gen_ok env args (gt_gen t) ->
  (gen_task_op o t).1 = (task_op o (task_of t)).1 /\
  task_of (gen_task_op o t).2 = (task_op o (task_of t)).2 /\
  gen_ok env args (gt_gen (gen_task_op o t).2).
Proof.
  intros Hg. destruct o; simpl.
  - split; [done|]. by apply task_of_work.
  - unfold gen_task_fetch, task_fetch, task_of.
    by destruct t as [n g p []].
  - done.
Qed.

Lemma run_ops_task_of ops : forall t,
  gen_ok env args (gt_gen t) ->
  (run_ops gen_task_op ops t).1 = (run_ops task_op ops (task_of t)).1 /\
  task_of (run_ops gen_task_op ops t).2 = (run_ops task_op ops (task_of t)).2.
Proof.
  induction ops as [|o ops IH]; intros t Hg; simpl; [done|].
  destruct (task_of_op o t Hg) as (-> & <- & Hg').
  destruct (IH _ Hg') as [-> ->]. done.
Qed.

(** ** The cancelled task *)

Lemma gen_task_op_canceled o t :
  gt_canceled t = true ->
  (gen_task_op o t).1 = [] /\ gt_canceled (gen_task_op o t).2 = true /\
  gt_gen (gen_task_op o t).2 = gt_gen t.
Proof.
  intros Hc. destruct o; simpl; unfold gen_task_work, gen_task_fetch;
    by rewrite ?Hc.
Qed.

Lemma run_ops_canceled ops : forall t,
  gt_canceled t = true ->
  Forall (fun evs => evs = []) (run_ops gen_task_op ops t).1 /\
  gt_gen (run_ops gen_task_op ops t).2 = gt_gen t.
Proof.
  induction ops as [|o ops IH]; intros t Hc; simpl; [done|].
  destruct (gen_task_op_canceled o t Hc) as (-> & Hc' & <-).
  destruct (IH _ Hc') as [? ->]. by split; [constructor|].
Qed.

(** An invariant of [next()] holds of the generator of a task whatever is
    done to the task. *)
Lemma run_ops_invariant (I : GenState Image E -> Prop) :
  (forall g, I g -> outcome_in I (resume env args g)) ->
  forall ops t, I (gt_gen t) -> I (gt_gen (run_ops gen_task_op ops t).2).
Proof.
  intros Hstep. induction ops as [|o ops IH]; intros t Ht; simpl; [done|].
  apply IH. destruct o; simpl; try done.
  - unfold gen_task_work. destruct (gt_canceled t); [done|].
    specialize (Hstep _ Ht). by destruct (resume env args (gt_gen t)).
  - unfold gen_task_fetch. by destruct (gt_canceled t).
Qed.

(** C14. [Task] is a sound abstraction of the task that runs the generator:
    whatever sequence of background steps, fetches and cancellations is
    applied to a task created for [export_processed_h264], every [fetch]
    returns the events the same sequence returns on the task of [Exporter]
    created with the events of a whole run, and the two tasks agree at the
    end on the cancel flag, on the pipe and on the events still to come. *)
Theorem gen_task_refines_task ops name :
  (run_ops gen_task_op ops (gen_task_proxy name)).1
  = (run_ops task_op ops
       (Task_Proxy name (run_events (export_processed_h264 env args)))).1 /\
  task_of (run_ops gen_task_op ops (gen_task_proxy name)).2
  = (run_ops task_op ops
       (Task_Proxy name (run_events (export_processed_h264 env args)))).2.
Proof.
  rewrite <- remaining_start. by apply (run_ops_task_of ops (gen_task_proxy name)).
Qed.

(** C13. A job that is cancelled while its generator is suspended at a
    progress event never releases what it holds: whatever is done to the
    task afterwards, every [fetch] returns nothing, the generator stays at
    that [yield], the output container stays open and the source is not
    released.  The code after the loops (flush, [target_container.close()],
    [capture.cleanup()]) is never run. *)
Theorem canceled_job_never_cleans_up ops ops' name l :
  gt_gen (run_ops gen_task_op ops (gen_task_proxy name)).2 = GProgress l ->
  Forall (fun evs => evs = [])
    (run_ops gen_task_op ops'
       (gen_task_cancel (run_ops gen_task_op ops (gen_task_proxy name)).2)).1 /\
  gt_gen (run_ops gen_task_op ops'
            (gen_task_cancel (run_ops gen_task_op ops (gen_task_proxy name)).2)).2
  = GProgress l /\
  closed (target_container l) = false /\ released (capture l) = false.
Proof.
  intros Hl.
  destruct (run_ops_canceled ops'
    (gen_task_cancel (run_ops gen_task_op ops (gen_task_proxy name)).2) eq_refl)
    as [Hf Hg].
  split; [done|]. split; [by rewrite Hg|].
  pose proof (run_ops_invariant (suspended_ok (Image:=Image))
    (resume_suspended env args) ops (gen_task_proxy name) I) as Hs.
  by rewrite Hl in Hs.
Qed.

End task_gen.

(** The witnesses and the examples are computed in the arithmetic without
    rounding. *)
#[local] Existing Instance exact_rounding.

Arguments GenTask : clear implicits.

(** ** The theorems on the sample job *)

(** The sample job: two steps, a fetch, a step, a fetch, two steps and a
    last fetch.  The percentages are 0.1, 47.5, 85 and 100. *)
Lemma gen_task_sample :
  (run_ops (gen_task_op demo_env demo_args)
     [OpWork; OpWork; OpFetch; OpWork; OpFetch; OpWork; OpWork; OpFetch]
     (gen_task_proxy "World")).1
  = [[]; []; [ev_converting; ("Converting video"%string, 114000 # 2400)]; [];
     [("Converting video"%string, 204000 # 2400)]; []; []; [ev_completed]].
Proof. vm_compute. reflexivity. Qed.

Lemma canceled_job_never_cleans_up_witness :
  exists l,
    gt_gen (run_ops (gen_task_op demo_env demo_args) [OpWork; OpWork]
              (gen_task_proxy "World")).2 = GProgress l /\
    Forall (fun evs => evs = [])
      (run_ops (gen_task_op demo_env demo_args) [OpWork; OpFetch; OpWork]
         (gen_task_cancel
            (run_ops (gen_task_op demo_env demo_args) [OpWork; OpWork]
               (gen_task_proxy "World")).2)).1 /\
    gt_gen (run_ops (gen_task_op demo_env demo_args) [OpWork; OpFetch; OpWork]
              (gen_task_cancel
                 (run_ops (gen_task_op demo_env demo_args) [OpWork; OpWork]
                    (gen_task_proxy "World")).2)).2
    = GProgress l /\
    closed (target_container l) = false /\ released (capture l) = false.
Proof.
  eexists. split; [vm_compute; reflexivity|].
  apply (canceled_job_never_cleans_up demo_env demo_args [OpWork; OpWork]
           [OpWork; OpFetch; OpWork] "World").
  vm_compute. reflexivity.
Defined.
