(* ===== verification/JobState.v ===== *)
(** * The life of a job

    The specification (section 4.5) gives every export job the states
    [Pending], [Running], [Completed], [Cancelled] and [Failed].  The code
    has no such object: a job is a [Task_Proxy] around the generator
    [export_processed_h264] (lines 211-213), and what state the job is in
    can only be read off the generator and the cancel flag.  [job_state]
    reads it off the task of [TaskGen], [job_trace] lists the states a job
    goes through under a sequence of background steps, fetches and
    cancellations.  The theorem of the file says that a job that is not
    cancelled leaves [Running]: it ends [Completed] when the source opened
    and [Failed] when it did not.  The examples run the sample job, once
    cancelled before its first [next()]. *)

From stdpp Require Import gmap.
From S2P Require Import Prelude Rounding FrameSource Encoder Resolver Pipeline Sample.
From S2P Require Import PipelineSpec PipelineLoop PipelineGen PipelineRefine.
From S2P Require Import PipelineCancel PipelineRun Task TaskGen.

Local Open Scope Z_scope.

(** The states of the specification. *)
Inductive JobState : Type := Pending | Running | Completed | Cancelled | Failed.

#[export] Instance JobState_eq_dec : EqDecision JobState.
Proof. solve_decision. Defined.

(** The number of background steps among [ops]. *)
Definition works (ops : list TaskOp) : nat :=
  length (filter (fun o => o = OpWork) ops).

Section job.
Context {Image : Type} `{Encoder Image E} {rnd : Rounding}.
Context (env : Env Image) (args : Args Image).
Implicit Types (g : GenState Image E) (t : GenTask Image E) (o : TaskOp).

(** The state of a job.  A generator that yielded its terminal event, that
    returned or that raised has decided the job; before that the job is
    cancelled when the flag is set, pending before the first [next()] and
    running after it. *)
Definition job_state t : JobState :=
  match gt_gen t with
  | GFailed _ | GReturned None | GDead _ _ => Failed
  | GCompleted _ | GReturned (Some _) => Completed
  | GStart => if gt_canceled t then Cancelled else Pending
  | GConverting | GProgress _ => if gt_canceled t then Cancelled else Running
  end.

(** The states a job goes through under [ops]. *)
Fixpoint job_trace (ops : list TaskOp) t : list JobState :=
  match ops with
  | [] => [job_state t]
  | o :: ops => job_state t :: job_trace ops (gen_task_op env args o t).2
  end.

Lemma works_work ops : works (OpWork :: ops) = S (works ops).
Proof. done. Qed.

(** The frame loop ends at a progress event, at the completion event or in
    an exception. *)
Lemma continue_loop_cases (l : Locals Image E) :
  match continue_loop args l with
  | Yielded _ (GProgress _) | Yielded _ (GCompleted _) | Raised _ (GDead _ _)
  | OutOfFuel => True
  | _ => False
  end.
Proof. unfold continue_loop. by destruct (run_loop _ _ _). Qed.

(** ** The job that is left alone *)

(** Calls of [next()] on a generator, without the events. *)
Lemma run_final_step n g :
  run_final (drain env args (S n) g)
  = match resume env args g with
    | Yielded _ g' => run_final (drain env args n g')
    | Stopped g' | Raised _ g' => g'
    | OutOfFuel => g
    end.
Proof. simpl. by destruct (resume env args g). Qed.

(** A generator that stopped stays where it is. *)
Lemma drain_after_stop n : forall g g',
  resume env args g = Stopped g' -> run_final (drain env args n g') = g'.
Proof.
  intros g g' [Hr _]%resume_stopped. destruct n as [|n]; [done|].
  by rewrite run_final_step, Hr.
Qed.

(** What a [next()] that yields nothing leaves is where the generator
    stays. *)
Lemma drain_rest n g :
  match resume env args g with
  | Yielded _ _ => True
  | Stopped g' | Raised _ g' => run_final (drain env args n g') = g'
  | OutOfFuel => run_final (drain env args n g) = g
  end.
Proof.
  destruct (resume env args g) as [ev g'|g'|e g'|] eqn:Hr; [done|by eapply drain_after_stop| |].
  - assert (exists l, g' = GDead e l) as [l ->].
    { destruct g as [| |c|l|l|r|e' l]; simpl in Hr; try done;
        [destruct (initialised _); [|done]|];
        match type of Hr with continue_loop _ ?l = _ =>
          pose proof (continue_loop_cases l) as Hc; rewrite Hr in Hc end;
        destruct g'; try done; unfold continue_loop in Hr;
        destruct (run_loop _ _ _); simplify_eq; by eexists. }
    by destruct n.
  - destruct n; [done|]. by rewrite run_final_step, Hr.
Qed.

(** Without a cancellation the generator of a task is where as many
    [next()] calls as [ops] has background steps leave it. *)
Lemma run_ops_gen ops : forall t,
  OpCancel ∉ ops -> gt_canceled t = false ->
  gt_canceled (run_ops (gen_task_op env args) ops t).2 = false /\
  gt_gen (run_ops (gen_task_op env args) ops t).2
  = run_final (drain env args (works ops) (gt_gen t)).
Proof.
  induction ops as [|o ops IH]; intros t Hn Hc; [done|].
  apply not_elem_of_cons in Hn as [Ho Hn].
  destruct o; [| |done]; cbn [run_ops gen_task_op fst snd].
  - rewrite works_work, run_final_step. unfold gen_task_work. rewrite Hc.
    pose proof (drain_rest (works ops) (gt_gen t)) as Hd.
    destruct (resume env args (gt_gen t)) as [ev g'|g'|e g'|];
      match goal with |- context [run_ops _ ops ?t'] =>
        destruct (IH t' Hn) as [-> ->]; [done|] end; by rewrite ?Hd.
  - unfold gen_task_fetch. rewrite Hc.
    by apply (IH (mkGenTask (gt_title t) (gt_gen t) [] false)).
Qed.

(** C15. A job that is not cancelled ends.  Whatever the order of the
    background steps and the fetches, once the background process has taken
    [drain_fuel] steps the job is completed when the source opened and
    failed when it did not; it is never left running or pending. *)
Theorem job_reaches_final_state ops name :
  OpCancel ∉ ops -> (drain_fuel env args <= works ops)%nat ->
  job_state (run_ops (gen_task_op env args) ops (gen_task_proxy name)).2
  = if initialised (open_capture env args) then Completed else Failed.
Proof.
  intros Hn Hw. destruct (run_ops_gen ops (gen_task_proxy name) Hn eq_refl) as [_ Hg].
  unfold job_state. rewrite Hg. simpl.
  rewrite (drain_fuel_irrelevant env args _ (drain_fuel env args) GStart I)
    by (unfold drain_fuel in *; simpl; lia).
  fold (export_processed_h264 env args).
  destruct (initialised (open_capture env args)) eqn:Hi.
  - destruct (export_run_ok env args Hi) as (lf & -> & _). done.
  - by rewrite (missing_source_run env args Hi).
Qed.

End job.

(** The witnesses and the examples are computed in the arithmetic without
    rounding. *)
#[local] Existing Instance exact_rounding.

(** ** The sample job *)

(** A job can be cancelled before its generator ran: it goes from
    [Pending] to [Cancelled] and its generator is never resumed. *)
Example job_cancelled_before_start :
  job_trace demo_env demo_args [OpCancel; OpWork] (gen_task_proxy "World")
  = [Pending; Cancelled; Cancelled].
Proof. by vm_compute. Qed.

(** The sample job, polled while it runs. *)
Example job_trace_sample :
  job_trace demo_env demo_args [OpWork; OpWork; OpFetch; OpWork; OpWork; OpCancel]
    (gen_task_proxy "World")
  = [Pending; Running; Running; Running; Running; Completed; Completed].
Proof. by vm_compute. Qed.

Lemma job_reaches_final_state_witness :
  job_state
    (run_ops (gen_task_op demo_env demo_args)
       (OpFetch :: replicate 34 OpWork ++ [OpFetch]) (gen_task_proxy "World")).2
  = Completed.
Proof.
  apply (job_reaches_final_state demo_env demo_args
           (OpFetch :: replicate 34 OpWork ++ [OpFetch]) "World").
  - by apply (bool_decide_unpack _); vm_compute.
  - by vm_compute.
Defined.
