(* ===== verification/Logging.v ===== *)
(** * Logging ([logging])

    [video_exporter.py] creates one logger, named after the module (line
    28), and writes one line to it: [add_export_job] announces the output
    directory (line 196).  The [logging] library is outside the repository's
    sources; a log is the list of the records written, oldest first, each
    with the name of its logger, its level and its message. *)

From S2P Require Import Prelude.

(** The levels of [logging]. *)
Inductive Level : Type := DEBUG | INFO | WARNING | ERROR | CRITICAL.

#[export] Instance Level_eq_dec : EqDecision Level.
Proof. solve_decision. Defined.

Record LogRecord : Type := mkLogRecord {
  log_name : string;
  log_level : Level;
  log_msg : string;
}.

#[export] Instance LogRecord_eq_dec : EqDecision LogRecord.
Proof. solve_decision. Defined.

(** [logging.getLogger(name)]: a logger is known by its name. *)
Definition getLogger (name : string) : string := name.

(** Line 28: [logger = logging.getLogger(__name__)] *)
Definition logger : string := getLogger "video_exporter".

(** [logger.info(msg)] *)
Definition Logger_info (name : string) (log : list LogRecord) (msg : string)
  : list LogRecord :=
  log ++ [mkLogRecord name INFO msg].

(** The messages of a log, oldest first. *)
Definition messages (log : list LogRecord) : list string := log_msg <$> log.

Lemma Logger_info_messages name log msg :
  messages (Logger_info name log msg) = messages log ++ [msg].
Proof. unfold messages, Logger_info. by rewrite fmap_app. Qed.

Lemma Logger_info_last name log msg :
  last (Logger_info name log msg) = Some (mkLogRecord name INFO msg).
Proof. unfold Logger_info. by rewrite last_snoc. Qed.
