(* ===== verification/Paths.v ===== *)
(** * Paths, strings and the file system

    The library functions [VideoExporter] calls to name its output and to
    find its input: [os.path.join], [os.path.splitext], [glob.glob],
    [os.makedirs], [str.replace] and [csv_utils.read_key_value_file].  They
    are outside the repository's sources and are modelled from their
    documented behaviour on POSIX paths; the file system is a record of what
    these functions read and write. *)

From Stdlib Require Import Strings.Ascii.
From stdpp Require Import gmap.
From S2P Require Import Prelude.

Local Open Scope string_scope.

(** ** Strings *)

(** [s.replace(old, new)] for patterns of one character. *)
Fixpoint str_replace (old new : ascii) (s : string) : string :=
  match s with
  | EmptyString => EmptyString
  | String c s' => String (if Ascii.eqb c old then new else c) (str_replace old new s')
  end.

(** The characters of a string. *)
Fixpoint chars (s : string) : list ascii :=
  match s with
  | EmptyString => []
  | String c s' => c :: chars s'
  end.

Fixpoint of_chars (l : list ascii) : string :=
  match l with
  | [] => EmptyString
  | c :: l' => String c (of_chars l')
  end.

(** [s.endswith(c)] *)
Definition ends_with (c : ascii) (s : string) : bool :=
  match last (chars s) with
  | Some c' => Ascii.eqb c' c
  | None => false
  end.

(** ** Paths *)

(** [os.path.join(a, b)] *)
Definition path_join (a b : string) : string :=
  if String.prefix "/" b then b
  else if String.eqb a "" || ends_with "/" a then a +:+ b
  else a +:+ "/" +:+ b.

(** The part of a list after the last occurrence of [c], and the whole list
    when [c] does not occur. *)
Fixpoint after_last (c : ascii) (l : list ascii) : list ascii :=
  match l with
  | [] => []
  | x :: l' =>
      if Ascii.eqb x c || bool_decide (c ∈ l') then after_last c l' else l
  end.

Fixpoint drop_leading (c : ascii) (l : list ascii) : list ascii :=
  match l with
  | x :: l' => if Ascii.eqb x c then drop_leading c l' else l
  | [] => []
  end.

(** [os.path.splitext(p)[-1]]: the extension of the last component of [p],
    with its dot; leading dots of the component do not start an
    extension. *)
Definition splitext_ext (p : string) : string :=
  let name := drop_leading "." (after_last "/" (chars p)) in
  if bool_decide ("."%char ∈ name) then of_chars ("."%char :: after_last "." name)
  else "".

(** ** The file system *)

Record FileSystem : Type := mkFS {
  fs_text : gmap string (list (string * string));
  fs_entries : gmap string (list string);
  fs_dirs : gset string;
}.

(** [glob(os.path.join(dir, stem + ".*"))]: the entries of [dir] whose name
    starts with [stem] and a dot, as paths, in the order of the listing. *)
Definition glob (fs : FileSystem) (dir stem : string) : list string :=
  path_join dir <$>
    filter (fun name => String.prefix (stem +:+ ".") name = true)
      (default [] (fs_entries fs !! dir)).

(** [os.makedirs(path, exist_ok=True)] *)
Definition makedirs (fs : FileSystem) (path : string) : FileSystem :=
  mkFS (fs_text fs) (fs_entries fs) ({[ path ]} ∪ fs_dirs fs).

(** [csv_utils.read_key_value_file(csvfile)]: the rows of the file as a
    dictionary; a later row replaces an earlier one with the same key. *)
Definition read_key_value_file (rows : list (string * string)) : gmap string string :=
  list_to_map (reverse rows).

(** [with open(path) as f: read_key_value_file(f)] *)
Definition open_key_value_file (fs : FileSystem) (path : string)
  : result (gmap string string) :=
  match fs_text fs !! path with
  | Some rows => Ok (read_key_value_file rows)
  | None => Raise FileNotFoundError
  end.

(** [d[key]] on a dictionary of strings *)
Definition dict_get (d : gmap string string) (key : string) : result string :=
  match d !! key with
  | Some v => Ok v
  | None => Raise KeyError
  end.

(** ** Properties *)

Lemma chars_app s1 s2 : chars (s1 +:+ s2) = (chars s1 ++ chars s2)%list.
Proof. induction s1 as [|c s1 IH]; simpl; [done|]. by rewrite IH. Qed.

(** After [replace(old, new)] the string has no [old] left. *)
Lemma str_replace_notin old new s :
  old <> new -> old ∉ chars (str_replace old new s).
Proof.
  intros Hne. induction s as [|c s IH]; simpl; [by intros ?%elem_of_nil|].
  intros [Hc|Hin]%elem_of_cons; [|done].
  destruct (Ascii.eqb_spec c old); congruence.
Qed.

(** [replace] keeps the characters it does not replace out of the string. *)
Lemma str_replace_keeps_notin old new x s :
  x <> new -> x ∉ chars s -> x ∉ chars (str_replace old new s).
Proof.
  intros Hne. induction s as [|c s IH]; simpl; [done|].
  intros Hx [Hc|Hin]%elem_of_cons.
  - destruct (Ascii.eqb c old); [done|]. apply Hx. subst. left.
  - apply IH; [|done]. intros ?. apply Hx. by right.
Qed.

Lemma str_replace_length old new s :
  String.length (str_replace old new s) = String.length s.
Proof. induction s as [|c s IH]; simpl; [done|]. by rewrite IH. Qed.

Lemma makedirs_exists fs path : path ∈ fs_dirs (makedirs fs path).
Proof. simpl. set_solver. Qed.

(** A directory that exists is not an error, and nothing changes. *)
Lemma makedirs_idempotent fs path :
  makedirs (makedirs fs path) path = makedirs fs path.
Proof. unfold makedirs. simpl. f_equal. by rewrite (assoc_L _), (idemp_L _). Qed.

Lemma makedirs_keeps fs path d : d ∈ fs_dirs fs -> d ∈ fs_dirs (makedirs fs path).
Proof. simpl. set_solver. Qed.

Example path_join_example :
  path_join "/recordings/000" "info.csv" = "/recordings/000/info.csv" /\
  path_join "/recordings/000/" "info.csv" = "/recordings/000/info.csv" /\
  path_join "/recordings/000" "/tmp/x" = "/tmp/x".
Proof. by vm_compute. Qed.

Example splitext_example :
  splitext_ext "/rec.d/world.mp4" = ".mp4" /\ splitext_ext "/rec.d/world" = "" /\
  splitext_ext "/rec/.hidden" = "" /\ splitext_ext "world.tar.gz" = ".gz".
Proof. by vm_compute. Qed.
