(* ===== verification/Exporter.v ===== *)
(** * The export job orchestrator: class [VideoExporter]

    The plugin base class of [video_exporter.py] (lines 113-240): the
    registry of export tasks, the status, progress and output attributes
    the host displays, and the log the plugin writes.

    A task is an object shared between the plugin, which keeps a reference
    in [export_tasks], and the background process that runs it, which lives
    on after the plugin forgot the reference.  The model therefore has a
    store of task objects ([heap]) beside the plugin's attributes, and
    [export_tasks] holds handles into it.  Every method that changes the
    state is a function on [State]; [work] is a step of a background
    process.  [export_data] is abstract in the source: the model takes it as
    a parameter of [on_notify], with the type of the world it acts on. *)

From stdpp Require Import gmap.
From S2P Require Import Prelude Pipeline Task Logging.

Local Open Scope Z_scope.

(** The attributes of a [VideoExporter], the task objects, and the records
    the plugin has written to [logger]. *)
Record State : Type := mkState {
  export_tasks : list (string * nat);
  status : string;
  progress_attr : Q;
  output : string;
  heap : list Task;
  log : list LogRecord;
}.

(** A value of a notification dictionary. *)
Inductive NValue : Type :=
| NStr (s : string)
| NRange (r : Q * Q).

(** [__init__] (lines 142-147) *)
Definition init : State :=
  mkState [] "Not exporting" 0 "Not set yet" [] [].

(** The loop of [cancel] (lines 173-174): [task.cancel()] on every task of
    the registry. *)
Fixpoint cancel_tasks (ts : list (string * nat)) (h : list Task) : list Task :=
  match ts with
  | [] => h
  | (task_name, task) :: rest => cancel_tasks rest (alter task_cancel task h)
  end.

(** [cancel] (lines 172-175) *)
Definition cancel (s : State) : State :=
  mkState [] (status s) (progress_attr s) (output s)
    (cancel_tasks (export_tasks s) (heap s)) (log s).

(** [cleanup] (lines 180-181) *)
Definition cleanup (s : State) : State := cancel s.

(** The body of the loop of [recent_events] (lines 223-229) for one task:
    the new status and progress, and the task after its [fetch]. *)
Definition poll_task (sp : string * Q) (t : Task) : (string * Q) * Task :=
  let r := task_fetch t in
  let sp1 := match last r.1 with Some ev => ev | None => sp end in
  let sp2 := if canceled r.2 then ("Export has been canceled"%string, 0%Q) else sp1 in
  (sp2, r.2).

(** The loop of [recent_events] over the registry, first task first. *)
Fixpoint poll_tasks (ts : list (string * nat)) (sp : string * Q) (h : list Task)
  : (string * Q) * list Task :=
  match ts with
  | [] => (sp, h)
  | (task_name, task) :: rest =>
      match h !! task with
      | Some t =>
          let r := poll_task sp t in
          poll_tasks rest r.1 (<[task := r.2]> h)
      | None => poll_tasks rest sp h
      end
  end.

(** [recent_events] (lines 221-229) *)
Definition recent_events (s : State) : State :=
  let r := poll_tasks (export_tasks s) (status s, progress_attr s) (heap s) in
  mkState (export_tasks s) r.1.1 r.1.2 (output s) r.2 (log s).

(** [gl_display] (lines 231-232): the value written to
    [menu_icon.indicator_stop]. *)
Definition gl_display (s : State) : Q := (progress_attr s / 100)%Q.

(** Line 195 of [add_export_job]: [self.output = im_dir] *)
Definition set_output (s : State) (im_dir : string) : State :=
  mkState (export_tasks s) (status s) (progress_attr s) im_dir (heap s) (log s).

(** Line 196 of [add_export_job]:
    [logger.info("Exporting to {}".format(im_dir))] *)
Definition log_exporting (s : State) (im_dir : string) : State :=
  mkState (export_tasks s) (status s) (progress_attr s) (output s) (heap s)
    (Logger_info logger (log s) ("Exporting to " +:+ im_dir)).

(** Lines 195-196: the new output directory and its line in the log. *)
Definition announce_output (s : State) (im_dir : string) : State :=
  log_exporting (set_output s im_dir) im_dir.

(** The tail of [add_export_job] (lines 211-214): create the task and append
    it to the registry. *)
Definition register_task (s : State) (plugin_name : string) (events : list Event)
  : State :=
  let task := Task_Proxy (plugin_name +:+ " Video Export") events in
  mkState (export_tasks s ++ [("taskname"%string, length (heap s))])
    (status s) (progress_attr s) (output s) (heap s ++ [task]) (log s).

(** [notification[key]]: a missing key raises [KeyError]. *)
Definition notification_get (notification : gmap string NValue) (key : string)
  : result NValue :=
  match notification !! key with
  | Some v => Ok v
  | None => Raise KeyError
  end.

Definition is_should_export (v : NValue) : bool :=
  match v with
  | NStr s => bool_decide (s = "should_export"%string)
  | NRange _ => false
  end.

(** [on_notify] (lines 149-152); [export_data] is the subclass's method,
    which may change the plugin and what is outside it (the file system):
    [W] is the type of what is outside.  A method that may raise gives the
    state it reached and the exception, if one was raised: the [cancel] of
    line 151 is done when a look-up of line 152 raises. *)
Definition on_notify {W : Type}
    (export_data : State -> W -> NValue -> NValue -> State * W * option exn)
    (s : State) (w : W) (notification : gmap string NValue)
  : State * W * option exn :=
  match notification_get notification "subject" with
  | Raise e => (s, w, Some e)
  | Ok subject =>
      if is_should_export subject then
        let s' := cancel s in
        match notification_get notification "range" with
        | Raise e => (s', w, Some e)
        | Ok range =>
            match notification_get notification "export_dir" with
            | Raise e => (s', w, Some e)
            | Ok export_dir => export_data s' w range export_dir
            end
        end
      else (s, w, None)
  end.

(** One step of the background process of the task with handle [i]. *)
Definition work (s : State) (i : nat) : State :=
  mkState (export_tasks s) (status s) (progress_attr s) (output s)
    (alter task_work i (heap s)) (log s).

(** ** The plugin and its background processes as a transition system

    A step is a step of a background process, a poll ([recent_events]), a
    [cancel], or one of the two state changes of [add_export_job]: the new
    output directory with its line in the log, and the registration of a new
    task whose generator yields events that satisfy [ok]. *)

Inductive step (ok : list Event -> Prop) : State -> State -> Prop :=
| step_work s i : step ok s (work s i)
| step_poll s : step ok s (recent_events s)
| step_cancel s : step ok s (cancel s)
| step_output s im_dir : step ok s (announce_output s im_dir)
| step_register s plugin_name events :
    ok events -> step ok s (register_task s plugin_name events).

Definition reachable (ok : list Event -> Prop) (s : State) : Prop :=
  rtc (step ok) init s.

(** Every handle of the registry names a task object. *)
Definition handles_ok (s : State) : Prop :=
  Forall (fun nt : string * nat => (nt.2 < length (heap s))%nat) (export_tasks s).

(** No task of the registry is cancelled. *)
Definition registry_active (s : State) : Prop :=
  Forall (fun nt : string * nat =>
            forall t, heap s !! nt.2 = Some t -> canceled t = false)
    (export_tasks s).

(** No task is registered twice. *)
Definition handles_nodup (s : State) : Prop := NoDup (export_tasks s).*2.

(** The log holds nothing but the announcements of output directories, and
    the [output] attribute is the directory announced last. *)
Definition log_ok (s : State) : Prop :=
  Forall (fun r => log_name r = logger /\ log_level r = INFO /\
                   exists d, log_msg r = ("Exporting to " +:+ d)%string) (log s) /\
  last (messages (log s))
  = if decide (log s = []) then None else Some ("Exporting to " +:+ output s)%string.

(** ** A reference definition of what [recent_events] shows

    The events the registered tasks have produced since the last poll, in
    the order of the registry, and the last of them all: it is what the
    plugin shows after the poll, and the plugin shows what it showed before
    when there is none. *)

Definition registered_pipes (ts : list (string * nat)) (h : list Task)
  : list (list Event) :=
  omap (fun nt : string * nat => task_pipe <$> h !! nt.2) ts.

Definition latest_event (ts : list (string * nat)) (h : list Task) : option Event :=
  last (concat (registered_pipes ts h)).

Definition recent_events_spec (s : State) : string * Q :=
  default (status s, progress_attr s) (latest_event (export_tasks s) (heap s)).
