(* ===== verification/Menu.v ===== *)
(** * The menu of the plugin: [init_ui], [deinit_ui], [gl_display]

    [init_ui] (lines 158-170) builds the menu of the plugin: the widgets of
    the subclass, two text fields that show [status] and [output], a slider
    that shows [progress], and the button that cancels the export.
    [deinit_ui] (lines 177-178) removes it.  The widgets are those of
    [pyglui], which is outside the repository's sources: a widget is bound
    to an attribute of the plugin by its name, a text field or a slider
    writes what the user enters through its setter, a button calls its
    function.  [user_action] is that behaviour.  [customize_menu] is
    abstract in the source: the model takes it as a parameter of
    [init_ui]. *)

From S2P Require Import Prelude Pipeline Task Exporter.

(** ** Widgets *)

(** What a text field does with the text the user enters: the default setter
    assigns it to the attribute, [lambda _: None] drops it. *)
Inductive Setter : Type := SetAttribute | SetNothing.

(** The functions the buttons of this plugin are bound to. *)
Inductive Callback : Type := CallCancel.

Inductive Widget : Type :=
| Text_Input (attribute label : string) (setter : Setter)
| Slider (attribute label : string) (read_only : bool) (display_format : string)
| Button (label : string) (function : Callback)
| Info_Text (text : string).

#[export] Instance Setter_eq_dec : EqDecision Setter.
Proof. solve_decision. Defined.
#[export] Instance Callback_eq_dec : EqDecision Callback.
Proof. solve_decision. Defined.
#[export] Instance Widget_eq_dec : EqDecision Widget.
Proof. solve_decision. Defined.

Record Menu : Type := mkMenu {
  menu_label : string;
  elements : list Widget;
}.

(** A value of an attribute, as a widget reads and writes it. *)
Inductive UValue : Type :=
| UStr (s : string)
| UNum (q : Q).

(** The plugin with its user interface: the attributes of [Exporter], the
    menu, and the stop indicator of the menu icon. *)
Record Plugin : Type := mkPlugin {
  self : State;
  menu : option Menu;
  menu_icon : option Q;
}.

(** [Plugin.add_menu]: a new menu and its icon. *)
Definition add_menu (p : Plugin) : Plugin :=
  mkPlugin (self p) (Some (mkMenu "" [])) (Some 0%Q).

(** [Plugin.remove_menu] *)
Definition remove_menu (p : Plugin) : Plugin := mkPlugin (self p) None None.

(** [menu.append(widget)] *)
Definition menu_append (m : Menu) (w : Widget) : Menu :=
  mkMenu (menu_label m) (elements m ++ [w]).

(** [widget.read_only = True] and [widget.display_format = fmt] on a
    slider. *)
Definition set_read_only (b : bool) (w : Widget) : Widget :=
  match w with
  | Slider a l _ f => Slider a l b f
  | _ => w
  end.

Definition set_display_format (fmt : string) (w : Widget) : Widget :=
  match w with
  | Slider a l r _ => Slider a l r fmt
  | _ => w
  end.

(** [menu[-1].x = v]: an assignment to the last widget. *)
Definition menu_alter_last (f : Widget -> Widget) (m : Menu) : Menu :=
  mkMenu (menu_label m) (alter f (pred (length (elements m))) (elements m)).

(** ** The methods *)

(** [init_ui] (lines 158-170).  Without a menu after [customize_menu] the
    first [self.menu.append] raises [AttributeError]. *)
Definition init_ui (customize_menu : Plugin -> Plugin) (p : Plugin)
  : Plugin * option exn :=
  let p := add_menu p in
  let p := customize_menu p in
  match menu p with
  | None => (p, Some AttributeError)
  | Some m =>
      let m := menu_append m (Text_Input "status" "Status" SetNothing) in
      let m := menu_append m (Text_Input "output" "Last export" SetNothing) in
      let m := menu_append m (Slider "progress" "Progress" false "%0.2f") in
      let m := menu_alter_last (set_read_only true) m in
      let m := menu_alter_last (set_display_format "%.0f%%") m in
      let m := menu_append m (Button "Cancel export" CallCancel) in
      (mkPlugin (self p) (Some m) (menu_icon p), None)
  end.

(** [deinit_ui] (lines 177-178) *)
Definition deinit_ui (p : Plugin) : Plugin := remove_menu p.

(** [gl_display] (lines 231-232) on the plugin with its icon: without an
    icon the assignment raises [AttributeError]. *)
Definition gl_display_ui (p : Plugin) : Plugin * option exn :=
  match menu_icon p with
  | Some _ => (mkPlugin (self p) (menu p) (Some (gl_display (self p))), None)
  | None => (p, Some AttributeError)
  end.

(** ** What the user can do *)

(** [getattr(plugin, name)] for the attributes the widgets are bound to. *)
Definition getattr (s : State) (name : string) : option UValue :=
  if String.eqb name "status" then Some (UStr (status s))
  else if String.eqb name "output" then Some (UStr (output s))
  else if String.eqb name "progress" then Some (UNum (progress_attr s))
  else None.

(** [setattr(plugin, name, value)] for the same attributes. *)
Definition setattr (s : State) (name : string) (v : UValue) : State :=
  match v with
  | UStr x =>
      if String.eqb name "status"
      then mkState (export_tasks s) x (progress_attr s) (output s) (heap s) (log s)
      else if String.eqb name "output"
      then mkState (export_tasks s) (status s) (progress_attr s) x (heap s) (log s)
      else s
  | UNum q =>
      if String.eqb name "progress"
      then mkState (export_tasks s) (status s) q (output s) (heap s) (log s)
      else s
  end.

Inductive UserAction : Type :=
| Edit (i : nat) (v : UValue)
| Click (i : nat).

Definition call (f : Callback) (s : State) : State :=
  match f with CallCancel => cancel s end.

(** The effect of an action of the user on the widget it addresses. *)
Definition widget_action (w : Widget) (a : UserAction) (s : State) : State :=
  match w, a with
  | Text_Input attribute _ SetAttribute, Edit _ v => setattr s attribute v
  | Slider attribute _ false _, Edit _ v => setattr s attribute v
  | Button _ function, Click _ => call function s
  | _, _ => s
  end.

Definition action_index (a : UserAction) : nat :=
  match a with Edit i _ | Click i => i end.

(** An action of the user on the menu of the plugin. *)
Definition user_action (p : Plugin) (a : UserAction) : Plugin :=
  match menu p with
  | Some m =>
      match elements m !! action_index a with
      | Some w => mkPlugin (widget_action w a (self p)) (menu p) (menu_icon p)
      | None => p
      end
  | None => p
  end.

(** A widget through which the user cannot write an attribute. *)
Definition write_protected (w : Widget) : bool :=
  match w with
  | Text_Input _ _ SetAttribute | Slider _ _ false _ => false
  | _ => true
  end.

(** The widgets [init_ui] appends to the menu. *)
Definition exporter_widgets : list Widget :=
  [Text_Input "status" "Status" SetNothing;
   Text_Input "output" "Last export" SetNothing;
   Slider "progress" "Progress" true "%.0f%%";
   Button "Cancel export" CallCancel].
