(* ===== verification/MenuProofs.v ===== *)
(** * Properties of the menu

    What [init_ui] builds and what the user can do through the menu: the
    widgets [init_ui] appends show the attributes
    of the plugin without letting the user write them, and the only action
    that changes the plugin is the button bound to [cancel]. *)

From S2P Require Import Prelude Pipeline Task Exporter Menu.

Implicit Types (p : Plugin) (m : Menu) (w : Widget) (a : UserAction) (s : State).

(** An assignment to the last widget reaches the widget appended last. *)
Lemma menu_alter_last_append f m w :
  menu_alter_last f (menu_append m w) = menu_append m (f w).
Proof.
  unfold menu_alter_last, menu_append. simpl. f_equal.
  rewrite length_app, Nat.add_1_r. simpl.
  rewrite alter_app_r_alt, Nat.sub_diag by done. done.
Qed.

Lemma menu_append_elements m w1 w2 :
  menu_append (menu_append m w1) w2 = mkMenu (menu_label m) (elements m ++ [w1; w2]).
Proof. unfold menu_append. simpl. by rewrite <- app_assoc. Qed.

(** What [init_ui] builds on the menu of the subclass. *)
Lemma init_ui_menu customize_menu p m :
  menu (customize_menu (add_menu p)) = Some m ->
  init_ui customize_menu p
  = (mkPlugin (self (customize_menu (add_menu p)))
       (Some (mkMenu (menu_label m) (elements m ++ exporter_widgets)))
       (menu_icon (customize_menu (add_menu p))), None).
Proof.
  intros Hm. unfold init_ui. rewrite Hm. rewrite !menu_alter_last_append.
  unfold menu_append, exporter_widgets. simpl. by rewrite <- !app_assoc.
Qed.

Lemma init_ui_no_menu customize_menu p :
  menu (customize_menu (add_menu p)) = None ->
  init_ui customize_menu p = (customize_menu (add_menu p), Some AttributeError).
Proof. intros Hm. unfold init_ui. by rewrite Hm. Qed.

(** [init_ui] itself does not touch the attributes of the plugin. *)
Lemma init_ui_self customize_menu p :
  self (init_ui customize_menu p).1 = self (customize_menu (add_menu p)).
Proof. unfold init_ui. by destruct (menu (customize_menu (add_menu p))). Qed.

(** ** Actions of the user *)

(** Through a write-protected widget the user changes nothing, or
    cancels. *)
Lemma widget_action_protected w a s :
  write_protected w = true ->
  widget_action w a s = s \/
  (widget_action w a s = cancel s /\ exists l i, w = Button l CallCancel /\ a = Click i).
Proof.
  destruct w as [attr l [|]|attr l [|] f|l []|t], a as [i v|i]; simpl; try done;
    intros _; try (by left).
  right. split; [done|]. by eexists _, _.
Qed.

Definition menu_protected p : Prop :=
  forall m, menu p = Some m -> Forall (fun w => write_protected w = true) (elements m).

Lemma user_action_protected p a :
  menu_protected p ->
  self (user_action p a) = self p \/ self (user_action p a) = cancel (self p).
Proof.
  intros Hp. unfold user_action. destruct (menu p) as [m|] eqn:Hm; [|by left].
  destruct (elements m !! action_index a) as [w|] eqn:Hw; [|by left].
  specialize (Hp m Hm). eapply Forall_lookup_1 in Hp; [|done]. simpl.
  destruct (widget_action_protected w a (self p) Hp) as [->|[-> _]]; auto.
Qed.

Lemma user_action_menu p a :
  menu (user_action p a) = menu p /\ menu_icon (user_action p a) = menu_icon p.
Proof.
  unfold user_action. destruct (menu p) as [m|] eqn:Hm; [|by rewrite Hm].
  by destruct (elements m !! action_index a).
Qed.

Lemma exporter_widgets_protected :
  Forall (fun w => write_protected w = true) exporter_widgets.
Proof. by repeat constructor. Qed.

Lemma init_ui_protected customize_menu p :
  menu_protected (customize_menu (add_menu p)) ->
  menu_protected (init_ui customize_menu p).1.
Proof.
  intros Hc. destruct (menu (customize_menu (add_menu p))) as [m|] eqn:Hm.
  - rewrite (init_ui_menu _ _ m Hm). intros m' [= <-]. simpl.
    apply Forall_app. split; [by apply Hc|apply exporter_widgets_protected].
  - by rewrite init_ui_no_menu.
Qed.

(** C37. Through the menu [init_ui] builds the user has one way to change
    the plugin: when the widgets of the subclass are write-protected, every
    action of the user leaves the attributes of the plugin as they are or
    runs [cancel], and a click on the last widget, the button "Cancel
    export", runs [cancel].  The status, the output and the progress cannot
    be edited. *)
Theorem init_ui_user_actions customize_menu p m a :
  menu (customize_menu (add_menu p)) = Some m ->
  Forall (fun w => write_protected w = true) (elements m) ->
  (self (user_action (init_ui customize_menu p).1 a) = self (init_ui customize_menu p).1 \/
   self (user_action (init_ui customize_menu p).1 a)
   = cancel (self (init_ui customize_menu p).1)) /\
  self (user_action (init_ui customize_menu p).1 (Click (length (elements m) + 3)))
  = cancel (self (init_ui customize_menu p).1).
Proof.
  intros Hm Hc. split.
  - apply user_action_protected, init_ui_protected. intros m' Hm'. congruence.
  - rewrite (init_ui_menu _ _ m Hm). unfold user_action. simpl.
    by rewrite lookup_app_r, Nat.add_comm, Nat.add_sub by lia.
Qed.

(** ** A sample plugin *)

(** A subclass that names its menu and explains itself. *)
Definition sample_customize_menu (p : Plugin) : Plugin :=
  mkPlugin (self p)
    (from_option (fun m => Some (menu_append (mkMenu "World Video Exporter" (elements m))
                                   (Info_Text "Export the world video.")))
       None (menu p))
    (menu_icon p).

Definition fresh_plugin : Plugin := mkPlugin init None None.

Lemma init_ui_user_actions_witness :
  (self (user_action (init_ui sample_customize_menu fresh_plugin).1
           (Edit 1 (UStr "Export has been canceled")))
   = self (init_ui sample_customize_menu fresh_plugin).1 \/
   self (user_action (init_ui sample_customize_menu fresh_plugin).1
           (Edit 1 (UStr "Export has been canceled")))
   = cancel (self (init_ui sample_customize_menu fresh_plugin).1)) /\
  self (user_action (init_ui sample_customize_menu fresh_plugin).1 (Click (1 + 3)))
  = cancel (self (init_ui sample_customize_menu fresh_plugin).1).
Proof.
  apply (init_ui_user_actions sample_customize_menu fresh_plugin
           (mkMenu "World Video Exporter" [Info_Text "Export the world video."]));
    [done|by repeat constructor].
Defined.
