(* ===== verification/ExporterInv.v ===== *)
(** * Invariants of the export job orchestrator

    Lemmas on the loops of [cancel] and [recent_events] over the task store;
    the invariants of the transition system of [Exporter] (every handle is
    valid, no task is registered twice, no registered task is cancelled, the
    log holds the announcements of the output directories) with
    the rule [reachable_rule] that carries an invariant to every reachable
    state; what the plugin can show when its tasks yield events of a given
    kind; the background process of one task; the equivalence
    of the loop of [recent_events] with its reference definition. *)

From stdpp Require Import gmap.
From S2P Require Import Prelude Pipeline Task Logging Exporter.

Local Open Scope Z_scope.

Implicit Types (s : State) (h : list Task) (ts : list (string * nat))
  (t : Task) (sp : string * Q) (i : nat).

(** The message [recent_events] shows for a cancelled task. *)
Definition canceled_message : string := "Export has been canceled".

(** ** The loop of [cancel] *)

Lemma cancel_tasks_length ts h : length (cancel_tasks ts h) = length h.
Proof.
  revert h. induction ts as [|[n i] ts IH]; intros h; simpl; [done|].
  by rewrite IH, length_alter.
Qed.

Lemma cancel_heap_length s : length (heap (cancel s)) = length (heap s).
Proof. apply cancel_tasks_length. Qed.

(** A task keeps its cancel flag under [cancel_tasks] unless its handle is in
    the list, and a flag that is set stays set. *)
Lemma cancel_tasks_lookup ts : forall h i t,
  h !! i = Some t ->
  exists t', cancel_tasks ts h !! i = Some t' /\
    task_unread t' = task_unread t /\
    (canceled t = true -> canceled t' = true) /\
    (i ∈ ts.*2 -> canceled t' = true) /\
    (i ∉ ts.*2 -> t' = t).
Proof.
  induction ts as [|[n j] ts IH]; intros h i t Hi; simpl.
  { exists t. split_and!; try done. by intros ?%elem_of_nil. }
  destruct (decide (j = i)) as [->|Hne].
  - destruct (IH (alter task_cancel i h) i (task_cancel t)) as (t' & Ht' & Hu & Hc & _).
    { by rewrite list_lookup_alter_eq, Hi. }
    exists t'. split_and!; try done; [by intros _; apply Hc|by intros _; apply Hc|].
    intros Hn. exfalso. apply Hn. left.
  - destruct (IH (alter task_cancel j h) i t) as (t' & Ht' & Hu & Hc & Hin & Hout).
    { by rewrite list_lookup_alter_ne. }
    exists t'. split_and!; try done.
    + intros [?|?]%elem_of_cons; [done|by apply Hin].
    + intros Hn. apply Hout. intros ?. apply Hn. by right.
Qed.

(** ** The loop of [recent_events] *)

Lemma poll_task_canceled sp t : canceled (poll_task sp t).2 = canceled t.
Proof. apply task_fetch_canceled. Qed.

(** The status a poll of an active task leaves: the last fetched event, or
    the status it found. *)
Lemma poll_task_active sp t :
  canceled t = false ->
  (poll_task sp t).1 = default sp (last (task_pipe t)) /\
  task_pipe (poll_task sp t).2 = [] /\
  task_future (poll_task sp t).2 = task_future t.
Proof.
  intros Hc. unfold poll_task. rewrite task_fetch_canceled, Hc.
  destruct (task_fetch_active t Hc) as (-> & Hp & Hf).
  split_and!; try done; by destruct (last (task_pipe t)).
Qed.

Lemma poll_tasks_length ts : forall sp h, length (poll_tasks ts sp h).2 = length h.
Proof.
  induction ts as [|[n i] ts IH]; intros sp h; simpl; [done|].
  destruct (h !! i); rewrite IH; [by rewrite length_insert|done].
Qed.

#[export] Hint Rewrite cancel_tasks_length cancel_heap_length poll_tasks_length
  poll_task_canceled : vx_rw.

(** Polling changes no cancel flag. *)
Lemma poll_tasks_canceled ts : forall sp h i t,
  h !! i = Some t ->
  exists t', (poll_tasks ts sp h).2 !! i = Some t' /\ canceled t' = canceled t.
Proof.
  induction ts as [|[n j] ts IH]; intros sp h i t Hi; simpl; [by exists t|].
  destruct (h !! j) as [tj|] eqn:Hj; [|by apply IH].
  destruct (decide (j = i)) as [->|Hne].
  - destruct (IH (poll_task sp tj).1 (<[i:=(poll_task sp tj).2]> h) i
                (poll_task sp tj).2) as (t' & Ht' & Hc).
    { apply list_lookup_insert_eq. by eapply lookup_lt_Some. }
    exists t'. split; [done|]. rewrite Hc, poll_task_canceled. congruence.
  - apply IH. by rewrite list_lookup_insert_ne.
Qed.

(** Without a task in the registry a poll changes nothing. *)
Lemma poll_tasks_nil sp h : poll_tasks [] sp h = (sp, h).
Proof. done. Qed.

(** ** The invariants of the transition system *)

Lemma handles_ok_step ok s s' : step ok s s' -> handles_ok s -> handles_ok s'.
Proof.
  unfold handles_ok. destruct 1 as [s i|s|s|s d|s name evs _]; simpl; intros Hh;
    autorewrite with vx_rw; try done.
  simpl. apply Forall_app. split.
  - eapply Forall_impl; [done|]. simpl. lia.
  - repeat constructor. simpl. lia.
Qed.

Lemma registry_active_step ok s s' :
  step ok s s' -> handles_ok s -> registry_active s -> registry_active s'.
Proof.
  unfold registry_active, handles_ok.
  destruct 1 as [s i|s|s|s d|s name evs _]; simpl; intros Hh Ha.
  - eapply Forall_impl; [done|]. intros [n j] Hj t. simpl in *.
    destruct (decide (i = j)) as [->|Hne].
    + rewrite list_lookup_alter_eq. destruct (heap s !! j) as [tj|] eqn:E; [|done].
      intros [= <-]. rewrite task_work_canceled. by apply Hj.
    + rewrite list_lookup_alter_ne by done. apply Hj.
  - eapply Forall_impl; [done|]. intros [n j] Hj t Ht. simpl in *.
    destruct (heap s !! j) as [tj|] eqn:E.
    + destruct (poll_tasks_canceled (export_tasks s) (status s, progress_attr s)
                  (heap s) j tj E) as (t' & Ht' & Hc).
      rewrite Ht in Ht'. injection Ht' as <-. rewrite Hc. by apply Hj.
    + apply lookup_ge_None in E. apply lookup_lt_Some in Ht.
      rewrite poll_tasks_length in Ht. lia.
  - constructor.
  - done.
  - apply Forall_app. split.
    + apply Forall_forall. intros [n j] Hin t. simpl.
      rewrite Forall_forall in Hh, Ha. specialize (Hh _ Hin). specialize (Ha _ Hin).
      simpl in *. rewrite lookup_app_l by done. apply Ha.
    + repeat constructor. simpl. intros t.
      rewrite lookup_app_r, Nat.sub_diag by done. by intros [= <-].
Qed.

Lemma reachable_invariant ok s :
  reachable ok s -> handles_ok s /\ registry_active s.
Proof.
  revert s. apply rtc_ind_r.
  - split; constructor.
  - intros s1 s2 _ Hstep [Hh Ha].
    split; [by eapply handles_ok_step|by eapply registry_active_step].
Qed.

(** The rule for invariants of the reachable states: [I] holds at the start
    and every step from a reachable state keeps it. *)
Lemma reachable_rule ok (I : State -> Prop) :
  I init ->
  (forall s s', reachable ok s -> step ok s s' -> I s -> I s') ->
  forall s, reachable ok s -> I s.
Proof.
  intros Hinit Hstep. apply rtc_ind_r; [done|].
  intros s1 s2 Hs1 Hs12 HI. by eapply Hstep.
Qed.

(** One more step from a reachable state.  With the constructors of [step]
    as hints, [eauto with vx] proves that a method keeps the plugin
    reachable. *)
Lemma reachable_step ok s s' : reachable ok s -> step ok s s' -> reachable ok s'.
Proof. intros Hs Hstep. by eapply rtc_r. Qed.

Lemma reachable_init ok : reachable ok init.
Proof. apply rtc_refl. Qed.

#[export] Hint Constructors step : vx.
#[export] Hint Resolve reachable_init reachable_step : vx.

Lemma handles_nodup_step ok s s' :
  step ok s s' -> handles_ok s -> handles_nodup s -> handles_nodup s'.
Proof.
  unfold handles_nodup, handles_ok.
  destruct 1 as [s i|s|s|s d|s name evs _]; simpl; intros Hh Hn; try done.
  - constructor.
  - rewrite fmap_app. simpl. apply NoDup_app. split_and!; [done| |apply NoDup_singleton].
    intros i (nt & Hi & Hin)%list_elem_of_fmap Hl%list_elem_of_singleton.
    rewrite Forall_forall in Hh. specialize (Hh nt Hin). lia.
Qed.

Lemma reachable_nodup ok s : reachable ok s -> handles_nodup s.
Proof.
  apply reachable_rule; [constructor|].
  intros s1 s2 [Hh _]%reachable_invariant Hstep Hn. by eapply handles_nodup_step.
Qed.

(** ** The log *)

Lemma announce_output_log_ok s d : log_ok s -> log_ok (announce_output s d).
Proof.
  intros [Hl _]. split; simpl.
  - apply Forall_app. split; [done|]. apply Forall_singleton. eauto.
  - rewrite Logger_info_messages, last_snoc. case_decide as Hn; [|done].
    by apply app_eq_nil in Hn as [_ ?].
Qed.

Lemma log_ok_step ok s s' : step ok s s' -> log_ok s -> log_ok s'.
Proof. destruct 1; try done. apply announce_output_log_ok. Qed.

Lemma reachable_log_ok ok s : reachable ok s -> log_ok s.
Proof.
  apply reachable_rule; [by split; [constructor|]|].
  intros s1 s2 _ Hstep Hl. by eapply log_ok_step.
Qed.

Lemma step_mono (ok ok' : list Event -> Prop) s s' :
  (forall evs, ok evs -> ok' evs) -> step ok s s' -> step ok' s s'.
Proof. intros Hok. destruct 1; constructor. by apply Hok. Qed.

Lemma reachable_mono (ok ok' : list Event -> Prop) s :
  (forall evs, ok evs -> ok' evs) -> reachable ok s -> reachable ok' s.
Proof.
  intros Hok. unfold reachable. apply rtc_subrel. intros s1 s2. by apply step_mono.
Qed.

(** ** What the plugin can show

    [R] is a property of events.  When every task yields only events in [R]
    and the plugin starts with a status and a progress in [R], what it shows
    stays in [R]: the only other value [recent_events] writes is the
    cancellation message, for a task of the registry that is cancelled, and
    the registry holds none. *)

Section shown.
Context (R : Event -> Prop).

Definition task_in t : Prop := Forall R (task_pipe t) /\ Forall R (task_future t).

Definition state_in s : Prop :=
  R (status s, progress_attr s) /\ Forall task_in (heap s).

Lemma task_in_work t : task_in t -> task_in (task_work t).
Proof.
  destruct t as [n [|ev f] p []]; unfold task_in, task_work; simpl; try done.
  intros [Hp [Hev Hf]%Forall_cons]. split; [|done].
  apply Forall_app. split; [done|]. by repeat constructor.
Qed.

Lemma task_in_new name evs : Forall R evs -> task_in (Task_Proxy name evs).
Proof. intros Hevs. split; [constructor|done]. Qed.

(** A poll of an active task. *)
Lemma poll_task_in sp t :
  canceled t = false -> task_in t -> R sp ->
  R (poll_task sp t).1 /\ task_in (poll_task sp t).2 /\
  canceled (poll_task sp t).2 = false.
Proof.
  intros Hc [Hp Hf] Hsp.
  destruct (poll_task_active sp t Hc) as (-> & Hp' & Hf').
  split_and!.
  - destruct (last (task_pipe t)) as [ev|] eqn:Hl; [|done].
    apply last_Some in Hl as [evs' Hl]. rewrite Hl in Hp. simpl.
    by apply Forall_app in Hp as [_ [? _]%Forall_cons].
  - unfold task_in. rewrite Hp', Hf'. split; [constructor|done].
  - by rewrite poll_task_canceled.
Qed.

Lemma poll_tasks_in ts : forall sp h,
  Forall (fun nt : string * nat =>
            forall t, h !! nt.2 = Some t -> canceled t = false) ts ->
  Forall task_in h -> R sp ->
  R (poll_tasks ts sp h).1 /\ Forall task_in (poll_tasks ts sp h).2.
Proof.
  induction ts as [|[n i] ts IH]; intros sp h Ha Hh Hsp; simpl; [done|].
  apply Forall_cons in Ha as [Hi Ha]. simpl in Hi.
  destruct (h !! i) as [t|] eqn:Ht; [|by apply IH].
  destruct (poll_task_in sp t) as (Hsp' & Hc' & Hn'); [by apply Hi| |done|].
  { by eapply Forall_lookup_1 in Hh. }
  apply IH; [|by apply Forall_insert|done].
  eapply Forall_impl; [done|]. intros [m j] Hj t'. simpl in *.
  destruct (decide (i = j)) as [->|Hne].
  - rewrite list_lookup_insert_eq by (by eapply lookup_lt_Some). by intros [= <-].
  - rewrite list_lookup_insert_ne by done. apply Hj.
Qed.

Lemma cancel_tasks_in ts : forall h,
  Forall task_in h -> Forall task_in (cancel_tasks ts h).
Proof.
  induction ts as [|[n i] ts IH]; intros h Hh; simpl; [done|].
  apply IH. by apply Forall_alter.
Qed.

Lemma state_in_step s s' :
  step (Forall R) s s' -> registry_active s -> state_in s -> state_in s'.
Proof.
  unfold state_in. destruct 1 as [s i|s|s|s d|s name evs Hev]; simpl;
    intros Ha [Hs Hh].
  - split; [done|]. apply Forall_alter; [done|]. intros t _. apply task_in_work.
  - destruct (poll_tasks_in (export_tasks s) (status s, progress_attr s) (heap s))
      as [Hr Hh']; [done..|].
    by destruct (poll_tasks _ _ _).1.
  - split; [done|]. by apply cancel_tasks_in.
  - done.
  - split; [done|]. apply Forall_app. split; [done|].
    repeat constructor; simpl; done.
Qed.

Lemma reachable_state_in s :
  R (status init, progress_attr init) -> reachable (Forall R) s -> state_in s.
Proof.
  intros Hinit. apply reachable_rule; [by split; [|constructor]|].
  intros s1 s2 [_ Ha]%reachable_invariant Hstep Hin. by eapply state_in_step.
Qed.

End shown.

(** [recent_events] with one active task in the registry shows the last
    event the task produced since the previous poll, and empties the task's
    pipe. *)
Lemma recent_events_single s name i t ev :
  export_tasks s = [(name, i)] -> heap s !! i = Some t ->
  canceled t = false -> last (task_pipe t) = Some ev ->
  status (recent_events s) = ev.1 /\ progress_attr (recent_events s) = ev.2 /\
  (task_pipe <$> heap (recent_events s) !! i) = Some [].
Proof.
  intros Hts Ht Hc Hl. unfold recent_events. rewrite Hts.
  cbn [poll_tasks]. rewrite Ht. cbn [poll_tasks status progress_attr heap fst snd].
  destruct (poll_task_active (status s, progress_attr s) t Hc) as (-> & Hp & _).
  rewrite Hl, list_lookup_insert_eq by (by eapply lookup_lt_Some).
  cbn [fmap option_fmap option_map default fst snd]. by rewrite Hp.
Qed.

(** ** The background process *)

(** A task that is not cancelled and is given enough steps has moved every
    event of its generator into the pipe, in order. *)
Lemma task_work_iter n : forall t,
  canceled t = false -> (length (task_future t) <= n)%nat ->
  Nat.iter n task_work t = mkTask (task_title t) [] (task_unread t) false.
Proof.
  unfold task_unread.
  induction n as [|n IH]; intros [name f p c] Hc Hn; simpl in *; subst c.
  - destruct f; simpl in *; [by rewrite app_nil_r|lia].
  - rewrite <- Nat.iter_succ, Nat.iter_succ_r. destruct f as [|ev f]; simpl in *.
    + rewrite IH by (simpl; done || lia). done.
    + rewrite IH by (simpl; done || lia). simpl. by rewrite <- app_assoc.
Qed.

(** ** [recent_events] and its reference definition *)

Lemma last_app_default {A} (x : A) (l1 l2 : list A) :
  default (default x (last l1)) (last l2) = default x (last (l1 ++ l2)).
Proof. rewrite last_app. by destruct (last l2). Qed.

(** A poll of the task [i] does not change what the other tasks hold. *)
Lemma registered_pipes_insert ts h i t :
  i ∉ ts.*2 -> registered_pipes ts (<[i := t]> h) = registered_pipes ts h.
Proof.
  intros Hi. unfold registered_pipes.
  apply list_omap_ext, Forall_Forall2_diag, Forall_forall.
  intros nt Hin. rewrite list_lookup_insert_ne; [done|].
  intros ->. apply Hi, list_elem_of_fmap. by exists nt.
Qed.

Lemma poll_tasks_cons n i ts sp h :
  poll_tasks ((n, i) :: ts) sp h
  = match h !! i with
    | Some t => poll_tasks ts (poll_task sp t).1 (<[i := (poll_task sp t).2]> h)
    | None => poll_tasks ts sp h
    end.
Proof. done. Qed.

Lemma registered_pipes_cons n i ts h :
  registered_pipes ((n, i) :: ts) h
  = from_option (fun t => [task_pipe t]) [] (h !! i) ++ registered_pipes ts h.
Proof. unfold registered_pipes. cbn. by destruct (h !! i). Qed.

(** The loop of [recent_events] over distinct live tasks leaves the last
    event of all their pipes. *)
Lemma poll_tasks_latest ts : forall sp h,
  NoDup ts.*2 ->
  Forall (fun nt : string * nat =>
            forall t, h !! nt.2 = Some t -> canceled t = false) ts ->
  (poll_tasks ts sp h).1 = default sp (latest_event ts h).
Proof.
  unfold latest_event.
  induction ts as [|[n i] ts IH]; intros sp h Hn Ha; [done|].
  apply NoDup_cons in Hn as [Hi Hn]. apply Forall_cons in Ha as [Hai Ha].
  rewrite poll_tasks_cons, registered_pipes_cons. cbn [snd] in Hai.
  destruct (h !! i) as [t|] eqn:Ht; [|by apply IH].
  destruct (poll_task_active sp t (Hai t eq_refl)) as (Hsp & _ & _).
  rewrite IH; [|done|].
  - rewrite Hsp, registered_pipes_insert by done.
    cbn [from_option]. rewrite concat_app. cbn [concat]. rewrite app_nil_r.
    apply last_app_default.
  - eapply Forall_impl; [done|]. intros [m j] Hj t'. cbn [snd] in *.
    destruct (decide (i = j)) as [->|Hne].
    + rewrite list_lookup_insert_eq by (by eapply lookup_lt_Some).
      intros [= <-]. etrans; [apply (poll_task_canceled sp t)|]. by apply Hai.
    + rewrite list_lookup_insert_ne by done. apply Hj.
Qed.

(** ** A second poll

    A task is quiet when it is not cancelled and its pipe is empty.  A poll
    leaves every registered task quiet, and a poll of quiet tasks changes
    nothing. *)

Definition quiet t : Prop := canceled t = false /\ task_pipe t = [].

Lemma poll_task_quiet sp t : quiet t -> poll_task sp t = (sp, t).
Proof.
  intros [Hc Hp]. destruct t as [n f p c]. simpl in *. subst.
  by unfold poll_task, task_fetch.
Qed.

Lemma poll_task_makes_quiet sp t : canceled t = false -> quiet (poll_task sp t).2.
Proof.
  intros Hc. destruct (poll_task_active sp t Hc) as (_ & Hp & _).
  unfold quiet. by rewrite poll_task_canceled.
Qed.

(** A poll of the task [i] keeps the registered tasks live. *)
Lemma poll_keeps_active ts sp h i t :
  h !! i = Some t -> canceled t = false ->
  Forall (fun nt : string * nat =>
            forall t, h !! nt.2 = Some t -> canceled t = false) ts ->
  Forall (fun nt : string * nat =>
            forall t', <[i := (poll_task sp t).2]> h !! nt.2 = Some t' ->
                       canceled t' = false) ts.
Proof.
  intros Ht Hc Ha. eapply Forall_impl; [done|]. intros [m j] Hj t'. cbn [snd] in *.
  destruct (decide (i = j)) as [->|Hne].
  - rewrite list_lookup_insert_eq by (by eapply lookup_lt_Some).
    intros [= <-]. by etrans; [apply (poll_task_canceled sp t)|].
  - rewrite list_lookup_insert_ne by done. apply Hj.
Qed.

Lemma poll_tasks_quiet ts : forall sp h,
  Forall (fun nt : string * nat => forall t, h !! nt.2 = Some t -> quiet t) ts ->
  poll_tasks ts sp h = (sp, h).
Proof.
  induction ts as [|[n i] ts IH]; intros sp h Hq; [done|].
  apply Forall_cons in Hq as [Hi Hq]. rewrite poll_tasks_cons. cbn [snd] in Hi.
  destruct (h !! i) as [t|] eqn:Ht; [|by apply IH].
  rewrite (poll_task_quiet sp t (Hi t eq_refl)). cbn [fst snd].
  rewrite list_insert_id by done. by apply IH.
Qed.

(** After a poll a task is quiet if it was registered or quiet before. *)
Lemma poll_tasks_makes_quiet ts : forall sp h j t',
  Forall (fun nt : string * nat =>
            forall t, h !! nt.2 = Some t -> canceled t = false) ts ->
  j ∈ ts.*2 \/ (forall t, h !! j = Some t -> quiet t) ->
  (poll_tasks ts sp h).2 !! j = Some t' -> quiet t'.
Proof.
  induction ts as [|[n i] ts IH]; intros sp h j t' Ha Hj.
  { destruct Hj as [?%elem_of_nil|Hj]; [done|apply Hj]. }
  apply Forall_cons in Ha as [Hai Ha]. cbn [snd] in Hai.
  rewrite poll_tasks_cons. destruct (h !! i) as [t|] eqn:Ht.
  - apply IH; [by apply poll_keeps_active; auto|].
    destruct (decide (j = i)) as [->|Hne].
    + right. intros t0. rewrite list_lookup_insert_eq by (by eapply lookup_lt_Some).
      intros [= <-]. exact (poll_task_makes_quiet sp t (Hai t eq_refl)).
    + destruct Hj as [[?|?]%elem_of_cons|Hj]; [done|by left|right].
      by rewrite list_lookup_insert_ne.
  - intros Hl. apply (IH sp h j t' Ha); [|done].
    destruct Hj as [[->|?]%elem_of_cons|Hj]; [|by left|by right].
    apply lookup_lt_Some in Hl. rewrite poll_tasks_length in Hl.
    apply lookup_ge_None in Ht. cbn [fmap snd] in Hl. lia.
Qed.

(** On a state whose registry holds live tasks only, a second poll changes
    nothing. *)
Lemma recent_events_twice s :
  registry_active s -> recent_events (recent_events s) = recent_events s.
Proof.
  intros Ha. unfold recent_events at 1. rewrite poll_tasks_quiet.
  - by destruct (recent_events s).
  - apply Forall_forall. intros nt Hin t Ht.
    eapply poll_tasks_makes_quiet; [exact Ha| |exact Ht].
    left. apply list_elem_of_fmap. by exists nt.
Qed.
