(* ===== verification/Schedule.v ===== *)
(** * Schedules of the background processes

    Every task has a process of its own, and the processes take their steps
    in an order the plugin does not control.  A schedule is that order: the
    list of the handles of the tasks whose process steps next.  The
    processes share nothing, so steps of different tasks commute and the
    state a schedule leaves depends only on how many steps each task took
    ([run_schedule] respects permutation); a task has moved all its events
    into its pipe as soon as the schedule gave it enough steps, whatever
    the other processes did in between. *)

From stdpp Require Import gmap.
From S2P Require Import Prelude Pipeline Task Logging Exporter ExporterInv.

Implicit Types (s : State) (h : list Task) (t : Task) (i j : nat)
  (sched : list nat).

(** The steps of the processes named by [sched], in order. *)
Fixpoint run_schedule sched s : State :=
  match sched with
  | [] => s
  | i :: sched' => run_schedule sched' (work s i)
  end.

(** The number of steps [sched] gives to the task with handle [i]. *)
Definition steps_of i sched : nat := length (filter (fun j => j = i) sched).

(** Steps of the processes of two tasks commute. *)
Lemma work_comm s i j : work (work s i) j = work (work s j) i.
Proof.
  unfold work. simpl. f_equal. destruct (decide (i = j)) as [->|Hij]; [done|].
  by apply list_alter_comm.
Qed.

(** The state the background processes leave depends on the number of steps
    each of them took, not on their interleaving. *)
#[export] Instance run_schedule_perm : Proper ((≡ₚ) ==> (=) ==> (=)) run_schedule.
Proof.
  intros sched1 sched2 Hp s ? <-. revert s.
  induction Hp as [|i l1 l2 _ IH|i j l|l1 l2 l3 _ IH1 _ IH2]; intros s; simpl.
  - done.
  - apply IH.
  - by rewrite work_comm.
  - by rewrite IH1.
Qed.

#[export] Instance steps_of_perm i : Proper ((≡ₚ) ==> (=)) (steps_of i).
Proof. intros sched1 sched2 Hp. unfold steps_of. by rewrite Hp. Qed.

Lemma steps_of_replicate n i : steps_of i (replicate n i) = n.
Proof.
  unfold steps_of. induction n as [|n IH]; [done|]. simpl replicate.
  rewrite filter_cons_True by done. simpl. by rewrite IH.
Qed.

Lemma run_schedule_reachable ok sched : forall s,
  reachable ok s -> reachable ok (run_schedule sched s).
Proof. induction sched as [|i sched IH]; intros s Hs; simpl; eauto with vx. Qed.

(** A schedule changes nothing but the task objects. *)
Lemma run_schedule_attrs sched : forall s,
  run_schedule sched s
  = mkState (export_tasks s) (status s) (progress_attr s) (output s)
      (heap (run_schedule sched s)) (log s).
Proof.
  induction sched as [|i sched IH]; intros s; simpl; [by destruct s|].
  by rewrite IH at 1.
Qed.

(** The task with handle [i] has taken the steps the schedule gave it. *)
Lemma run_schedule_lookup sched : forall s i,
  heap (run_schedule sched s) !! i
  = Nat.iter (steps_of i sched) task_work <$> heap s !! i.
Proof.
  unfold steps_of.
  induction sched as [|j sched IH]; intros s i; simpl.
  { by destruct (heap s !! i). }
  rewrite IH. unfold work. cbn [heap]. destruct (decide (j = i)) as [->|Hne].
  - rewrite filter_cons_True, list_lookup_alter_eq by done.
    destruct (heap s !! i) as [t|]; [|done]. cbn [fmap option_fmap option_map length].
    f_equal. symmetry. apply Nat.iter_succ_r.
  - by rewrite filter_cons_False, list_lookup_alter_ne by done.
Qed.

(** A job registered in a plugin without jobs and polled after a schedule
    that gave it at least as many steps as it has events shows its last
    event, whatever the other processes did in between. *)
Lemma job_last_event_scheduled s name evs ev sched :
  export_tasks s = [] -> last evs = Some ev ->
  (length evs <= steps_of (length (heap s)) sched)%nat ->
  status (recent_events (run_schedule sched (register_task s name evs))) = ev.1 /\
  progress_attr (recent_events (run_schedule sched (register_task s name evs))) = ev.2.
Proof.
  intros Hts Hl Hn.
  destruct (recent_events_single (run_schedule sched (register_task s name evs))
    "taskname" (length (heap s))
    (mkTask (name +:+ " Video Export") [] evs false) ev) as (? & ? & _); try done.
  - rewrite run_schedule_attrs. simpl. by rewrite Hts.
  - rewrite run_schedule_lookup. simpl.
    rewrite lookup_app_r, Nat.sub_diag by done. simpl. by rewrite task_work_iter.
Qed.
