(* ===== verification/ExporterProofs.v ===== *)
(** * Properties of the methods of the export job orchestrator

    The theorems on [cancel], [recent_events] and [on_notify], from the
    lemmas of [ExporterInv], and the sample states they are applied to. *)

From stdpp Require Import gmap.
From S2P Require Import Prelude Pipeline Task Logging Exporter ExporterInv.

Local Open Scope Z_scope.

Implicit Types (s : State) (h : list Task) (ts : list (string * nat))
  (t : Task) (sp : string * Q) (i : nat).

(** ** The methods of the plugin *)

(** A plugin with one job that yields two events. *)
Definition one_job : State :=
  register_task init "World" [ev_converting; ev_completed].

Lemma one_job_reachable : reachable (fun _ => True) one_job.
Proof. apply rtc_once. by constructor. Qed.

(** C39. [cancel] forgets every task and cancels each of them: a task that
    was in the registry is still in the store, its flag is set, and a
    [fetch] on it gives no event any more. *)
Theorem cancel_cancels_registered s nt t :
  nt ∈ export_tasks s -> heap s !! nt.2 = Some t ->
  export_tasks (cancel s) = [] /\
  exists t', heap (cancel s) !! nt.2 = Some t' /\ canceled t' = true /\
             (task_fetch t').1 = [].
Proof.
  intros Hin Ht. split; [done|]. simpl.
  destruct (cancel_tasks_lookup (export_tasks s) (heap s) nt.2 t Ht)
    as (t' & Ht' & _ & _ & Hc & _).
  exists t'. assert (canceled t' = true) as Hc'.
  { apply Hc. apply list_elem_of_fmap. by exists nt. }
  split_and!; [done..|]. unfold task_fetch. by rewrite Hc'.
Qed.

(** A plugin with two jobs: the first has yielded one event, the second
    two. *)
Definition two_jobs : State :=
  work (work (work
    (register_task (register_task init "World" [ev_converting; ev_completed])
       "Eye" [ev_converting; ev_failed]) 0) 1) 1.

Lemma two_jobs_reachable : reachable (fun _ => True) two_jobs.
Proof.
  unfold two_jobs. do 3 (eapply rtc_r; [|apply step_work]).
  eapply rtc_r; [|by apply step_register]. apply rtc_once. by apply step_register.
Qed.

Lemma cancel_cancels_registered_witness :
  export_tasks (cancel one_job) = [] /\
  exists t', heap (cancel one_job) !! 0%nat = Some t' /\ canceled t' = true /\
             (task_fetch t').1 = [].
Proof.
  apply (cancel_cancels_registered one_job ("taskname"%string, 0%nat)
           (Task_Proxy "World Video Export" [ev_converting; ev_completed])).
  - vm_compute. left.
  - reflexivity.
Defined.

(** The plugin never holds a cancelled task: in every state it can reach,
    each entry of the registry names a task of the store that is not
    cancelled, so the loop of [recent_events] takes the status from the
    task's last event and never from the branch of lines 226-229. *)
Theorem registered_tasks_never_canceled ok s nt sp :
  reachable ok s -> nt ∈ export_tasks s ->
  exists t, heap s !! nt.2 = Some t /\ canceled t = false /\
            (poll_task sp t).1 = default sp (last (task_pipe t)).
Proof.
  intros [Hh Ha]%reachable_invariant Hin.
  unfold handles_ok, registry_active in *. rewrite Forall_forall in Hh, Ha.
  destruct (lookup_lt_is_Some_2 (heap s) nt.2 (Hh nt Hin)) as [t Ht].
  exists t. split; [done|]. pose proof (Ha nt Hin t Ht) as Hc.
  split; [done|]. by apply poll_task_active.
Qed.

Lemma registered_tasks_never_canceled_witness :
  exists t, heap one_job !! 0%nat = Some t /\ canceled t = false /\
            (poll_task ("Not exporting"%string, 0%Q) t).1
            = default ("Not exporting"%string, 0%Q) (last (task_pipe t)).
Proof.
  apply (registered_tasks_never_canceled (fun _ => True) one_job
           ("taskname"%string, 0%nat)).
  - exact one_job_reachable.
  - vm_compute. left.
Defined.

(** After [cancel] the registry is empty, so the next [recent_events]
    changes nothing: the status and the progress stay what they were before
    the cancellation, and the message of line 228 is not shown. *)
Theorem cancel_then_poll_shows_nothing s :
  recent_events (cancel s) = cancel s /\
  status (recent_events (cancel s)) = status s /\
  progress_attr (recent_events (cancel s)) = progress_attr s.
Proof. done. Qed.

(** C26. [recent_events] is equivalent to its reference definition on every
    state the plugin can reach, with any number of tasks in the registry:
    after the poll the plugin shows the last event that any registered task
    produced since the previous poll, the tasks taken in the order of the
    registry, and what it showed before when no task produced an event. *)
Theorem recent_events_shows_latest ok s :
  reachable ok s ->
  (status (recent_events s), progress_attr (recent_events s)) = recent_events_spec s.
Proof.
  intros Hs. destruct (reachable_invariant ok s Hs) as [_ Ha].
  unfold recent_events_spec. rewrite <- poll_tasks_latest;
    [|by apply (reachable_nodup ok)|done].
  unfold recent_events. simpl. by destruct (poll_tasks _ _ _).1.
Qed.

(** C29. The log and the [output] attribute agree in every state the plugin
    can reach: the log holds nothing but INFO records of the module's logger
    that announce an output directory, and [output], which the menu shows as
    "Last export", is the directory announced last (the log is empty as long
    as no job got as far as its output directory). *)
Theorem log_announces_output ok s :
  reachable ok s ->
  Forall (fun r => log_name r = logger /\ log_level r = INFO /\
                   exists d, log_msg r = ("Exporting to " +:+ d)%string) (log s) /\
  last (messages (log s))
  = if decide (log s = []) then None else Some ("Exporting to " +:+ output s)%string.
Proof. apply reachable_log_ok. Qed.

(** C38. A second poll changes nothing.  In every state the plugin can
    reach, [recent_events] called twice in a row leaves the state the first
    call left: the first call emptied the pipes of the registered tasks, so
    the second finds no event, keeps the status and the progress, and
    writes back the tasks as they were.  Completed tasks can therefore stay
    in the registry: they are polled on every tick without effect. *)
Theorem recent_events_idempotent ok s :
  reachable ok s -> recent_events (recent_events s) = recent_events s.
Proof. intros [_ Ha]%reachable_invariant. by apply recent_events_twice. Qed.

(** A notification on another subject changes nothing. *)
Theorem on_notify_other_subject {W} export_data s (w : W) notification v :
  notification !! "subject" = Some v -> is_should_export v = false ->
  on_notify export_data s w notification = (s, w, None).
Proof. intros Hs Hv. unfold on_notify, notification_get. by rewrite Hs, Hv. Qed.

(** A notification "should_export" cancels the running jobs and then
    calls [export_data] on the range and the directory of the notification. *)
Theorem on_notify_should_export {W} export_data s (w : W) notification range
    export_dir :
  notification !! "subject" = Some (NStr "should_export") ->
  notification !! "range" = Some range ->
  notification !! "export_dir" = Some export_dir ->
  on_notify export_data s w notification = export_data (cancel s) w range export_dir.
Proof.
  intros Hs Hr Hd. unfold on_notify, notification_get. by rewrite Hs, Hr, Hd.
Qed.

(** C36. A notification "should_export" without a range raises [KeyError]
    after the running jobs were cancelled: the jobs are lost, no new one is
    started, and nothing outside the plugin has changed. *)
Theorem on_notify_missing_range {W} export_data s (w : W) notification :
  notification !! "subject" = Some (NStr "should_export") ->
  notification !! "range" = None ->
  on_notify export_data s w notification = (cancel s, w, Some KeyError).
Proof. intros Hs Hr. unfold on_notify, notification_get. by rewrite Hs, Hr. Qed.

(** ** Sample notifications *)

Definition note_export : gmap string NValue :=
  <["subject" := NStr "should_export"]>
    (<["range" := NRange (5.2, 7.6)%Q]> (<["export_dir" := NStr "/exports/000"]> ∅)).

Definition note_other : gmap string NValue :=
  {["subject" := NStr "min_data_confidence_changed"]}.

Definition note_no_range : gmap string NValue := {["subject" := NStr "should_export"]}.

(** An [export_data] that registers one job. *)
Definition export_one (s : State) (w : unit) (range export_dir : NValue)
  : State * unit * option exn :=
  (register_task s "World" [ev_converting; ev_completed], w, None).

Lemma on_notify_other_subject_witness :
  on_notify export_one one_job () note_other = (one_job, (), None).
Proof.
  by apply (on_notify_other_subject _ _ _ _ (NStr "min_data_confidence_changed")).
Defined.

Lemma on_notify_should_export_witness :
  on_notify export_one one_job () note_export
  = export_one (cancel one_job) () (NRange (5.2, 7.6)%Q) (NStr "/exports/000").
Proof. by apply on_notify_should_export. Defined.

Lemma on_notify_missing_range_witness :
  on_notify export_one one_job () note_no_range = (cancel one_job, (), Some KeyError).
Proof. by apply on_notify_missing_range. Defined.

Lemma recent_events_shows_latest_witness :
  (status (recent_events two_jobs), progress_attr (recent_events two_jobs))
  = recent_events_spec two_jobs.
Proof.
  apply (recent_events_shows_latest (fun _ => True)). exact two_jobs_reachable.
Defined.

(** A plugin that announced two output directories and started one job. *)
Definition two_exports : State :=
  register_task (announce_output (announce_output init "/exports/000/a") "/exports/001/a")
    "World" [ev_converting; ev_completed].

Lemma two_exports_reachable : reachable (fun _ => True) two_exports.
Proof. unfold two_exports. eauto 8 with vx. Qed.

Lemma log_announces_output_witness :
  Forall (fun r => log_name r = logger /\ log_level r = INFO /\
                   exists d, log_msg r = ("Exporting to " +:+ d)%string)
    (log two_exports) /\
  last (messages (log two_exports))
  = if decide (log two_exports = []) then None
    else Some ("Exporting to " +:+ output two_exports)%string.
Proof. apply (log_announces_output (fun _ => True)). exact two_exports_reachable. Defined.

Lemma recent_events_idempotent_witness :
  recent_events (recent_events two_jobs) = recent_events two_jobs.
Proof. apply (recent_events_idempotent (fun _ => True)). exact two_jobs_reachable. Defined.
