(* ===== verification/Jobs.v ===== *)
(** * Starting an export job: [add_export_job]

    The two methods of [VideoExporter] that touch the file system:
    [get_recording_start_date] (lines 234-240) reads the start of the
    recording from [info.csv], and [add_export_job] (lines 183-215) names
    and creates the output directory, announces it in the log, finds the
    source video, and registers a
    task that runs [export_processed_h264].  A method gives the state of the
    plugin and of the world it reached with its result, so that what was
    done before an exception is part of the outcome.  [world_le] and
    [output_exists] relate the plugin to the world it has changed. *)

From Stdlib Require Import Strings.Ascii.
From stdpp Require Import gmap.
From S2P Require Import Prelude Rounding FrameSource Encoder Resolver Pipeline Task Paths.
From S2P Require Import Exporter.

Local Open Scope Z_scope.

(** The extensions of line 201. *)
Definition accepted_extensions : list string :=
  [".mp4"; ".mkv"; ".avi"; ".mjpeg"]%string.

(** [os.path.splitext(f)[-1] in (".mp4", ".mkv", ".avi", ".mjpeg")] *)
Definition accepted (f : string) : bool :=
  bool_decide (splitext_ext f ∈ accepted_extensions).

Section jobs.
Context {Image : Type} `{Encoder Image E} {rnd : Rounding}.

(** What the plugin reads of its host ([g_pool]) and of the machine. *)
Record World : Type := mkWorld {
  rec_dir : string;
  g_timestamps : list Q;
  fs : FileSystem;
  videos : gmap string (VideoFile Image);
  cpu_count : Z;
}.

Definition world_env (w : World) : Env Image := mkEnv (videos w) (cpu_count w).

Definition with_fs (w : World) (f : FileSystem) : World :=
  mkWorld (rec_dir w) (g_timestamps w) f (videos w) (cpu_count w).

(** [get_recording_start_date] (lines 234-240) *)
Definition get_recording_start_date (w : World) : result string :=
  let csv_loc := path_join (rec_dir w) "info.csv" in
  rec_info <~ open_key_value_file (fs w) csv_loc;;
  d <~ dict_get rec_info "Start Date";;
  let date := str_replace ":" "_" (str_replace "." "_" d) in
  t <~ dict_get rec_info "Start Time";;
  let time := str_replace ":" "_" t in
  Ok (date +:+ "_" +:+ time)%string.

(** Line 193: the output directory of a job. *)
Definition im_dir_of (export_dir plugin_name rec_start : string) : string :=
  path_join export_dir (plugin_name +:+ "_" +:+ rec_start).

(** Lines 198-202, without the [[0]]: the candidates for the source video,
    in the order of the directory listing. *)
Definition source_candidates (w : World) (input_name : string) : list string :=
  filter (fun f => accepted f = true) (glob (fs w) (rec_dir w) input_name).

(** [add_export_job] (lines 183-215).  The result is the output directory
    (the value under ["export_folder"]). *)
Definition add_export_job (s : State) (w : World)
    (export_range : Q * Q) (export_dir plugin_name input_name output_name : string)
    (process_frame : File_Source Image -> Frame Image -> Image)
  : State * World * result string :=
  match get_recording_start_date w with
  | Raise e => (s, w, Raise e)
  | Ok rec_start =>
      let im_dir := im_dir_of export_dir plugin_name rec_start in
      let w := with_fs w (makedirs (fs w) im_dir) in
      let s := announce_output s im_dir in
      match source_candidates w input_name with
      | [] => (s, w, Raise IndexError)
      | distorted_video_loc :: _ =>
          let target_video_loc := path_join im_dir (output_name +:+ ".mp4") in
          let generator_args :=
            mkArgs (g_timestamps w) distorted_video_loc target_video_loc
              export_range process_frame in
          (register_task s plugin_name
             (run_events (export_processed_h264 (world_env w) generator_args)),
           w, Ok im_dir)
      end
  end.

(** A subclass whose [export_data] starts one job with fixed names, as the
    exporters of the application do. *)
Definition export_data_of (plugin_name input_name output_name : string)
    (process_frame : File_Source Image -> Frame Image -> Image)
    (s : State) (w : World) (range export_dir : NValue) : State * World * option exn :=
  match range, export_dir with
  | NRange r, NStr d =>
      let out := add_export_job s w r d plugin_name input_name output_name
                   process_frame in
      (out.1, match out.2 with Ok _ => None | Raise e => Some e end)
  | _, _ => (s, w, Some TypeError)
  end.

(** ** The plugin and the world

    [w'] is [w] with more directories: what the plugin changes outside
    itself. *)
Definition world_le (w w' : World) : Prop :=
  rec_dir w' = rec_dir w /\ g_timestamps w' = g_timestamps w /\
  videos w' = videos w /\ cpu_count w' = cpu_count w /\
  fs_text (fs w') = fs_text (fs w) /\ fs_entries (fs w') = fs_entries (fs w) /\
  fs_dirs (fs w) ⊆ fs_dirs (fs w').

(** The directory the plugin shows as its last export exists, once a job
    got as far as announcing one. *)
Definition output_exists (s : State) (w : World) : Prop :=
  log s = [] \/ output s ∈ fs_dirs (fs w).

End jobs.

Arguments World : clear implicits.
