(* ===== verification/System.v ===== *)
(** * The plugin with pipeline jobs

    [VideoExporter] and [export_processed_h264] together: the tasks the
    plugin registers run the generator of [Pipeline], so the events they
    deliver are the events of a run.  The theorems state what the host can
    see of such a plugin in every state it can reach (the status is a status
    of the pipeline or the initial one, the progress is a percentage, the
    indicator is between 0 and 1) and what it sees of a job that is left to
    run to its end. *)

From stdpp Require Import gmap.
From S2P Require Import Prelude Rounding FrameSource Encoder Resolver Pipeline Sample.
From S2P Require Import PipelineSpec PipelineLoop PipelineGen PipelineRefine.
From S2P Require Import PipelineCorrect Task Exporter ExporterInv Schedule.
From S2P Require Import ExporterProofs.

Local Open Scope Z_scope.

(** The status messages of the pipeline. *)
Definition pipeline_message (m : string) : Prop :=
  m = "Converting video"%string \/ m = "Converting scene video failed"%string \/
  m = "Converting video completed"%string.

(** What a plugin whose jobs are pipeline runs can show. *)
Definition shown_ok (ev : Event) : Prop :=
  (ev.1 = "Not exporting"%string \/ pipeline_message ev.1) /\ percent_ok ev.

Lemma shown_ok_not_canceled ev : shown_ok ev -> ev.1 <> canceled_message.
Proof. by intros [[->|[->|[->| ->]]] _]. Qed.

Lemma shown_ok_indicator ev : shown_ok ev -> (0 <= ev.2 / 100 <= 1)%Q.
Proof.
  intros [_ Hp]. unfold percent_ok in Hp.
  split; [apply Qle_shift_div_l|apply Qle_shift_div_r]; lra.
Qed.

Section system.
Context {Image : Type} `{Encoder Image E} {rnd : Rounding}.

(** The events of some run of the pipeline. *)
Definition pipeline_job (evs : list Event) : Prop :=
  exists (env : Env Image) (args : Args Image),
    evs = run_events (export_processed_h264 env args).

Lemma expected_events_messages (env : Env Image) (args : Args Image) :
  Forall (fun ev : Event => pipeline_message ev.1) (expected_events env args).
Proof.
  unfold expected_events, spec_events, pipeline_message.
  destruct (initialised _).
  - constructor; [by left|]. apply Forall_app. split.
    + apply Forall_fmap, Forall_true. intros i. by left.
    + apply Forall_singleton. by right; right.
  - apply Forall_cons. split; [by left|]. apply Forall_singleton. by right; left.
Qed.

Lemma pipeline_job_shown evs : pipeline_job evs -> Forall shown_ok evs.
Proof.
  intros (env & args & ->). apply Forall_and. split.
  - rewrite run_events_expected. eapply Forall_impl; [apply expected_events_messages|].
    intros ev. simpl. auto.
  - apply export_run_safe.
Qed.

Lemma reachable_shown s :
  reachable pipeline_job s -> shown_ok (status s, progress_attr s).
Proof.
  intros Hr. apply (reachable_mono _ (Forall shown_ok)) in Hr;
    [|apply pipeline_job_shown].
  apply reachable_state_in in Hr; [apply Hr|].
  split; [by left|]. unfold percent_ok. simpl. lra.
Qed.

(** C27. In every state a plugin with pipeline jobs can reach, whatever the
    order of the background steps, the polls, the cancellations and the new
    jobs, the status is the initial one or a message of the pipeline: the
    message "Export has been canceled" is never shown. *)
Theorem status_never_canceled s :
  reachable pipeline_job s ->
  (status s = "Not exporting"%string \/ pipeline_message (status s)) /\
  status s <> canceled_message.
Proof.
  intros Hs%reachable_shown. split; [apply Hs|].
  by apply (shown_ok_not_canceled _ Hs).
Qed.

(** In every such state the progress is a percentage and the value
    [gl_display] writes to the indicator is between 0 and 1. *)
Theorem indicator_in_unit_interval s :
  reachable pipeline_job s ->
  (0 <= progress_attr s <= 100)%Q /\ (0 <= gl_display s <= 1)%Q.
Proof.
  intros Hs%reachable_shown. split; [apply Hs|].
  apply (shown_ok_indicator _ Hs).
Qed.

(** C28. A job registered in a plugin without jobs whose source opens shows
    the completion message at 100 percent at the first poll after its
    process took as many steps as the job has events, whatever the
    processes of other tasks did in between. *)
Theorem job_completion_shown (env : Env Image) (args : Args Image) s name sched :
  initialised (open_capture env args) = true ->
  export_tasks s = [] ->
  (length (run_events (export_processed_h264 env args))
   <= steps_of (length (heap s)) sched)%nat ->
  status (recent_events (run_schedule sched
            (register_task s name (run_events (export_processed_h264 env args)))))
  = "Converting video completed"%string /\
  progress_attr (recent_events (run_schedule sched
            (register_task s name (run_events (export_processed_h264 env args)))))
  = 100%Q.
Proof.
  intros Hi Hts Hn.
  apply (job_last_event_scheduled s name _ ev_completed sched Hts); [|done].
  rewrite run_events_ok by done. apply spec_events_last.
Qed.

(** A job whose source does not open ends on the failure message at 0
    percent. *)
Theorem job_failure_shown (env : Env Image) (args : Args Image) s name sched :
  initialised (open_capture env args) = false ->
  export_tasks s = [] -> (2 <= steps_of (length (heap s)) sched)%nat ->
  status (recent_events (run_schedule sched
            (register_task s name (run_events (export_processed_h264 env args)))))
  = "Converting scene video failed"%string /\
  progress_attr (recent_events (run_schedule sched
            (register_task s name (run_events (export_processed_h264 env args)))))
  = 0%Q.
Proof.
  intros Hi Hts Hn.
  apply (job_last_event_scheduled s name _ ev_failed sched Hts);
    by rewrite missing_source_run.
Qed.

End system.

(** The witnesses and the examples are computed in the arithmetic without
    rounding. *)
#[local] Existing Instance exact_rounding.

(** ** The theorems on the sample recording *)

(** The plugin after it registered the sample job, the job ran for three
    steps, the plugin polled and then cancelled. *)
Definition demo_state : State :=
  cancel (recent_events (run_schedule [0; 0; 0]%nat
    (register_task init "World"
       (run_events (export_processed_h264 demo_env demo_args))))).

Lemma demo_state_reachable : reachable (pipeline_job (Image:=nat)) demo_state.
Proof.
  unfold demo_state. do 2 (eapply reachable_step; [|by constructor]).
  apply run_schedule_reachable. eapply reachable_step; [apply reachable_init|].
  apply step_register. by exists demo_env, demo_args.
Qed.

Lemma status_never_canceled_witness :
  (status demo_state = "Not exporting"%string \/ pipeline_message (status demo_state)) /\
  status demo_state <> canceled_message.
Proof. apply (status_never_canceled (Image:=nat)). exact demo_state_reachable. Defined.

Lemma indicator_in_unit_interval_witness :
  (0 <= progress_attr demo_state <= 100)%Q /\ (0 <= gl_display demo_state <= 1)%Q.
Proof. apply (indicator_in_unit_interval (Image:=nat)). exact demo_state_reachable. Defined.

(** The sample job beside the processes of two other tasks. *)
Definition demo_schedule : list nat := [0; 3; 0; 0; 1; 0; 3; 0]%nat.

Lemma job_completion_shown_witness :
  status (recent_events (run_schedule demo_schedule
            (register_task init "World"
               (run_events (export_processed_h264 demo_env demo_args)))))
  = "Converting video completed"%string /\
  progress_attr (recent_events (run_schedule demo_schedule
            (register_task init "World"
               (run_events (export_processed_h264 demo_env demo_args)))))
  = 100%Q.
Proof.
  apply job_completion_shown; [exact sample_opens|done|].
  vm_compute. lia.
Defined.

Lemma job_failure_shown_witness :
  status (recent_events (run_schedule demo_schedule
            (register_task init "World"
               (run_events (export_processed_h264 demo_env missing_args)))))
  = "Converting scene video failed"%string /\
  progress_attr (recent_events (run_schedule demo_schedule
            (register_task init "World"
               (run_events (export_processed_h264 demo_env missing_args)))))
  = 0%Q.
Proof. apply job_failure_shown; [by vm_compute|done|vm_compute; lia]. Defined.
