(* ===== verification/JobsProofs.v ===== *)
(** * Properties of [add_export_job]

    What [get_recording_start_date] and [add_export_job] do on each of their
    paths, errors included, and that the plugin stays inside the transition
    system of [Exporter] when jobs are started through them, so that the
    invariants of [ExporterInv] and [System] hold of a plugin that is
    driven by notifications. *)

From Stdlib Require Import Strings.Ascii.
From stdpp Require Import gmap.
From S2P Require Import Prelude Rounding FrameSource Encoder Resolver Pipeline Sample.
From S2P Require Import PipelineSpec PipelineGen PipelineCorrect Task Paths.
From S2P Require Import Exporter ExporterInv ExporterProofs Jobs System.

Local Open Scope Z_scope.

Section jobs_proofs.
Context {Image : Type} `{Encoder Image E} {rnd : Rounding}.
Implicit Types (w : World Image) (s : State).

(** The start date of a recording whose [info.csv] has both keys. *)
Definition start_date_of (d t : string) : string :=
  (str_replace ":" "_" (str_replace "." "_" d) +:+ "_" +:+ str_replace ":" "_" t)%string.

Lemma get_recording_start_date_ok w rows d t :
  fs_text (fs w) !! path_join (rec_dir w) "info.csv" = Some rows ->
  read_key_value_file rows !! "Start Date"%string = Some d ->
  read_key_value_file rows !! "Start Time"%string = Some t ->
  get_recording_start_date w = Ok (start_date_of d t).
Proof.
  intros Hf Hd Ht. unfold get_recording_start_date, open_key_value_file, dict_get.
  rewrite Hf. simpl. by rewrite Hd, Ht.
Qed.

(** Every result of [get_recording_start_date] has the shape of
    [start_date_of]. *)
Lemma get_recording_start_date_inv w r :
  get_recording_start_date w = Ok r -> exists d t, r = start_date_of d t.
Proof.
  unfold get_recording_start_date. intros Hr. ok_inv. by eexists _, _.
Qed.

Lemma start_date_of_no_colon d t : ":"%char ∉ chars (start_date_of d t).
Proof.
  unfold start_date_of. rewrite !chars_app. simpl.
  rewrite !not_elem_of_app, not_elem_of_cons.
  split_and!; [by apply str_replace_notin|done|by apply str_replace_notin].
Qed.

(** Creating the output directory does not change what [glob] finds. *)
Lemma source_candidates_makedirs w d input_name :
  source_candidates (with_fs w (makedirs (fs w) d)) input_name
  = source_candidates w input_name.
Proof. done. Qed.

(** The two state changes of a job that starts are steps of the plugin. *)
Lemma start_job_reachable ok s im_dir name evs :
  ok evs -> reachable ok s ->
  reachable ok (register_task (announce_output s im_dir) name evs).
Proof.
  eauto 6 with vx.
Qed.

(** What [add_export_job] has done when it returns or raises: nothing, or
    the directory is made and announced, and a job is registered when a
    source was found. *)
Lemma add_export_job_cases s w range export_dir plugin_name input_name output_name
    (process_frame : File_Source Image -> Frame Image -> Image) :
  let out := add_export_job s w range export_dir plugin_name input_name output_name
               process_frame in
  out.1 = (s, w) \/
  exists d, out.1.2 = with_fs w (makedirs (fs w) d) /\
    (out.1.1 = announce_output s d \/
     exists evs, pipeline_job evs /\
       out.1.1 = register_task (announce_output s d) plugin_name evs).
Proof.
  unfold add_export_job. destruct (get_recording_start_date w) as [r|e]; [|by left].
  right. eexists. split; [by destruct (source_candidates _ _)|].
  destruct (source_candidates _ _) as [|f fs'] eqn:Hc; simpl; [by left|].
  right. eexists. split; [|done]. by eexists _, _.
Qed.

(** ** The world as the plugin leaves it *)

#[export] Instance world_le_preorder : PreOrder (world_le (Image:=Image)).
Proof.
  split; [by intros w|].
  intros w1 w2 w3 (? & ? & ? & ? & ? & ? & ?) (? & ? & ? & ? & ? & ? & ?).
  unfold world_le. split_and!; try congruence. set_solver.
Qed.

Lemma world_le_makedirs w d : world_le w (with_fs w (makedirs (fs w) d)).
Proof. unfold world_le. simpl. split_and!; try done. set_solver. Qed.

(** The start date and the source video of a recording do not depend on
    the directories the plugin has made. *)
Lemma get_recording_start_date_le w w' :
  world_le w w' -> get_recording_start_date w' = get_recording_start_date w.
Proof.
  intros (Hd & _ & _ & _ & Ht & _). unfold get_recording_start_date, open_key_value_file.
  by rewrite Hd, Ht.
Qed.

Lemma source_candidates_le w w' input_name :
  world_le w w' -> source_candidates w' input_name = source_candidates w input_name.
Proof.
  intros (Hd & _ & _ & _ & _ & He & _). unfold source_candidates, glob.
  by rewrite Hd, He.
Qed.

Lemma output_exists_le s w w' : world_le w w' -> output_exists s w -> output_exists s w'.
Proof. intros (_ & _ & _ & _ & _ & _ & Hd) [Hl|Ho]; [by left|right; set_solver]. Qed.

Lemma output_exists_announce s w d :
  output_exists (announce_output s d) (with_fs w (makedirs (fs w) d)).
Proof. right. apply makedirs_exists. Qed.

(** [add_export_job] only makes directories, and the directory it shows
    exists, on every path. *)
Lemma add_export_job_world s w range export_dir plugin_name input_name output_name
    (process_frame : File_Source Image -> Frame Image -> Image) :
  let out := add_export_job s w range export_dir plugin_name input_name output_name
               process_frame in
  world_le w out.1.2 /\ (output_exists s w -> output_exists out.1.1 out.1.2).
Proof.
  cbv zeta.
  destruct (add_export_job_cases s w range export_dir plugin_name input_name
              output_name process_frame) as [->|(d & -> & Hs)]; [done|].
  split; [apply world_le_makedirs|]. intros _.
  destruct Hs as [->|(evs & _ & ->)]; apply output_exists_announce.
Qed.

(** [on_notify] keeps the plugin reachable when [export_data] does. *)
Lemma on_notify_keeps_reachable {W} ok
    (export_data : State -> W -> NValue -> NValue -> State * W * option exn)
    s (x : W) notification :
  (forall s' x' r d, reachable ok s' -> reachable ok (export_data s' x' r d).1.1) ->
  reachable ok s -> reachable ok (on_notify export_data s x notification).1.1.
Proof.
  intros Hexp Hs. unfold on_notify.
  destruct (notification_get _ "subject") as [v|]; [|done].
  destruct (is_should_export v); [|done].
  assert (reachable ok (cancel s)) as Hc by eauto with vx.
  destruct (notification_get _ "range") as [r|]; [|done].
  destruct (notification_get _ "export_dir") as [d|]; [|done]. by apply Hexp.
Qed.

(** An [export_data] that starts its job through [add_export_job] keeps the
    plugin reachable, on every path. *)
Lemma export_data_of_reachable plugin_name input_name output_name
    (process_frame : File_Source Image -> Frame Image -> Image) s w r d :
  reachable pipeline_job s ->
  reachable pipeline_job
    (export_data_of plugin_name input_name output_name process_frame s w r d).1.1.
Proof.
  intros Hs. unfold export_data_of. destruct r as [|r]; [done|].
  destruct d as [d|]; [|done]. cbn [fst].
  destruct (add_export_job_cases s w r d plugin_name input_name output_name
              process_frame) as [->|(im & _ & [->|(evs & Hev & ->)])].
  - done.
  - eauto with vx.
  - by apply start_job_reachable.
Qed.

(** It only makes directories, and the directory it shows exists. *)
Lemma export_data_of_world plugin_name input_name output_name
    (process_frame : File_Source Image -> Frame Image -> Image) s w r d :
  let out := export_data_of plugin_name input_name output_name process_frame s w r d in
  world_le w out.1.2 /\ (output_exists s w -> output_exists out.1.1 out.1.2).
Proof.
  unfold export_data_of. destruct r as [|r]; [done|]. destruct d as [d|]; [|done].
  apply add_export_job_world.
Qed.

(** The start date in the name of an output directory has no colon left,
    whatever [info.csv] holds: every [":"] of the date and of the time was
    replaced. *)
Theorem start_date_has_no_colon w r :
  get_recording_start_date w = Ok r -> ":"%char ∉ chars r.
Proof.
  intros (d & t & ->)%get_recording_start_date_inv. apply start_date_of_no_colon.
Qed.

(** A job whose recording has a start date and a source video: the
    output directory is created, becomes [output] and is announced in the
    log, the first candidate of the listing is the source, the target is
    [output_name].mp4 in the output directory, and the registry gets one new
    task, which runs [export_processed_h264] on these arguments. *)
Theorem add_export_job_starts_job s w range export_dir plugin_name input_name
    output_name (process_frame : File_Source Image -> Frame Image -> Image)
    rec_start source rest :
  get_recording_start_date w = Ok rec_start ->
  source_candidates w input_name = source :: rest ->
  let im_dir := im_dir_of export_dir plugin_name rec_start in
  let w' := with_fs w (makedirs (fs w) im_dir) in
  add_export_job s w range export_dir plugin_name input_name output_name process_frame
  = (register_task (announce_output s im_dir) plugin_name
       (run_events (export_processed_h264 (world_env w')
          (mkArgs (g_timestamps w) source (path_join im_dir (output_name +:+ ".mp4"))
             range process_frame))),
     w', Ok im_dir).
Proof.
  intros Hd Hc. unfold add_export_job.
  by rewrite Hd, source_candidates_makedirs, Hc.
Qed.

(** C30. A recording directory without a source video of an accepted
    extension: [add_export_job] raises [IndexError] after it created the
    output directory, set [output] and announced it in the log; no task is
    registered and no event reports the failure. *)
Theorem add_export_job_no_source s w range export_dir plugin_name input_name
    output_name (process_frame : File_Source Image -> Frame Image -> Image)
    rec_start :
  get_recording_start_date w = Ok rec_start ->
  source_candidates w input_name = [] ->
  add_export_job s w range export_dir plugin_name input_name output_name process_frame
  = (announce_output s (im_dir_of export_dir plugin_name rec_start),
     with_fs w (makedirs (fs w) (im_dir_of export_dir plugin_name rec_start)),
     Raise IndexError).
Proof.
  intros Hd Hc. unfold add_export_job.
  by rewrite Hd, source_candidates_makedirs, Hc.
Qed.

(** Without [info.csv] the method raises [FileNotFoundError] before it
    changed anything. *)
Theorem add_export_job_no_info s w range export_dir plugin_name input_name
    output_name (process_frame : File_Source Image -> Frame Image -> Image) :
  fs_text (fs w) !! path_join (rec_dir w) "info.csv" = None ->
  add_export_job s w range export_dir plugin_name input_name output_name process_frame
  = (s, w, Raise FileNotFoundError).
Proof.
  intros Hf. unfold add_export_job, get_recording_start_date, open_key_value_file.
  by rewrite Hf.
Qed.

(** A plugin that is driven by notifications stays in the transition
    system: from a reachable state, [on_notify] with an [export_data] that
    starts its job through [add_export_job] gives a reachable state, on every
    path, errors included.  The invariants of the reachable states therefore
    hold after every notification. *)
Theorem on_notify_reachable s w notification plugin_name input_name output_name
    (process_frame : File_Source Image -> Frame Image -> Image) :
  reachable pipeline_job s ->
  reachable pipeline_job
    (on_notify (export_data_of plugin_name input_name output_name process_frame)
       s w notification).1.1.
Proof.
  intros Hs. apply on_notify_keeps_reachable; [|done].
  intros s' w' r d. apply export_data_of_reachable.
Qed.

End jobs_proofs.

(** The witnesses and the examples are computed in the arithmetic without
    rounding. *)
#[local] Existing Instance exact_rounding.

(** ** A sample recording directory *)

Definition sample_fs : FileSystem :=
  mkFS {[ "/recordings/000/info.csv"%string :=
            [("Recording Name", "000"); ("Start Date", "18.09.2017");
             ("Start Time", "10:28:12")]%string ]}
       {[ "/recordings/000"%string :=
            ["info.csv"; "world.intrinsics"; "world.mp4"; "world_timestamps.npy";
             "world.mkv"]%string ]}
       ∅.

Definition sample_world : World nat :=
  mkWorld "/recordings/000" (sample_ts <$> seq 0 40) sample_fs
    {[ "/recordings/000/world.mp4"%string := sample_video 30 ]} 4.

(** The same recording without its videos. *)
Definition empty_world : World nat :=
  mkWorld "/recordings/000" (sample_ts <$> seq 0 40)
    (mkFS (fs_text sample_fs) {[ "/recordings/000"%string := ["info.csv"%string] ]} ∅)
    ∅ 4.

(** A world without [info.csv]. *)
Definition bare_world : World nat :=
  mkWorld "/recordings/001" [] (mkFS ∅ ∅ ∅) ∅ 4.

Definition sample_dir : string := "/exports/000/iMotions_18_09_2017_10_28_12".

Lemma sample_start_date :
  get_recording_start_date sample_world = Ok "18_09_2017_10_28_12"%string.
Proof. by vm_compute. Qed.

(** The source is the first accepted file in the order of the directory
    listing, which need not be the lexical order: the sample directory lists
    [world.mp4] before [world.mkv], and the job reads [world.mp4]. *)
Example source_is_first_listed :
  source_candidates sample_world "world"
  = ["/recordings/000/world.mp4"; "/recordings/000/world.mkv"]%string /\
  String.compare "/recordings/000/world.mkv" "/recordings/000/world.mp4" = Lt.
Proof. by vm_compute. Qed.

Lemma start_date_has_no_colon_witness : ":"%char ∉ chars "18_09_2017_10_28_12".
Proof. apply (start_date_has_no_colon sample_world). exact sample_start_date. Defined.

Lemma add_export_job_starts_job_witness :
  add_export_job init sample_world (5.2, 7.6)%Q "/exports/000" "iMotions" "world" "scene"
    sample_transform
  = (register_task (announce_output init sample_dir) "iMotions"
       (run_events (export_processed_h264
          (world_env (with_fs sample_world (makedirs sample_fs sample_dir)))
          (mkArgs (sample_ts <$> seq 0 40) "/recordings/000/world.mp4"
             (path_join sample_dir "scene.mp4") (5.2, 7.6)%Q sample_transform))),
     with_fs sample_world (makedirs sample_fs sample_dir), Ok sample_dir).
Proof.
  apply (add_export_job_starts_job init sample_world (5.2, 7.6)%Q "/exports/000"
           "iMotions" "world" "scene" sample_transform "18_09_2017_10_28_12"
           "/recordings/000/world.mp4" ["/recordings/000/world.mkv"%string]).
  - exact sample_start_date.
  - by vm_compute.
Defined.

Lemma add_export_job_no_source_witness :
  add_export_job init empty_world (5.2, 7.6)%Q "/exports/000" "iMotions" "world" "scene"
    sample_transform
  = (announce_output init sample_dir,
     with_fs empty_world (makedirs (fs empty_world) sample_dir), Raise IndexError).
Proof.
  apply (add_export_job_no_source init empty_world (5.2, 7.6)%Q "/exports/000"
           "iMotions" "world" "scene" sample_transform "18_09_2017_10_28_12");
    by vm_compute.
Defined.

Lemma add_export_job_no_info_witness :
  add_export_job init bare_world (5.2, 7.6)%Q "/exports/000" "iMotions" "world" "scene"
    sample_transform
  = (init, bare_world, Raise FileNotFoundError).
Proof. by apply add_export_job_no_info. Defined.

Lemma on_notify_reachable_witness :
  reachable (pipeline_job (Image:=nat))
    (on_notify (export_data_of "iMotions" "world" "scene" sample_transform)
       demo_state sample_world note_export).1.1.
Proof. apply on_notify_reachable. exact demo_state_reachable. Defined.
