(* ===== verification/EndToEnd.v ===== *)
(** * From the notification to the output file

    The components together.  A notification "should_export" reaches
    [on_notify], which cancels the running jobs and calls [export_data];
    [export_data] starts one job through [add_export_job], which reads the
    start date, creates the output directory, finds the source video and
    registers a task for [export_processed_h264]; the background process
    runs the generator; [recent_events] fetches its events.  For a recording
    that has a start date and a readable source video, the theorem of this
    file follows the job from the notification to the completion message
    and to the content of the output file. *)

From stdpp Require Import gmap.
From S2P Require Import Prelude Rounding FrameSource Encoder Resolver Pipeline Sample.
From S2P Require Import PipelineSpec PipelineGen PipelineRefine PipelineCorrect.
From S2P Require Import Task Logging Paths Exporter ExporterInv Schedule.
From S2P Require Import ExporterProofs.
From S2P Require Import Jobs System JobsProofs.

Local Open Scope Z_scope.

Section end_to_end.
Context {Image : Type} `{Encoder Image E} {rnd : Rounding}.
Context (w : World Image) (plugin_name input_name output_name : string).
Context (process_frame : File_Source Image -> Frame Image -> Image).
Context (rec_start source : string) (rest : list string) (f : VideoFile Image).
Context (Hdate : get_recording_start_date w = Ok rec_start).
Context (Hsource : source_candidates w input_name = source :: rest).
Context (Hfile : videos w !! source = Some f) (Hreadable : vf_readable f = true).
Implicit Types (s : State) (r : Q * Q) (d : string).

(** The output directory, the arguments and the environment of the job that
    a notification with the range [r] and the directory [d] starts. *)
Definition job_dir d : string := im_dir_of d plugin_name rec_start.

Definition job_args r d : Args Image :=
  mkArgs (g_timestamps w) source (path_join (job_dir d) (output_name +:+ ".mp4")) r
    process_frame.

(** The world once the directory of the job is made. *)
Definition job_world d : World Image := with_fs w (makedirs (fs w) (job_dir d)).

Definition job_env d : Env Image := world_env (job_world d).

Lemma job_capture r d :
  open_capture (job_env d) (job_args r d)
  = mkFileSource true (vf_frame_size f) (vf_frames f) 0 0 false.
Proof. by apply File_Source_init_readable. Qed.

Lemma job_opens r d : initialised (open_capture (job_env d) (job_args r d)) = true.
Proof. by rewrite job_capture. Qed.

(** The notification starts the job: the jobs that were running are
    cancelled, the directory is announced, and one task is registered. *)
Lemma notify_starts_job s notification r d :
  notification !! "subject" = Some (NStr "should_export") ->
  notification !! "range" = Some (NRange r) ->
  notification !! "export_dir" = Some (NStr d) ->
  on_notify (export_data_of plugin_name input_name output_name process_frame)
    s w notification
  = (register_task (announce_output (cancel s) (job_dir d)) plugin_name
       (run_events (export_processed_h264 (job_env d) (job_args r d))),
     job_world d, None).
Proof.
  intros Hs Hr Hd. unfold on_notify, notification_get. rewrite Hs, Hr, Hd. simpl.
  unfold add_export_job. by rewrite Hdate, source_candidates_makedirs, Hsource.
Qed.

(** The job has at most one event per ten frames of the source and two
    more. *)
Lemma job_events_length r d (k : nat) :
  Z.of_nat (length (vf_frames f)) / 10 + 2 <= Z.of_nat k ->
  (length (run_events (export_processed_h264 (job_env d) (job_args r d))) <= k)%nat.
Proof.
  intros Hk. pose proof (run_events_bound (job_env d) (job_args r d)) as Hb.
  rewrite job_capture in Hb. unfold update_rate in Hb. simpl in Hb. lia.
Qed.

(** C9. From the notification to the output file.  For a recording with a
    start date and a readable source video, in whatever state the plugin is:
    a notification "should_export" with a range and a directory raises
    nothing, makes the directory of the job and sets [output] to it; once the
    process of the job has taken one step per ten frames of the source and
    two more, in any interleaving with the processes of other tasks, a poll
    shows the completion message at 100 percent; and the
    generator of the job has returned with the output container closed, named
    [output_name].mp4 in that directory, holding the transformed frames of
    the resolved range of the source in order. *)
Theorem notify_exports_window s notification r d (sched : list nat) :
  notification !! "subject" = Some (NStr "should_export") ->
  notification !! "range" = Some (NRange r) ->
  notification !! "export_dir" = Some (NStr d) ->
  Z.of_nat (length (vf_frames f)) / 10 + 2
  <= Z.of_nat (steps_of (length (heap s)) sched) ->
  let out := on_notify
               (export_data_of plugin_name input_name output_name process_frame)
               s w notification in
  let shown := recent_events (run_schedule sched out.1.1) in
  out.2 = None /\ output out.1.1 = job_dir d /\ job_dir d ∈ fs_dirs (fs out.1.2) /\
  status shown = "Converting video completed"%string /\ progress_attr shown = 100%Q /\
  exists lf,
    run_final (export_processed_h264 (job_env d) (job_args r d))
    = GReturned (Some lf) /\
    cont_file (target_container lf)
    = path_join (job_dir d) (output_name +:+ ".mp4") /\
    closed (target_container lf) = true /\
    muxed (target_container lf)
    = spec_packets process_frame (open_capture (job_env d) (job_args r d))
        (job_range (job_env d) (job_args r d)).1
        (job_range (job_env d) (job_args r d)).2.
Proof.
  intros Hs Hr Hd Hk. cbv zeta. rewrite (notify_starts_job s _ r d Hs Hr Hd).
  cbn [fst snd]. do 2 (split; [done|]). split; [apply makedirs_exists|].
  destruct (job_last_event_scheduled (announce_output (cancel s) (job_dir d))
              plugin_name (run_events (export_processed_h264 (job_env d) (job_args r d)))
              ev_completed sched eq_refl) as [Hst Hpr].
  { rewrite run_events_ok by apply job_opens. apply spec_events_last. }
  { cbn [announce_output log_exporting set_output heap]. autorewrite with vx_rw.
    by apply job_events_length. }
  do 2 (split; [done|]).
  destruct (export_run_ok (job_env d) (job_args r d) (job_opens r d))
    as (lf & -> & Hdone).
  exists lf. by destruct Hdone.
Qed.

End end_to_end.

(** The witnesses and the examples are computed in the arithmetic without
    rounding. *)
#[local] Existing Instance exact_rounding.

Lemma notify_exports_window_witness :
  let out := on_notify
               (export_data_of "iMotions" "world" "scene" sample_transform)
               demo_state sample_world note_export in
  let shown := recent_events (run_schedule [1; 0; 1; 1; 0; 1; 1]%nat out.1.1) in
  out.2 = None /\
  output out.1.1 = job_dir "iMotions" "18_09_2017_10_28_12" "/exports/000" /\
  job_dir "iMotions" "18_09_2017_10_28_12" "/exports/000" ∈ fs_dirs (fs out.1.2) /\
  status shown = "Converting video completed"%string /\ progress_attr shown = 100%Q /\
  exists lf,
    run_final (export_processed_h264
                 (job_env sample_world "iMotions" "18_09_2017_10_28_12" "/exports/000")
                 (job_args sample_world "iMotions" "scene" sample_transform
                    "18_09_2017_10_28_12" "/recordings/000/world.mp4"
                    (5.2, 7.6)%Q "/exports/000"))
    = GReturned (Some lf) /\
    cont_file (target_container lf)
    = path_join (job_dir "iMotions" "18_09_2017_10_28_12" "/exports/000")
        ("scene" +:+ ".mp4") /\
    closed (target_container lf) = true /\
    muxed (target_container lf)
    = spec_packets sample_transform
        (open_capture
           (job_env sample_world "iMotions" "18_09_2017_10_28_12" "/exports/000")
           (job_args sample_world "iMotions" "scene" sample_transform
              "18_09_2017_10_28_12" "/recordings/000/world.mp4"
              (5.2, 7.6)%Q "/exports/000"))
        (job_range
           (job_env sample_world "iMotions" "18_09_2017_10_28_12" "/exports/000")
           (job_args sample_world "iMotions" "scene" sample_transform
              "18_09_2017_10_28_12" "/recordings/000/world.mp4"
              (5.2, 7.6)%Q "/exports/000")).1
        (job_range
           (job_env sample_world "iMotions" "18_09_2017_10_28_12" "/exports/000")
           (job_args sample_world "iMotions" "scene" sample_transform
              "18_09_2017_10_28_12" "/recordings/000/world.mp4"
              (5.2, 7.6)%Q "/exports/000")).2.
Proof.
  apply (notify_exports_window sample_world "iMotions" "world" "scene"
           sample_transform "18_09_2017_10_28_12" "/recordings/000/world.mp4"
           ["/recordings/000/world.mkv"%string] (sample_video 30));
    [exact sample_start_date|by vm_compute..|vm_compute; by intros ?].
Defined.
