(* ===== verification/Host.v ===== *)
(** * The plugin under its host

    The host of the plugin calls its methods in a loop: it builds the menu,
    delivers notifications, asks for the recent events and for the display
    on every tick, forwards the input of the user on the menu, removes the
    menu and cleans up at the end; the background processes run in between.
    [HostEvent] lists these calls, [handle] is one of them and [run] a
    sequence, which stops at the first exception.  A call acts on the plugin
    and on the world outside it, which [export_data] may change.

    [VideoExporter] is an abstract class: a subclass gives [customize_menu]
    (lines 154-156) and [export_data] (lines 217-219).  The two methods are
    the classes [CustomizeMenu] and [ExportData]; [SubclassOk] is what the
    theorem of this file asks of them.  The theorem is a refinement: every
    run of the host stays inside the transition system of [Exporter], so
    what is proved of the reachable states holds of the plugin whatever the
    host and the user do, and the plugin only adds directories to the
    world. *)

From stdpp Require Import gmap.
From S2P Require Import Prelude Rounding FrameSource Encoder Resolver Pipeline Sample.
From S2P Require Import PipelineSpec PipelineGen PipelineCorrect Task Paths.
From S2P Require Import Exporter ExporterInv ExporterProofs Menu MenuProofs.
From S2P Require Import Jobs System JobsProofs.

Local Open Scope Z_scope.

(** The abstract method [customize_menu] (lines 154-156). *)
Class CustomizeMenu : Type := customize_menu : Plugin -> Plugin.

(** The abstract method [export_data] (lines 217-219), on a plugin in a
    world of type [W]: the state and the world it reaches and the exception
    it raised, if any. *)
Class ExportData (W : Type) : Type :=
  export_data : State -> W -> NValue -> NValue -> State * W * option exn.

(** What the host does with the plugin. *)
Inductive HostEvent : Type :=
| HInitUI
| HNotify (notification : gmap string NValue)
| HRecentEvents
| HGlDisplay
| HUser (a : UserAction)
| HDeinitUI
| HCleanup
| HWork (i : nat).

Definition with_self (p : Plugin) (s : State) : Plugin :=
  mkPlugin s (menu p) (menu_icon p).

Section host.
Context {W : Type} `{CustomizeMenu, ExportData W}.
Implicit Types (p : Plugin) (w : W) (ev : HostEvent) (evs : list HostEvent).

(** A call that stays inside the plugin. *)
Definition inside w (r : Plugin * option exn) : Plugin * W * option exn :=
  (r.1, w, r.2).

(** One call of the host. *)
Definition handle p w ev : Plugin * W * option exn :=
  match ev with
  | HInitUI => inside w (init_ui customize_menu p)
  | HNotify notification =>
      let r := on_notify export_data (self p) w notification in
      (with_self p r.1.1, r.1.2, r.2)
  | HRecentEvents => (with_self p (recent_events (self p)), w, None)
  | HGlDisplay => inside w (gl_display_ui p)
  | HUser a => (user_action p a, w, None)
  | HDeinitUI => (deinit_ui p, w, None)
  | HCleanup => (with_self p (cleanup (self p)), w, None)
  | HWork i => (with_self p (work (self p) i), w, None)
  end.

(** The calls of [evs] in order, up to the first exception. *)
Fixpoint run evs p w : Plugin * W * option exn :=
  match evs with
  | [] => (p, w, None)
  | ev :: evs' =>
      let r := handle p w ev in
      match r.2 with
      | None => run evs' r.1.1 r.1.2
      | Some e => r
      end
  end.

(** An invariant of the calls is an invariant of the runs. *)
Lemma run_rule (I : Plugin -> W -> Prop) :
  (forall p w ev, I p w -> I (handle p w ev).1.1 (handle p w ev).1.2) ->
  forall evs p w, I p w -> I (run evs p w).1.1 (run evs p w).1.2.
Proof.
  intros Hh. induction evs as [|ev evs IH]; intros p w Hp; [done|]. simpl.
  pose proof (Hh p w ev Hp) as Hi. destruct (handle p w ev).2; [done|]. by apply IH.
Qed.

(** A run in two parts. *)
Lemma run_app evs1 evs2 p w :
  (run evs1 p w).2 = None ->
  run (evs1 ++ evs2) p w = run evs2 (run evs1 p w).1.1 (run evs1 p w).1.2.
Proof.
  revert p w. induction evs1 as [|ev evs1 IH]; intros p w; simpl; [done|].
  destruct (handle p w ev).2 eqn:He; [by rewrite He|apply IH].
Qed.

End host.

Section host_ok.
Context {Image : Type} `{Encoder Image E} {rnd : Rounding}.
Context `{CustomizeMenu, ExportData (World Image)}.
Implicit Types (p : Plugin) (w : World Image) (ev : HostEvent).

(** The contract of a subclass: [customize_menu] leaves the attributes of
    the plugin alone and adds no widget through which the user can write
    them; [export_data] keeps the plugin reachable, makes directories and
    changes nothing else outside the plugin, and leaves [output] an
    existing directory (as it does when it starts its jobs through
    [add_export_job]). *)
Class SubclassOk : Prop := {
  customize_menu_self p : self (customize_menu p) = self p;
  customize_menu_protected p : menu_protected p -> menu_protected (customize_menu p);
  export_data_ok s w r d :
    reachable (pipeline_job (Image:=Image)) s ->
    reachable (pipeline_job (Image:=Image)) (export_data s w r d).1.1;
  export_data_world s w r d :
    world_le w (export_data s w r d).1.2 /\
    (output_exists s w -> output_exists (export_data s w r d).1.1 (export_data s w r d).1.2);
}.

Context `{!SubclassOk}.

(** What holds of the plugin between two calls of the host. *)
Definition host_ok p : Prop :=
  reachable (pipeline_job (Image:=Image)) (self p) /\ menu_protected p.

(** What holds of the plugin and the world [w0] has become. *)
Definition world_ok (w0 : World Image) p w : Prop :=
  world_le w0 w /\ output_exists (self p) w.

Lemma add_menu_protected p : menu_protected (add_menu p).
Proof. intros m [= <-]. constructor. Qed.

Lemma init_ui_ok p :
  reachable (pipeline_job (Image:=Image)) (self p) ->
  host_ok (init_ui customize_menu p).1.
Proof.
  intros Hr. split.
  - by rewrite init_ui_self, customize_menu_self.
  - apply init_ui_protected, customize_menu_protected, add_menu_protected.
Qed.

Lemma user_action_ok p a : host_ok p -> host_ok (user_action p a).
Proof.
  intros [Hr Hm]. destruct (user_action_menu p a) as [Hmenu _]. split.
  - destruct (user_action_protected p a Hm) as [->| ->]; [done|].
    eauto with vx.
  - intros m. rewrite Hmenu. apply Hm.
Qed.

Lemma handle_ok p w ev : host_ok p -> host_ok (handle p w ev).1.1.
Proof.
  intros Hp. destruct ev as [|n| | |a| | |i]; simpl;
    [apply init_ui_ok, Hp| | | |by apply user_action_ok|..];
    destruct Hp as [Hr Hm].
  - split; [|done]. apply on_notify_keeps_reachable; [apply export_data_ok|done].
  - split; [|done]. apply (reachable_step _ _ _ Hr), step_poll.
  - unfold gl_display_ui. by destruct (menu_icon p).
  - by split.
  - split; [|done]. apply (reachable_step _ _ _ Hr), step_cancel.
  - split; [|done]. apply (reachable_step _ _ _ Hr), step_work.
Qed.

(** [on_notify] makes directories only, and [output] stays an existing
    directory. *)
Lemma on_notify_world s w notification :
  world_le w (on_notify export_data s w notification).1.2 /\
  (output_exists s w ->
   output_exists (on_notify export_data s w notification).1.1
     (on_notify export_data s w notification).1.2).
Proof.
  unfold on_notify. repeat case_match; try done. apply (export_data_world (cancel s)).
Qed.

(** The calls that change neither the log, nor [output], nor the world. *)
Lemma handle_quiet p w ev :
  menu_protected p -> (forall n, ev <> HNotify n) ->
  (handle p w ev).1.2 = w /\ log (self (handle p w ev).1.1) = log (self p) /\
  (output (self (handle p w ev).1.1) = output (self p)).
Proof.
  intros Hm Hn. destruct ev as [|n| | |a| | |i]; simpl; try done.
  - by rewrite init_ui_self, customize_menu_self.
  - by destruct (Hn n).
  - unfold gl_display_ui. by destruct (menu_icon p).
  - by destruct (user_action_protected p a Hm) as [->| ->].
Qed.

Lemma handle_world w0 p w ev :
  menu_protected p ->
  world_ok w0 p w -> world_ok w0 (handle p w ev).1.1 (handle p w ev).1.2.
Proof.
  intros Hm [Hle Ho].
  assert ((exists n, ev = HNotify n) \/ forall n, ev <> HNotify n) as [[n ->]|Hn]
    by (destruct ev; eauto).
  - destruct (on_notify_world (self p) w n) as [Hle' Ho']. simpl.
    split; [by etrans|by apply Ho'].
  - destruct (handle_quiet p w ev) as (-> & Hl & Hout); [done..|].
    split; [done|]. unfold output_exists. by rewrite Hl, Hout.
Qed.

(** C19. Refinement of the transition system by the host loop: from a
    plugin in a reachable state whose menu is write-protected, every
    sequence of calls of the host (building and removing the menu,
    notifications, polls, displays, input of the user, steps of the
    background processes, clean-up), up to the first exception, leaves the
    plugin in a reachable state, in a world that differs from the first by
    the directories made, and the directory the plugin shows as its last
    export exists. *)
Theorem host_run_reachable evs p w :
  reachable (pipeline_job (Image:=Image)) (self p) -> menu_protected p ->
  output_exists (self p) w ->
  reachable (pipeline_job (Image:=Image)) (self (run evs p w).1.1) /\
  world_le w (run evs p w).1.2 /\
  output_exists (self (run evs p w).1.1) (run evs p w).1.2.
Proof.
  intros Hr Hm Ho.
  destruct (run_rule (fun p' w' => host_ok p' /\ world_ok w p' w')) with evs p w
    as [[Hr' _] Hw']; [|done..].
  intros p' w' ev [Hp Hw]. split; [by apply handle_ok|apply handle_world, Hw; apply Hp].
Qed.

End host_ok.

(** The witnesses and the examples are computed in the arithmetic without
    rounding. *)
#[local] Existing Instance exact_rounding.

(** ** A sample subclass and a sample session *)

#[export] Instance demo_customize_menu : CustomizeMenu := sample_customize_menu.

#[export] Instance demo_export_data : ExportData (World nat) :=
  export_data_of "iMotions" "world" "scene" sample_transform.

#[export] Instance demo_subclass_ok : SubclassOk (Image:=nat).
Proof.
  split.
  - done.
  - intros p Hp m. unfold customize_menu, demo_customize_menu, sample_customize_menu.
    simpl. destruct (menu p) as [m'|] eqn:Hm; [|done]. intros [= <-]. simpl.
    apply Forall_app. split; [by apply Hp|by repeat constructor].
  - intros s w r d. apply export_data_of_reachable.
  - intros s w r d. apply export_data_of_world.
Qed.

(** A session: the menu is built, an export is requested, the job runs, the
    host polls and displays, the user tries to edit the status and then
    cancels, a second export is requested, and the host removes the menu and
    cleans up. *)
Definition demo_session : list HostEvent :=
  [HInitUI; HNotify note_export; HWork 0; HWork 0; HRecentEvents; HGlDisplay;
   HUser (Edit 1 (UStr "Export has been canceled")); HUser (Click 4);
   HRecentEvents; HNotify note_export; HWork 1; HRecentEvents; HDeinitUI;
   HCleanup].

Lemma host_run_reachable_witness :
  reachable (pipeline_job (Image:=nat))
    (self (run demo_session fresh_plugin sample_world).1.1) /\
  world_le sample_world (run demo_session fresh_plugin sample_world).1.2 /\
  output_exists (self (run demo_session fresh_plugin sample_world).1.1)
    (run demo_session fresh_plugin sample_world).1.2.
Proof.
  apply (host_run_reachable (Image:=nat)); [apply rtc_refl|done|by left].
Defined.
