(* ===== verification/Session.v ===== *)
(** * Sessions of the host

    A host that follows the protocol of the application builds the menu
    first, then delivers notifications, polls, displays, forwards the input
    of the user and lets the background processes run, in any order, and
    removes the menu and cleans up at the end.  This file takes an exporter
    whose [export_data] starts its job through [add_export_job], as the
    exporters of the application do, and whose [customize_menu] keeps the
    contract [KeepsMenu], on a recording with a start date and a source
    video, and shows what a whole session does: no call raises,
    every request makes its directory and announces it in the log, the
    plugin shows the directory of the last request, and the session ends
    without a job in the registry.  [started] is what a part of a session
    has done, and it composes ([started_app]). *)

From stdpp Require Import gmap.
From S2P Require Import Prelude Rounding FrameSource Encoder Resolver Pipeline Sample.
From S2P Require Import PipelineSpec PipelineGen PipelineCorrect Task Paths.
From S2P Require Import Logging Exporter ExporterInv ExporterProofs Menu MenuProofs.
From S2P Require Import Jobs System JobsProofs EndToEnd Host.

Local Open Scope Z_scope.

(** A notification that [on_notify] and [export_data] can read: it has a
    subject, and a request for an export has a range and a directory. *)
Definition well_formed (notification : gmap string NValue) : bool :=
  match notification !! "subject" with
  | None => false
  | Some v =>
      if is_should_export v then
        match notification !! "range", notification !! "export_dir" with
        | Some (NRange _), Some (NStr _) => true
        | _, _ => false
        end
      else true
  end.

(** The calls of the main loop while the menu is up. *)
Definition calm (ev : HostEvent) : bool :=
  match ev with
  | HNotify notification => well_formed notification
  | HRecentEvents | HGlDisplay | HUser _ | HWork _ => true
  | HInitUI | HDeinitUI | HCleanup => false
  end.

(** The export directory a call asks for, if it is a request for an
    export. *)
Definition request (ev : HostEvent) : option string :=
  match ev with
  | HNotify notification =>
      match notification !! "subject", notification !! "export_dir" with
      | Some v, Some (NStr d) => if is_should_export v then Some d else None
      | _, _ => None
      end
  | _ => None
  end.

(** A session that follows the protocol. *)
Definition session (evs : list HostEvent) : list HostEvent :=
  HInitUI :: evs ++ [HDeinitUI; HCleanup].

(** The record the plugin logs for the directory [d]. *)
Definition announcement (d : string) : LogRecord :=
  mkLogRecord logger INFO ("Exporting to " +:+ d).

(** From the plugin [s] in the world [w] to [s'] in [w'], jobs were started
    for the directories [ds], in this order: the directories were made and
    announced, the last is the [output], and nothing else was made or
    announced. *)
Definition started {Image : Type} (ds : list string)
    (s : State) (w : World Image) (s' : State) (w' : World Image) : Prop :=
  output s' = default (output s) (last ds) /\
  log s' = log s ++ (announcement <$> ds) /\
  fs_dirs (fs w') = list_to_set ds ∪ fs_dirs (fs w).

(** The contract of [customize_menu] in a session: it leaves the attributes
    of the plugin alone, adds no widget through which the user can write
    them, and keeps the menu and the icon [init_ui] made. *)
Class KeepsMenu `{CustomizeMenu} : Prop := {
  customize_menu_attributes p : self (customize_menu p) = self p;
  customize_menu_widgets p : menu_protected p -> menu_protected (customize_menu p);
  customize_menu_menu p : is_Some (menu p) -> is_Some (menu (customize_menu p));
  customize_menu_icon p : menu_icon (customize_menu p) = menu_icon p;
}.

Section session.
Context {Image : Type} `{Encoder Image E} {rnd : Rounding} `{CustomizeMenu}.
Context (plugin_name input_name output_name : string).
Context (process_frame : File_Source Image -> Frame Image -> Image).

#[local] Instance session_export_data : ExportData (World Image) :=
  export_data_of plugin_name input_name output_name process_frame.

Context `{Hkeep : !KeepsMenu}.

(** With such a [customize_menu] the exporter keeps the contract of the
    host: its [export_data] is [add_export_job]. *)
#[local] Instance session_subclass_ok : SubclassOk (Image:=Image).
Proof.
  split; [apply customize_menu_attributes|apply customize_menu_widgets|..]; intros s w r d.
  - apply export_data_of_reachable.
  - apply export_data_of_world.
Qed.

Context (w0 : World Image) (rec_start source : string) (rest : list string).
Context (Hdate : get_recording_start_date w0 = Ok rec_start).
Context (Hsource : source_candidates w0 input_name = source :: rest).
Implicit Types (p : Plugin) (w : World Image) (ev : HostEvent)
  (evs : list HostEvent).

(** The directory of the job that a request for [d] starts. *)
Definition dir_of (d : string) : string := job_dir plugin_name rec_start d.

(** The directories the requests of [evs] name, in order. *)
Definition requested evs : list string := dir_of <$> omap request evs.

(** What holds between two calls of the main loop. *)
Definition session_ok p w : Prop :=
  host_ok (Image:=Image) p /\ is_Some (menu_icon p) /\ world_le w0 w.

(** What one call of the main loop does. *)
Definition call_done p w ev (out : Plugin * World Image * option exn) : Prop :=
  out.2 = None /\ session_ok out.1.1 out.1.2 /\
  started (option_list (dir_of <$> request ev)) (self p) w (self out.1.1) out.1.2.

Lemma started_nil s w s' :
  output s' = output s -> log s' = log s -> started [] s w s' w.
Proof.
  intros Ho Hl. split_and!; [done|simpl; by rewrite Hl, (right_id_L [] (++))|].
  symmetry. apply (left_id_L ∅ (∪)).
Qed.

Lemma started_app ds1 ds2 s w s' w' s'' w'' :
  started ds1 s w s' w' -> started ds2 s' w' s'' w'' ->
  started (ds1 ++ ds2) s w s'' w''.
Proof.
  intros (Ho & Hl & Hd) (Ho' & Hl' & Hd'). split_and!.
  - rewrite Ho', Ho, last_app. by destruct (last ds2).
  - by rewrite Hl', Hl, fmap_app, (assoc_L (++)).
  - rewrite Hd', Hd, list_to_set_app_L, !(assoc_L (∪)).
    by rewrite (comm_L (∪) (list_to_set ds2)).
Qed.

Lemma started_one s w d :
  started [d] s w (announce_output s d) (with_fs w (makedirs (fs w) d)).
Proof. split_and!; [done..|]. simpl. by rewrite (right_id_L ∅ (∪)). Qed.

(** The recording keeps its start date and its source video. *)
Lemma world_date w : world_le w0 w -> get_recording_start_date w = Ok rec_start.
Proof. intros Hle. by rewrite (get_recording_start_date_le w0 w). Qed.

Lemma world_source w :
  world_le w0 w -> source_candidates w input_name = source :: rest.
Proof. intros Hle. by rewrite (source_candidates_le w0 w). Qed.

(** A well-formed notification raises nothing; a request starts its job. *)
Lemma notify_request s w notification :
  world_le w0 w -> well_formed notification = true ->
  (on_notify export_data s w notification).2 = None /\
  started (option_list (dir_of <$> request (HNotify notification))) s w
    (on_notify export_data s w notification).1.1
    (on_notify export_data s w notification).1.2.
Proof.
  intros Hle Hwf. unfold well_formed, request in *.
  destruct (notification !! "subject") as [v|] eqn:Hs; [|done].
  destruct (is_should_export v) eqn:Hv.
  - destruct (notification !! "range") as [[|r]|] eqn:Hr; try done.
    destruct (notification !! "export_dir") as [[d|]|] eqn:Hd; try done.
    destruct v as [x|]; [|done]. apply bool_decide_eq_true in Hv as ->.
    unfold export_data, session_export_data.
    rewrite (notify_starts_job w plugin_name input_name output_name process_frame
               rec_start source rest (world_date w Hle) (world_source w Hle)
               s notification r d Hs Hr Hd).
    split; [done|]. apply (started_one (cancel s)).
  - rewrite (on_notify_other_subject _ _ _ _ v) by done.
    destruct (notification !! "export_dir") as [[d|]|]; by split; [|apply started_nil].
Qed.

(** A call that stays inside the plugin and keeps [output] and the log. *)
Lemma quiet_done p w ev p' :
  request ev = None -> output (self p') = output (self p) ->
  log (self p') = log (self p) -> session_ok p' w ->
  call_done p w ev (p', w, None).
Proof.
  intros Hr Ho Hl Hs. unfold call_done. rewrite Hr.
  by split_and!; [..|apply started_nil].
Qed.

Lemma handle_calm p w ev :
  session_ok p w -> calm ev = true -> call_done p w ev (handle p w ev).
Proof.
  intros (Hp & Hi & Hle) Hc.
  pose proof (handle_ok p w ev Hp) as Hp'.
  destruct ev as [|n| | |a| | |i]; try done.
  - destruct (notify_request (self p) w n Hle Hc) as [He Hst].
    destruct (on_notify_world (self p) w n) as [Hle' _].
    unfold call_done, session_ok. simpl. by split_and!; [..|etrans|].
  - by apply quiet_done.
  - unfold handle, gl_display_ui in *. destruct Hi as [x ->].
    by apply quiet_done.
  - apply quiet_done; [done| | |split_and!; [done| |done]].
    + by destruct (user_action_protected p a (proj2 Hp)) as [->| ->].
    + by destruct (user_action_protected p a (proj2 Hp)) as [->| ->].
    + by rewrite (proj2 (user_action_menu p a)).
  - by apply quiet_done.
Qed.

Lemma requested_cons ev evs :
  requested (ev :: evs) = option_list (dir_of <$> request ev) ++ requested evs.
Proof. unfold requested. simpl. by destruct (request ev). Qed.

(** What the calls of the main loop do, one after the other. *)
Lemma run_calm evs : forall p w,
  session_ok p w -> Forall (fun ev => calm ev = true) evs ->
  (run evs p w).2 = None /\ session_ok (run evs p w).1.1 (run evs p w).1.2 /\
  started (requested evs) (self p) w (self (run evs p w).1.1) (run evs p w).1.2.
Proof.
  induction evs as [|ev evs IH]; intros p w Hs Hc.
  { by split_and!; [..|apply started_nil]. }
  apply Forall_cons in Hc as [Hc Hcs].
  destruct (handle_calm p w ev Hs Hc) as (He & Hs' & Hst).
  destruct (IH _ _ Hs' Hcs) as (He' & Hs'' & Hst').
  simpl. rewrite He, requested_cons. split_and!; [done..|]. by eapply started_app.
Qed.

(** [init_ui] puts the menu up. *)
Lemma init_ui_up p :
  reachable (pipeline_job (Image:=Image)) (self p) ->
  (init_ui customize_menu p).2 = None /\
  session_ok (init_ui customize_menu p).1 w0 /\
  output (self (init_ui customize_menu p).1) = output (self p) /\
  log (self (init_ui customize_menu p).1) = log (self p).
Proof.
  intros Hr. pose proof (init_ui_ok p Hr) as Hok.
  pose proof (customize_menu_icon (add_menu p)) as Hicon.
  destruct (customize_menu_menu (add_menu p)) as [m Hm]; [by eexists|].
  unfold session_ok. rewrite init_ui_self, customize_menu_self.
  unfold init_ui in *. rewrite Hm in *. simpl. rewrite Hicon.
  by split_and!; [|..|eexists| | |].
Qed.

(** C10. A whole session.  The exporter starts its jobs through
    [add_export_job], and its [customize_menu] keeps the contract
    [KeepsMenu]: it leaves the attributes of the plugin alone, adds no
    widget through which the user can write them, and keeps the menu and
    the icon [init_ui] made.  The recording has a start date and a source
    video, and the plugin starts in a reachable state.  When the host
    builds the menu, then delivers notifications that have a subject and,
    when they request an export, a range and a directory, polls, displays,
    forwards the input of the user and lets the background processes run,
    in any order and any number, and at the end removes the menu and cleans
    up, no call raises; the directories of the requests, and no others, are
    made and are announced in the log, in the order of the requests; the
    plugin shows the directory of the last request as its last export; and
    the session ends with an empty registry and without a menu.  Without
    the contract the claim fails: [init_ui] raises when [customize_menu]
    drops the menu, and the user can overwrite [output] through an editable
    field. *)
Theorem session_exports evs p :
  reachable (pipeline_job (Image:=Image)) (self p) ->
  Forall (fun ev => calm ev = true) evs ->
  (run (session evs) p w0).2 = None /\
  output (self (run (session evs) p w0).1.1)
  = default (output (self p)) (last (requested evs)) /\
  log (self (run (session evs) p w0).1.1)
  = log (self p) ++ (announcement <$> requested evs) /\
  fs_dirs (fs (run (session evs) p w0).1.2)
  = list_to_set (requested evs) ∪ fs_dirs (fs w0) /\
  export_tasks (self (run (session evs) p w0).1.1) = [] /\
  menu (run (session evs) p w0).1.1 = None.
Proof.
  intros Hr Hc. destruct (init_ui_up p Hr) as (He & Hs & Ho & Hl).
  destruct (run_calm evs _ _ Hs Hc) as (He' & _ & Ho' & Hl' & Hd).
  unfold session. cbn [run handle inside fst snd]. rewrite He.
  rewrite run_app by done. cbn [run handle fst snd]. simpl.
  by rewrite Ho', Ho, Hl', Hl, Hd.
Qed.

End session.

(** The witnesses and the examples are computed in the arithmetic without
    rounding. *)
#[local] Existing Instance exact_rounding.

(** ** A sample session *)

#[export] Instance demo_keeps_menu : KeepsMenu (H:=demo_customize_menu).
Proof.
  split; [apply demo_subclass_ok|apply demo_subclass_ok| |done]. intros p [m Hm].
  unfold customize_menu, demo_customize_menu, sample_customize_menu. simpl.
  rewrite Hm. by eexists.
Qed.

(** The menu is up, two exports are requested, to two directories, with
    polls, displays, input of the user and steps of the jobs in between. *)
Definition note_export_again : gmap string NValue :=
  <["export_dir" := NStr "/exports/001"]> note_export.

Definition demo_calls : list HostEvent :=
  [HNotify note_export; HWork 0; HWork 0; HRecentEvents; HGlDisplay;
   HUser (Edit 1 (UStr "Export has been canceled")); HUser (Click 4);
   HNotify note_other; HRecentEvents; HNotify note_export_again; HWork 1;
   HRecentEvents].

Lemma session_exports_witness :
  (run (session demo_calls) fresh_plugin sample_world).2 = None /\
  output (self (run (session demo_calls) fresh_plugin sample_world).1.1)
  = default "Not set yet"%string
      (last (requested "iMotions" "18_09_2017_10_28_12" demo_calls)) /\
  log (self (run (session demo_calls) fresh_plugin sample_world).1.1)
  = [] ++ (announcement <$> requested "iMotions" "18_09_2017_10_28_12" demo_calls) /\
  fs_dirs (fs (run (session demo_calls) fresh_plugin sample_world).1.2)
  = list_to_set (requested "iMotions" "18_09_2017_10_28_12" demo_calls)
    ∪ fs_dirs (fs sample_world) /\
  export_tasks (self (run (session demo_calls) fresh_plugin sample_world).1.1) = [] /\
  menu (run (session demo_calls) fresh_plugin sample_world).1.1 = None.
Proof.
  apply (session_exports (Image:=nat) "iMotions" "world" "scene" sample_transform
           sample_world "18_09_2017_10_28_12" "/recordings/000/world.mp4"
           ["/recordings/000/world.mkv"%string] sample_start_date eq_refl
           demo_calls fresh_plugin); [apply rtc_refl|by repeat constructor].
Defined.

(** The directories of the sample session. *)
Example demo_calls_requested :
  requested "iMotions" "18_09_2017_10_28_12" demo_calls
  = ["/exports/000/iMotions_18_09_2017_10_28_12";
     "/exports/001/iMotions_18_09_2017_10_28_12"]%string.
Proof. by vm_compute. Qed.
